(** * The Dune archive: a paged record store (archive.py)

    A shallow embedding of [DuneArchive]: the catalog file, the fixed-width
    record codec, the page store and the create / search / delete engine,
    followed by the properties of the storage engine.

    Conventions of the embedding.
    - A Python [str] is the list of its code points ([pystr]); [bytes] and
      [bytearray] are lists of [byte].
    - Python integers that are packed, compared or used as bit masks are
      [Z]; lengths, offsets and loop indices, which the code only ever
      builds from [len], [range] and non-negative constants, are [nat].
    - A call that may raise returns a [result]; the engine's methods thread
      the archive (in-memory catalog and file system) explicitly.
    - [struct] formats without a byte-order prefix use the native order;
      the embedding fixes it to little-endian with 4-byte [I]/[i]. *)

From Stdlib Require Import ZArith NArith List Bool Lia String Ascii.
From Stdlib Require Import Strings.Byte Numbers.DecimalZ Numbers.DecimalPos.
From stdpp Require Import base option list gmap.

Local Open Scope Z_scope.

(** ** Python values *)

Definition pystr := list N.
Definition bytes := list byte.

(** An ASCII literal as a Python string. *)
Definition lit (s : string) : pystr :=
  map N_of_ascii (list_ascii_of_string s).

Inductive exn :=
  | StructError
  | IndexError
  | ValueError
  | UnicodeDecodeError
  | UnicodeEncodeError
  | KeyError.

Inductive result (A : Type) :=
  | Ok (a : A)
  | Raise (e : exn).
Arguments Ok {A} a.
Arguments Raise {A} e.

Definition bind {A B} (r : result A) (k : A -> result B) : result B :=
  match r with
  | Ok a => k a
  | Raise e => Raise e
  end.

#[global] Instance result_bind : MBind result := fun A B k r => bind r k.
#[global] Instance result_ret : MRet result := fun A a => Ok a.

Definition of_option {A} (e : exn) (o : option A) : result A :=
  match o with
  | Some a => Ok a
  | None => Raise e
  end.

(** [l[i]] for a Python list: negative indices count from the end. *)
Definition py_index {A} (l : list A) (i : Z) : result A :=
  let n := Z.of_nat (length l) in
  if (0 <=? i) && (i <? n) then of_option IndexError (l !! Z.to_nat i)
  else if (i <? 0) && (0 <=? i + n) then of_option IndexError (l !! Z.to_nat (i + n))
  else Raise IndexError.

(** [l[a:a+n]]: slices clamp to the length of the sequence. *)
Definition slice {A} (l : list A) (a n : nat) : list A := take n (drop a l).

(** [buf[a:b] = r] on a bytearray: the clamped range is replaced by [r],
    whatever the length of [r]. *)
Definition slice_assign {A} (l : list A) (a b : nat) (r : list A) : list A :=
  take a l ++ r ++ drop b l.

(** [buf[i] = x] on a bytearray. *)
Definition index_assign {A} (l : list A) (i : nat) (x : A) : result (list A) :=
  if (i <? length l)%nat then Ok (<[i := x]> l) else Raise IndexError.

(** ** struct.pack / struct.unpack *)

Definition byte_of_Z (z : Z) : byte :=
  match Byte.of_N (Z.to_N (z mod 256)) with
  | Some b => b
  | None => x00
  end.

Definition Z_of_byte (b : byte) : Z := Z.of_N (Byte.to_N b).

Fixpoint le_bytes (n : nat) (z : Z) : bytes :=
  match n with
  | O => []
  | S n' => byte_of_Z z :: le_bytes n' (z / 256)
  end.

Fixpoint le_value (bs : bytes) : Z :=
  match bs with
  | [] => 0
  | b :: bs' => Z_of_byte b + 256 * le_value bs'
  end.

Definition pack_I (z : Z) : result bytes :=
  if (0 <=? z) && (z <? 2 ^ 32) then Ok (le_bytes 4 z) else Raise StructError.

Definition unpack_I (bs : bytes) : result Z :=
  if (length bs =? 4)%nat then Ok (le_value bs) else Raise StructError.

Definition pack_i (z : Z) : result bytes :=
  if (- 2 ^ 31 <=? z) && (z <? 2 ^ 31) then Ok (le_bytes 4 (z mod 2 ^ 32))
  else Raise StructError.

Definition unpack_i (bs : bytes) : result Z :=
  if (length bs =? 4)%nat then
    let u := le_value bs in
    Ok (if u <? 2 ^ 31 then u else u - 2 ^ 32)
  else Raise StructError.

Definition pack_B (z : Z) : result bytes :=
  if (0 <=? z) && (z <? 256) then Ok [byte_of_Z z] else Raise StructError.

Definition unpack_B (bs : bytes) : result Z :=
  match bs with
  | [b] => Ok (Z_of_byte b)
  | _ => Raise StructError
  end.

(** ** UTF-8 *)

Definition byte_of_N (n : N) : byte := byte_of_Z (Z.of_N n).

Definition encode_char (c : N) : result bytes :=
  (if c <? 0x80 then Ok [byte_of_N c]
   else if c <? 0x800 then
     Ok [byte_of_N (0xC0 + c / 64); byte_of_N (0x80 + c mod 64)]
   else if c <? 0x10000 then
     if (0xD800 <=? c) && (c <=? 0xDFFF) then Raise UnicodeEncodeError
     else Ok [byte_of_N (0xE0 + c / 4096); byte_of_N (0x80 + (c / 64) mod 64);
              byte_of_N (0x80 + c mod 64)]
   else if c <? 0x110000 then
     Ok [byte_of_N (0xF0 + c / 262144); byte_of_N (0x80 + (c / 4096) mod 64);
         byte_of_N (0x80 + (c / 64) mod 64); byte_of_N (0x80 + c mod 64)]
   else Raise UnicodeEncodeError)%N.

(** [s.encode('utf-8')] *)
Fixpoint encode_utf8 (s : pystr) : result bytes :=
  match s with
  | [] => Ok []
  | c :: s' =>
      b ← encode_char c;
      bs ← encode_utf8 s';
      Ok (b ++ bs)
  end.

Definition is_cont (b : N) : bool := ((0x80 <=? b) && (b <=? 0xBF))%N.
Definition within (lo hi b : N) : bool := ((lo <=? b) && (b <=? hi))%N.

Fixpoint decode_units (bs : list N) : option pystr :=
  match bs with
  | [] => Some []
  | b0 :: r0 =>
      if (b0 <? 0x80)%N then cons b0 <$> decode_units r0
      else
        match r0 with
        | [] => None
        | b1 :: r1 =>
            if within 0xC2 0xDF b0 then
              if is_cont b1
              then cons ((b0 - 0xC0) * 64 + (b1 - 0x80))%N <$> decode_units r1
              else None
            else
              match r1 with
              | [] => None
              | b2 :: r2 =>
                  if within 0xE0 0xEF b0 then
                    if within (if (b0 =? 0xE0)%N then 0xA0 else 0x80)
                              (if (b0 =? 0xED)%N then 0x9F else 0xBF) b1
                       && is_cont b2
                    then cons ((b0 - 0xE0) * 4096 + (b1 - 0x80) * 64
                               + (b2 - 0x80))%N <$> decode_units r2
                    else None
                  else
                    match r2 with
                    | [] => None
                    | b3 :: r3 =>
                        if within 0xF0 0xF4 b0
                           && within (if (b0 =? 0xF0)%N then 0x90 else 0x80)
                                     (if (b0 =? 0xF4)%N then 0x8F else 0xBF) b1
                           && is_cont b2 && is_cont b3
                        then cons ((b0 - 0xF0) * 262144 + (b1 - 0x80) * 4096
                                   + (b2 - 0x80) * 64 + (b3 - 0x80))%N
                               <$> decode_units r3
                        else None
                    end
              end
        end
  end.

(** [bs.decode('utf-8')] *)
Definition decode_utf8 (bs : bytes) : result pystr :=
  of_option UnicodeDecodeError (decode_units (map Byte.to_N bs)).

(** ** String methods *)

(** [s.ljust(n, '\0')] *)
Definition ljust0 (n : nat) (s : pystr) : pystr :=
  s ++ replicate (n - length s) 0%N.

Fixpoint rstrip0 (s : pystr) : pystr :=
  match s with
  | [] => []
  | c :: s' =>
      match rstrip0 s' with
      | [] => if (c =? 0)%N then [] else [c]
      | t => c :: t
      end
  end.

Definition is_digit (c : N) : bool := within 48 57 c.
Definition is_letter (c : N) : bool := within 65 90 c || within 97 122 c.
Definition is_alnum (c : N) : bool := is_letter c || is_digit c.

(** The code points [str.strip] and [str.split] treat as white space. *)
Definition is_space (c : N) : bool :=
  within 0x09 0x0D c || within 0x1C 0x20 c || (c =? 0x85)%N || (c =? 0xA0)%N
  || (c =? 0x1680)%N || within 0x2000 0x200A c || within 0x2028 0x2029 c
  || (c =? 0x202F)%N || (c =? 0x205F)%N || (c =? 0x3000)%N.

Fixpoint lstrip (s : pystr) : pystr :=
  match s with
  | c :: s' => if is_space c then lstrip s' else s
  | [] => []
  end.

Definition strip (s : pystr) : pystr := rev (lstrip (rev (lstrip s))).

(** Digits of a base-10 literal: single underscores may separate digits.
    [seen] tells whether the previous character was a digit. Only the ASCII
    digits are recognised; Python also reads the decimal digits of other
    scripts, with the same values. *)
Fixpoint int_digits (acc : Z) (seen : bool) (s : pystr) : option Z :=
  match s with
  | [] => if seen then Some acc else None
  | c :: s' =>
      if is_digit c then int_digits (10 * acc + (Z.of_N c - 48)) true s'
      else if (c =? 95)%N && seen then int_digits acc false s'
      else None
  end.

(** The white space [int] skips around a literal: that of [str.strip] without
    the separators U+001C..U+001F. [int] leaves the ASCII characters as they
    are and skips those of C's [isspace]; it reads the other white space as a
    blank. *)
Definition is_int_space (c : N) : bool := is_space c && negb (within 0x1C 0x1F c).

Fixpoint int_lstrip (s : pystr) : pystr :=
  match s with
  | c :: s' => if is_int_space c then int_lstrip s' else s
  | [] => []
  end.

Definition int_strip (s : pystr) : pystr := rev (int_lstrip (rev (int_lstrip s))).

(** [int(s)]; [None] stands for [ValueError]. The limit on the number of
    digits (4300 by default, where the interpreter has one) is not part of
    this definition: the statements about long literals carry it as a
    hypothesis. *)
Definition py_int (s : pystr) : option Z :=
  match int_strip s with
  | [] => None
  | c :: r =>
      if (c =? 45)%N then Z.opp <$> int_digits 0 false r
      else if (c =? 43)%N then int_digits 0 false r
      else int_digits 0 false (c :: r)
  end.

Fixpoint uint_chars (d : Decimal.uint) : pystr :=
  match d with
  | Decimal.Nil => []
  | Decimal.D0 d => 48%N :: uint_chars d
  | Decimal.D1 d => 49%N :: uint_chars d
  | Decimal.D2 d => 50%N :: uint_chars d
  | Decimal.D3 d => 51%N :: uint_chars d
  | Decimal.D4 d => 52%N :: uint_chars d
  | Decimal.D5 d => 53%N :: uint_chars d
  | Decimal.D6 d => 54%N :: uint_chars d
  | Decimal.D7 d => 55%N :: uint_chars d
  | Decimal.D8 d => 56%N :: uint_chars d
  | Decimal.D9 d => 57%N :: uint_chars d
  end.

(** [str(z)] for an integer. *)
Definition py_str (z : Z) : pystr :=
  match Z.to_int z with
  | Decimal.Pos d => uint_chars d
  | Decimal.Neg d => 45%N :: uint_chars d
  end.

Definition pystr_eqb (s t : pystr) : bool := bool_decide (s = t).

Local Close Scope Z_scope.

(** ** System constants and the catalog *)

Definition PAGE_SIZE : nat := 4096.
Definition MAX_RECORDS_PER_PAGE : nat := 10.
Definition MAX_PAGES_PER_FILE : nat := 100.
Definition MAX_FIELDS_PER_TYPE : Z := 10%Z.
Definition MAX_TYPE_NAME_LENGTH : nat := 12.
Definition MAX_FIELD_NAME_LENGTH : nat := 20.
Definition MAX_STRING_LENGTH : nat := 100.

Definition t_int : pystr := lit "int".
Definition t_str : pystr := lit "str".

Record type_info := {
  fields : list (pystr * pystr);
  primary_key_order : Z;
  record_size : nat
}.

(** A Python dict keeps insertion order; assigning to a present key keeps
    its place. *)
Fixpoint dict_get {V} (d : list (pystr * V)) (k : pystr) : option V :=
  match d with
  | [] => None
  | (k', v) :: d' => if pystr_eqb k' k then Some v else dict_get d' k
  end.

Fixpoint dict_set {V} (d : list (pystr * V)) (k : pystr) (v : V) : list (pystr * V) :=
  match d with
  | [] => [(k, v)]
  | (k', v') :: d' =>
      if pystr_eqb k' k then (k', v) :: d' else (k', v') :: dict_set d' k v
  end.

(** The archive object together with the files it reads and writes. *)
Record DuneArchive := {
  catalog : list (pystr * type_info);
  files : gmap pystr bytes
}.

Definition catalog_file : pystr := lit "catalog.dat".

Definition _calculate_record_size (fields : list (pystr * pystr)) : nat :=
  fold_left
    (fun size '(field_name, field_type) =>
       if pystr_eqb field_type t_int then size + 4
       else if pystr_eqb field_type t_str then size + MAX_STRING_LENGTH
       else size)
    fields 1.

(** The [for i in range(num_fields)] loop of [_load_catalog]. *)
Fixpoint read_fields (n : nat) (data : bytes) (offset : nat)
    (fields : list (pystr * pystr)) : result (list (pystr * pystr) * nat) :=
  match n with
  | O => Ok (fields, offset)
  | S n' =>
      field_name_len ← unpack_I (slice data offset 4);
      let offset := (offset + 4) in
      field_name ← decode_utf8 (slice data offset (Z.to_nat field_name_len));
      let offset := (offset + Z.to_nat field_name_len) in
      field_type_len ← unpack_I (slice data offset 4);
      let offset := (offset + 4) in
      field_type ← decode_utf8 (slice data offset (Z.to_nat field_type_len));
      let offset := (offset + Z.to_nat field_type_len) in
      read_fields n' data offset (fields ++ [(field_name, field_type)])
  end.

(** One pass through the body of the [while offset < len(data)] loop, up to
    the assignment into the catalog. *)
Definition read_type (data : bytes) (offset : nat)
  : result (pystr * type_info * nat) :=
  type_name_len ← unpack_I (slice data offset 4);
  let offset := (offset + 4) in
  type_name ← decode_utf8 (slice data offset (Z.to_nat type_name_len));
  let offset := (offset + Z.to_nat type_name_len) in
  num_fields ← unpack_I (slice data offset 4);
  let offset := (offset + 4) in
  primary_key_order ← unpack_I (slice data offset 4);
  let offset := (offset + 4) in
  '(fields, offset) ← read_fields (Z.to_nat num_fields) data offset [];
  Ok (type_name,
      {| fields := fields;
         primary_key_order := primary_key_order;
         record_size := _calculate_record_size fields |},
      offset).

(** The [while] loop; every pass that does not raise moves [offset] forward
    by at least twelve bytes, so [length data] passes are always enough.
    An exception leaves the loop through [except: pass], with the entries
    assigned so far still in the catalog. *)
Fixpoint load_types (fuel : nat) (data : bytes) (offset : nat)
    (cat : list (pystr * type_info)) : list (pystr * type_info) :=
  match fuel with
  | O => cat
  | S fuel' =>
      if offset <? length data then
        match read_type data offset with
        | Ok (type_name, ti, offset') =>
            load_types fuel' data offset' (dict_set cat type_name ti)
        | Raise _ => cat
        end
      else cat
  end.

Definition _load_catalog (a : DuneArchive) : DuneArchive :=
  match files a !! catalog_file with
  | Some data =>
      {| catalog := load_types (length data) data 0 (catalog a);
         files := files a |}
  | None => a
  end.

(** [DuneArchive()] over a given file system. *)
Definition init (fs : gmap pystr bytes) : DuneArchive :=
  _load_catalog {| catalog := []; files := fs |}.

(** The [f.write] calls of [_save_catalog] for one type, in order. Each
    element is the argument of one call; the encodings that the code
    computes before a group of calls are computed with the first of them. *)
Definition field_writes (f : pystr * pystr) : list (result bytes) :=
  let '(field_name, field_type) := f in
  [ (nb ← encode_utf8 field_name; _ ← encode_utf8 field_type;
     pack_I (Z.of_nat (length nb)));
    encode_utf8 field_name;
    (tb ← encode_utf8 field_type; pack_I (Z.of_nat (length tb)));
    encode_utf8 field_type ].

Definition type_writes (e : pystr * type_info) : list (result bytes) :=
  let '(type_name, ti) := e in
  [ (nb ← encode_utf8 type_name; pack_I (Z.of_nat (length nb)));
    encode_utf8 type_name;
    pack_I (Z.of_nat (length (fields ti)));
    pack_I (primary_key_order ti) ]
  ++ flat_map field_writes (fields ti).

(** The file receives the writes that precede the first exception. *)
Fixpoint run_writes (ws : list (result bytes)) (out : bytes) : result unit * bytes :=
  match ws with
  | [] => (Ok tt, out)
  | Ok b :: ws' => run_writes ws' (out ++ b)
  | Raise e :: _ => (Raise e, out)
  end.

Definition _save_catalog (a : DuneArchive) : result unit * DuneArchive :=
  let '(r, out) := run_writes (flat_map type_writes (catalog a)) [] in
  (r, {| catalog := catalog a; files := <[catalog_file := out]> (files a) |}).

(** ** Validators *)

(** What a pattern that ends in [$] leaves unmatched: [$] matches at the
    end of the string and also just before a line feed that ends it. *)
Definition before_dollar (s : pystr) : pystr :=
  match rev s with
  | 10%N :: r => rev r
  | _ => s
  end.

(** [re.match(r'^(?=.*[a-zA-Z])[a-zA-Z0-9]+$', name)] *)
Definition _is_valid_name (name : pystr) : bool :=
  let body := before_dollar name in
  negb (bool_decide (body = [])) && forallb is_alnum body && existsb is_letter body.

(** [re.match(r'^[a-zA-Z0-9]+$', value)] *)
Definition _is_valid_string_value (value : pystr) : bool :=
  let body := before_dollar value in
  negb (bool_decide (body = [])) && forallb is_alnum body.

Definition _is_valid_int_value (value : pystr) : bool :=
  match py_int value with
  | Some _ => true
  | None => false
  end.

(** ** create_type *)

(** The loop over [range(0, len(field_specs), 2)]. [Ok None] is a
    [return False] from inside the loop; a last name without a kind raises
    at [field_specs[i + 1]], before that name is examined. *)
Fixpoint parse_field_specs (field_specs : list pystr)
    (fields : list (pystr * pystr)) : result (option (list (pystr * pystr))) :=
  match field_specs with
  | [] => Ok (Some fields)
  | [_] => Raise IndexError
  | field_name :: field_type :: rest =>
      if negb (_is_valid_name field_name) then Ok None
      else if MAX_FIELD_NAME_LENGTH <? length field_name then Ok None
      else if negb (pystr_eqb field_type t_int || pystr_eqb field_type t_str)
      then Ok None
      else parse_field_specs rest (fields ++ [(field_name, field_type)])
  end.

Definition create_type (a : DuneArchive) (type_name : pystr) (num_fields : Z)
    (primary_key_order : Z) (field_specs : list pystr)
  : result bool * DuneArchive :=
  if bool_decide (is_Some (dict_get (catalog a) type_name)) then (Ok false, a)
  else if negb (_is_valid_name type_name) then (Ok false, a)
  else if MAX_TYPE_NAME_LENGTH <? length type_name then (Ok false, a)
  else if (MAX_FIELDS_PER_TYPE <? num_fields)%Z then (Ok false, a)
  else if ((primary_key_order <? 1) || (num_fields <? primary_key_order))%Z
  then (Ok false, a)
  else
    match parse_field_specs field_specs [] with
    | Raise e => (Raise e, a)
    | Ok None => (Ok false, a)
    | Ok (Some fields) =>
        if negb (Z.of_nat (length fields) =? num_fields)%Z then (Ok false, a)
        else
          let ti := {| fields := fields;
                       primary_key_order := primary_key_order;
                       record_size := _calculate_record_size fields |} in
          let a1 := {| catalog := dict_set (catalog a) type_name ti;
                       files := files a |} in
          match _save_catalog a1 with
          | (Ok _, a2) => (Ok true, a2)
          | (Raise e, a2) => (Raise e, a2)
          end
    end.

(** ** Record codec *)

Definition type_of (a : DuneArchive) (type_name : pystr) : result type_info :=
  of_option KeyError (dict_get (catalog a) type_name).

(** The loop over [enumerate(fields)]; [i] is the running index. *)
Fixpoint serialize_fields (fields : list (pystr * pystr)) (i : nat)
    (values : list pystr) : result bytes :=
  match fields with
  | [] => Ok []
  | (field_name, field_type) :: rest =>
      if pystr_eqb field_type t_int then
        v ← of_option IndexError (values !! i);
        value ← of_option ValueError (py_int v);
        b ← pack_i value;
        bs ← serialize_fields rest (S i) values;
        Ok (b ++ bs)
      else if pystr_eqb field_type t_str then
        v ← of_option IndexError (values !! i);
        let value := take (MAX_STRING_LENGTH - 1) v in
        let padded_value := ljust0 MAX_STRING_LENGTH value in
        b ← encode_utf8 padded_value;
        bs ← serialize_fields rest (S i) values;
        Ok (b ++ bs)
      else serialize_fields rest (S i) values
  end.

Definition _serialize_record (a : DuneArchive) (type_name : pystr)
    (values : list pystr) : result bytes :=
  ti ← type_of a type_name;
  flag ← pack_B 1;
  bs ← serialize_fields (fields ti) 0 values;
  Ok (flag ++ bs).

Fixpoint deserialize_fields (fields : list (pystr * pystr)) (record_data : bytes)
    (offset : nat) : result (list pystr) :=
  match fields with
  | [] => Ok []
  | (field_name, field_type) :: rest =>
      if pystr_eqb field_type t_int then
        value ← unpack_i (slice record_data offset 4);
        vs ← deserialize_fields rest record_data (offset + 4);
        Ok (py_str value :: vs)
      else if pystr_eqb field_type t_str then
        let value_bytes := slice record_data offset MAX_STRING_LENGTH in
        s ← decode_utf8 value_bytes;
        vs ← deserialize_fields rest record_data (offset + MAX_STRING_LENGTH);
        Ok (rstrip0 s :: vs)
      else deserialize_fields rest record_data offset
  end.

(** [Ok None] is the [return None] of a record whose validity flag is 0. *)
Definition _deserialize_record (a : DuneArchive) (type_name : pystr)
    (record_data : bytes) : result (option (list pystr)) :=
  ti ← type_of a type_name;
  validity ← unpack_B (slice record_data 0 1);
  if (validity =? 0)%Z then Ok None
  else vs ← deserialize_fields (fields ti) record_data 1; Ok (Some vs).

(** ** Page store *)

Definition _get_data_file_path (type_name : pystr) : pystr :=
  type_name ++ lit ".dat".

(** The contents of the data file of a type, if the file exists. *)
Definition data_file (a : DuneArchive) (type_name : pystr) : option bytes :=
  files a !! _get_data_file_path type_name.

Definition _create_page_header (page_number num_records bitmap : Z) : result bytes :=
  b1 ← pack_I page_number;
  b2 ← pack_I num_records;
  b3 ← pack_I bitmap;
  Ok (b1 ++ b2 ++ b3).

Definition _parse_page_header (header_data : bytes) : result (Z * Z * Z) :=
  let h := slice header_data 0 12 in
  if length h =? 12 then
    Ok (le_value (slice h 0 4), le_value (slice h 4 4), le_value (slice h 8 4))
  else Raise StructError.

Definition _load_page (a : DuneArchive) (type_name : pystr) (page_number : nat)
  : result (option bytes * Z * Z) :=
  match data_file a type_name with
  | None => Ok (None, 0%Z, 0%Z)
  | Some f =>
      let page_offset := page_number * PAGE_SIZE in
      let page_data := slice f page_offset PAGE_SIZE in
      if length page_data <? 12 then Ok (None, 0%Z, 0%Z)
      else
        '(page_num, num_records, bitmap) ← _parse_page_header page_data;
        Ok (Some page_data, num_records, bitmap)
  end.

Definition zeros (n : nat) : bytes := replicate n x00.

Definition _save_page (a : DuneArchive) (type_name : pystr) (page_number : nat)
    (page_data : bytes) : DuneArchive :=
  let file_path := _get_data_file_path type_name in
  let required_size := (page_number + 1) * PAGE_SIZE in
  let f :=
    match data_file a type_name with
    | None => zeros required_size
    | Some f => f ++ zeros (required_size - length f)
    end in
  let page_offset := page_number * PAGE_SIZE in
  {| catalog := catalog a;
     files := <[file_path :=
                  take page_offset f ++ page_data
                  ++ drop (page_offset + length page_data) f]> (files a) |}.

Definition _find_primary_key_value (a : DuneArchive) (type_name : pystr)
    (values : list pystr) : result pystr :=
  ti ← type_of a type_name;
  py_index values (primary_key_order ti - 1)%Z.

(** ** Search *)

(** [bitmap & (1 << slot)] as a truth value. *)
Definition bit_set (bitmap : Z) (slot : nat) : bool :=
  negb (Z.land bitmap (Z.shiftl 1 (Z.of_nat slot)) =? 0)%Z.

(** [values and values[primary_key_index] == primary_key] *)
Definition key_matches (values : option (list pystr)) (primary_key_index : Z)
    (primary_key : pystr) : result bool :=
  match values with
  | None | Some [] => Ok false
  | Some vs => v ← py_index vs primary_key_index; Ok (pystr_eqb v primary_key)
  end.

(** The [for slot in range(...)] loop of the search; [Ok None] means that
    the loop ran to its end. *)
Fixpoint search_slots (a : DuneArchive) (type_name : pystr) (ti : type_info)
    (page_data : bytes) (bitmap : Z) (primary_key : pystr) (slots : list nat)
  : result (option (list pystr)) :=
  match slots with
  | [] => Ok None
  | slot :: rest =>
      if bit_set bitmap slot then
        let record_offset := 12 + slot * record_size ti in
        let record_data := slice page_data record_offset (record_size ti) in
        values ← _deserialize_record a type_name record_data;
        hit ← key_matches values (primary_key_order ti - 1)%Z primary_key;
        if (hit : bool) then Ok values
        else search_slots a type_name ti page_data bitmap primary_key rest
      else search_slots a type_name ti page_data bitmap primary_key rest
  end.

(** The [while page_number < MAX_PAGES_PER_FILE] loop, with [n] the number
    of pages still to visit. *)
Fixpoint search_pages (n : nat) (a : DuneArchive) (type_name : pystr)
    (ti : type_info) (primary_key : pystr) (page_number : nat)
  : result (option (list pystr)) :=
  match n with
  | O => Ok None
  | S n' =>
      '(page_data, num_records, bitmap) ← _load_page a type_name page_number;
      match page_data with
      | None => search_pages n' a type_name ti primary_key (S page_number)
      | Some page_data =>
          if (num_records =? 0)%Z
          then search_pages n' a type_name ti primary_key (S page_number)
          else
            found ← search_slots a type_name ti page_data bitmap primary_key
                      (seq 0 MAX_RECORDS_PER_PAGE);
            match (found : option (list pystr)) with
            | Some values => Ok (Some values)
            | None => search_pages n' a type_name ti primary_key (S page_number)
            end
      end
  end.

Definition _search_record_internal (a : DuneArchive) (type_name : pystr)
    (primary_key : pystr) : result (option (list pystr)) :=
  match dict_get (catalog a) type_name with
  | None => Ok None
  | Some ti => search_pages MAX_PAGES_PER_FILE a type_name ti primary_key 0
  end.

Definition search_record (a : DuneArchive) (type_name : pystr)
    (primary_key : pystr) : result (option (list pystr)) :=
  _search_record_internal a type_name primary_key.

(** ** create_record *)

(** The validation loop over [zip(type_info['fields'], values)]. *)
Definition values_valid (fields : list (pystr * pystr)) (values : list pystr) : bool :=
  forallb
    (fun '((field_name, field_type), value) =>
       if pystr_eqb field_type t_int then _is_valid_int_value value
       else if pystr_eqb field_type t_str then _is_valid_string_value value
       else true)
    (zip fields values).

(** The page the allocation loop works on: the one on disk, or a fresh
    zeroed buffer with its header when [_load_page] finds none. *)
Definition fetch_page (a : DuneArchive) (type_name : pystr) (page_number : nat)
  : result (bytes * Z * Z) :=
  '(page_data, num_records, bitmap) ← _load_page a type_name page_number;
  match page_data with
  | None =>
      header ← _create_page_header (Z.of_nat page_number) 0 0;
      Ok (slice_assign (zeros PAGE_SIZE) 0 12 header, 0%Z, 0%Z)
  | Some page_data => Ok (page_data, num_records, bitmap)
  end.

Definition find_free_slot (bitmap : Z) : option nat :=
  find (fun slot => negb (bit_set bitmap slot)) (seq 0 MAX_RECORDS_PER_PAGE).

(** The [while True] loop, with [n] the number of pages still to try: the
    loop returns [False] once [page_number] reaches [MAX_PAGES_PER_FILE]. *)
Fixpoint place_record (n : nat) (a : DuneArchive) (type_name : pystr)
    (ti : type_info) (record_data : bytes) (page_number : nat)
  : result bool * DuneArchive :=
  match n with
  | O => (Ok false, a)
  | S n' =>
      match fetch_page a type_name page_number with
      | Raise e => (Raise e, a)
      | Ok (page_data, num_records, bitmap) =>
          match find_free_slot bitmap with
          | Some free_slot =>
              let record_offset := 12 + free_slot * record_size ti in
              let page_data :=
                slice_assign page_data record_offset
                  (record_offset + length record_data) record_data in
              let bitmap := Z.lor bitmap (Z.shiftl 1 (Z.of_nat free_slot)) in
              let num_records := (num_records + 1)%Z in
              match _create_page_header (Z.of_nat page_number) num_records bitmap with
              | Raise e => (Raise e, a)
              | Ok header =>
                  (Ok true,
                   _save_page a type_name page_number
                     (slice_assign page_data 0 12 header))
              end
          | None => place_record n' a type_name ti record_data (S page_number)
          end
      end
  end.

Definition create_record (a : DuneArchive) (type_name : pystr)
    (values : list pystr) : result bool * DuneArchive :=
  match dict_get (catalog a) type_name with
  | None => (Ok false, a)
  | Some ti =>
      if negb (length values =? length (fields ti)) then (Ok false, a)
      else if negb (values_valid (fields ti) values) then (Ok false, a)
      else
        match _find_primary_key_value a type_name values with
        | Raise e => (Raise e, a)
        | Ok primary_key_value =>
            match _search_record_internal a type_name primary_key_value with
            | Raise e => (Raise e, a)
            | Ok (Some _) => (Ok false, a)
            | Ok None =>
                match _serialize_record a type_name values with
                | Raise e => (Raise e, a)
                | Ok record_data =>
                    place_record MAX_PAGES_PER_FILE a type_name ti record_data 0
                end
            end
        end
  end.

(** ** delete_record *)

(** The slot loop of [delete_record]; [Ok (Some a')] is the [return True]
    after the page has been saved. *)
Fixpoint delete_slots (a : DuneArchive) (type_name : pystr) (ti : type_info)
    (page_number : nat) (page_data : bytes) (num_records bitmap : Z)
    (primary_key : pystr) (slots : list nat) : result (option DuneArchive) :=
  match slots with
  | [] => Ok None
  | slot :: rest =>
      if bit_set bitmap slot then
        let record_offset := 12 + slot * record_size ti in
        let record_data := slice page_data record_offset (record_size ti) in
        values ← _deserialize_record a type_name record_data;
        hit ← key_matches values (primary_key_order ti - 1)%Z primary_key;
        if (hit : bool) then
          page_data ← index_assign page_data record_offset x00;
          let bitmap := Z.land bitmap (Z.lnot (Z.shiftl 1 (Z.of_nat slot))) in
          let num_records := (num_records - 1)%Z in
          header ← _create_page_header (Z.of_nat page_number) num_records bitmap;
          Ok (Some (_save_page a type_name page_number
                      (slice_assign page_data 0 12 header)))
        else delete_slots a type_name ti page_number page_data num_records bitmap
               primary_key rest
      else delete_slots a type_name ti page_number page_data num_records bitmap
             primary_key rest
  end.

Fixpoint delete_pages (n : nat) (a : DuneArchive) (type_name : pystr)
    (ti : type_info) (primary_key : pystr) (page_number : nat)
  : result bool * DuneArchive :=
  match n with
  | O => (Ok false, a)
  | S n' =>
      match _load_page a type_name page_number with
      | Raise e => (Raise e, a)
      | Ok (None, _, _) =>
          delete_pages n' a type_name ti primary_key (S page_number)
      | Ok (Some page_data, num_records, bitmap) =>
          if (num_records =? 0)%Z
          then delete_pages n' a type_name ti primary_key (S page_number)
          else
            match delete_slots a type_name ti page_number page_data num_records
                    bitmap primary_key (seq 0 MAX_RECORDS_PER_PAGE) with
            | Raise e => (Raise e, a)
            | Ok (Some a') => (Ok true, a')
            | Ok None =>
                delete_pages n' a type_name ti primary_key (S page_number)
            end
      end
  end.

Definition delete_record (a : DuneArchive) (type_name : pystr)
    (primary_key : pystr) : result bool * DuneArchive :=
  match dict_get (catalog a) type_name with
  | None => (Ok false, a)
  | Some ti => delete_pages MAX_PAGES_PER_FILE a type_name ti primary_key 0
  end.

(** ** Sequences of record operations *)

Inductive op :=
  | CreateRecord (type_name : pystr) (values : list pystr)
  | DeleteRecord (type_name : pystr) (primary_key : pystr).

Definition step (a : DuneArchive) (o : op) : result bool * DuneArchive :=
  match o with
  | CreateRecord type_name values => create_record a type_name values
  | DeleteRecord type_name primary_key => delete_record a type_name primary_key
  end.

(** The archive after a sequence of calls; a call that raises leaves the
    archive as it was, and the sequence goes on. *)
Definition run (a : DuneArchive) (ops : list op) : DuneArchive :=
  fold_left (fun a o => (step a o).2) ops a.

(** * Specification-level definitions *)

Definition is_ascii (c : N) : bool := (c <? 128)%N.

Definition is_text (c : N) : bool := is_ascii c && negb (c =? 0)%N.

(** ** Reading back a printed integer *)

Fixpoint uint_value (acc : Z) (d : Decimal.uint) : Z :=
  match d with
  | Decimal.Nil => acc
  | Decimal.D0 d => uint_value (10 * acc) d
  | Decimal.D1 d => uint_value (10 * acc + 1) d
  | Decimal.D2 d => uint_value (10 * acc + 2) d
  | Decimal.D3 d => uint_value (10 * acc + 3) d
  | Decimal.D4 d => uint_value (10 * acc + 4) d
  | Decimal.D5 d => uint_value (10 * acc + 5) d
  | Decimal.D6 d => uint_value (10 * acc + 6) d
  | Decimal.D7 d => uint_value (10 * acc + 7) d
  | Decimal.D8 d => uint_value (10 * acc + 8) d
  | Decimal.D9 d => uint_value (10 * acc + 9) d
  end.

(** ** The record codec *)

Fixpoint fields_size (fields : list (pystr * pystr)) : nat :=
  match fields with
  | [] => 0
  | (_, field_type) :: rest =>
      (if pystr_eqb field_type t_int then 4
       else if pystr_eqb field_type t_str then MAX_STRING_LENGTH else 0)
      + fields_size rest
  end.

(** What a stored record reads back as: integers in their decimal form,
    text cut to 99 characters. *)
Definition stored_value (field_type v : pystr) : pystr :=
  if pystr_eqb field_type t_int then
    match py_int v with Some z => py_str z | None => v end
  else take (MAX_STRING_LENGTH - 1) v.

Fixpoint stored_values (fields : list (pystr * pystr)) (values : list pystr)
  : list pystr :=
  match fields, values with
  | (_, field_type) :: fs, v :: vs =>
      if pystr_eqb field_type t_int || pystr_eqb field_type t_str
      then stored_value field_type v :: stored_values fs vs
      else stored_values fs vs
  | _, _ => []
  end.

Definition int_in_range (v : pystr) : bool :=
  match py_int v with
  | Some z => ((- 2 ^ 31 <=? z) && (z <? 2 ^ 31))%Z
  | None => false
  end.

(** Values that [_serialize_record] can pack: the integer fields fit the
    signed 32-bit format [i]. *)
Definition values_packable (fields : list (pystr * pystr)) (values : list pystr) : bool :=
  forallb
    (fun '((field_name, field_type), value) =>
       if pystr_eqb field_type t_int then int_in_range value else true)
    (zip fields values).

(** *** Values in stored form *)

Definition canonical_value (field_type v : pystr) : bool :=
  if pystr_eqb field_type t_int then
    match py_int v with
    | Some z => ((- 2 ^ 31 <=? z) && (z <? 2 ^ 31))%Z && pystr_eqb v (py_str z)
    | None => false
    end
  else if pystr_eqb field_type t_str then
    _is_valid_string_value v && (length v <=? MAX_STRING_LENGTH - 1)
  else false.

Fixpoint canonical_values (fields : list (pystr * pystr)) (values : list pystr)
  : bool :=
  match fields, values with
  | [], [] => true
  | (_, field_type) :: fs, v :: vs =>
      canonical_value field_type v && canonical_values fs vs
  | _, _ => false
  end.

(** C2 as the specification words it: decoding an encoded record gives
    back the values, for all values the field validators accept. *)
Definition codec_exact_on_validated : Prop :=
  forall a type_name ti values rec,
    dict_get (catalog a) type_name = Some ti ->
    length values = length (fields ti) ->
    values_valid (fields ti) values = true ->
    Forall (fun v => length v <= MAX_STRING_LENGTH - 1) values ->
    _serialize_record a type_name values = Ok rec ->
    _deserialize_record a type_name rec = Ok (Some values).

Definition one_int_archive : DuneArchive :=
  (create_type (init ∅) (lit "T") 1 1 [lit "id"; lit "int"]).2.

Definition two_field_archive : DuneArchive :=
  (create_type (init ∅) (lit "Person") 2 1
     [lit "name"; lit "str"; lit "age"; lit "int"]).2.

(** ** create_type *)

(** Precondition 5 of [create_type]: the list is made of (name, kind)
    pairs, every name is valid and at most 20 characters long, every kind
    is ["int"] or ["str"]. *)
Fixpoint field_pairs_ok (field_specs : list pystr) : bool :=
  match field_specs with
  | [] => true
  | [_] => false
  | field_name :: field_type :: rest =>
      _is_valid_name field_name
      && (length field_name <=? MAX_FIELD_NAME_LENGTH)
      && (pystr_eqb field_type t_int || pystr_eqb field_type t_str)
      && field_pairs_ok rest
  end.

(** The five preconditions of [create_type], with the name-validity rule
    as [_is_valid_name] decides it. *)
Definition create_type_preconditions (a : DuneArchive) (type_name : pystr)
    (num_fields primary_key_order : Z) (field_specs : list pystr) : bool :=
  negb (bool_decide (is_Some (dict_get (catalog a) type_name)))
  && _is_valid_name type_name
  && (length type_name <=? MAX_TYPE_NAME_LENGTH)
  && (num_fields <=? MAX_FIELDS_PER_TYPE)%Z
  && ((1 <=? primary_key_order) && (primary_key_order <=? num_fields))%Z
  && ((Z.of_nat (length field_specs) =? 2 * num_fields)%Z
      && field_pairs_ok field_specs).


(** ** The catalog file *)

(** What [_save_catalog] leaves in the catalog file. *)
Definition catalog_bytes (cat : list (pystr * type_info)) : bytes :=
  (run_writes (flat_map type_writes cat) []).2.

(** Whether the load loop is left through its [except] clause. *)
Fixpoint load_raises (fuel : nat) (data : bytes) (offset : nat) : bool :=
  match fuel with
  | O => false
  | S fuel' =>
      if offset <? length data then
        match read_type data offset with
        | Ok (_, _, offset') => load_raises fuel' data offset'
        | Raise _ => true
        end
      else false
  end.

Definition malformed (data : bytes) : bool := load_raises (length data) data 0.

(** C3 as the specification words it: a malformed catalog file loads as
    the empty catalog. *)
Definition load_discards_everything : Prop :=
  forall (fs : gmap pystr bytes) data,
    fs !! catalog_file = Some data ->
    malformed data = true ->
    catalog (init fs) = [].

(** The layout of one field and of one type in the catalog file, for
    ASCII names. *)
Definition field_bytes (f : pystr * pystr) : bytes :=
  le_bytes 4 (Z.of_nat (length f.1)) ++ map byte_of_N f.1
  ++ le_bytes 4 (Z.of_nat (length f.2)) ++ map byte_of_N f.2.

Definition type_bytes (e : pystr * type_info) : bytes :=
  le_bytes 4 (Z.of_nat (length e.1)) ++ map byte_of_N e.1
  ++ le_bytes 4 (Z.of_nat (length (fields e.2)))
  ++ le_bytes 4 (primary_key_order e.2)
  ++ flat_map field_bytes (fields e.2).

Definition short_ascii (s : pystr) : bool :=
  forallb is_ascii s && (Z.of_nat (length s) <? 2 ^ 32)%Z.

(** A catalog entry as [create_type] and [_load_catalog] build them, with
    ASCII names: the counts fit 32 bits and the record size is the one
    computed from the fields. *)
Definition type_storable (e : pystr * type_info) : bool :=
  short_ascii e.1
  && forallb (fun f => short_ascii f.1 && short_ascii f.2) (fields e.2)
  && (Z.of_nat (length (fields e.2)) <? 2 ^ 32)%Z
  && ((0 <=? primary_key_order e.2) && (primary_key_order e.2 <? 2 ^ 32))%Z
  && (record_size e.2 =? _calculate_record_size (fields e.2)).

Definition catalog_storable (cat : list (pystr * type_info)) : bool :=
  bool_decide (NoDup (map fst cat)) && forallb type_storable cat.

(** Moving the offset of a read by [k] bytes. *)
Definition shift_result {A} (k : nat) (r : result (A * nat)) : result (A * nat) :=
  match r with
  | Ok (x, o) => Ok (x, k + o)
  | Raise e => Raise e
  end.

(** ** Search, as section 4.4 describes it *)

(** The decoded records of one page, slot by slot: nothing for a page that
    is absent or whose record count is 0, otherwise one entry for every
    slot among the ten whose bitmap bit is set. *)
Definition page_records (a : DuneArchive) (type_name : pystr) (ti : type_info)
    (page_number : nat) : list (result (option (list pystr))) :=
  match _load_page a type_name page_number with
  | Raise e => [Raise e]
  | Ok (None, _, _) => []
  | Ok (Some page_data, num_records, bitmap) =>
      if (num_records =? 0)%Z then []
      else
        flat_map
          (fun slot =>
             if bit_set bitmap slot
             then [_deserialize_record a type_name
                     (slice page_data (12 + slot * record_size ti) (record_size ti))]
             else [])
          (seq 0 MAX_RECORDS_PER_PAGE)
  end.

(** All of them, pages 0 to 99 in order. *)
Definition live_records (a : DuneArchive) (type_name : pystr) (ti : type_info)
  : list (result (option (list pystr))) :=
  flat_map (page_records a type_name ti) (seq 0 MAX_PAGES_PER_FILE).

(** The first record of the list whose primary-key field is the query key;
    a record that fails to decode before any match raises. *)
Fixpoint first_match (records : list (result (option (list pystr))))
    (primary_key_index : Z) (primary_key : pystr)
  : result (option (list pystr)) :=
  match records with
  | [] => Ok None
  | r :: rest =>
      values ← r;
      hit ← key_matches values primary_key_index primary_key;
      if (hit : bool) then Ok values
      else first_match rest primary_key_index primary_key
  end.

(** ** A run that stores the key 7 twice *)

Definition after_7 : DuneArchive :=
  (create_record one_int_archive (lit "T") [lit "7"]).2.

Definition after_07 : DuneArchive :=
  (create_record after_7 (lit "T") [lit "07"]).2.

Definition after_delete_7 : DuneArchive :=
  (delete_record after_07 (lit "T") (lit "7")).2.

(** ** A file at full capacity *)

(** The page is on disk and its ten bitmap bits are set. *)
Definition page_is_full (a : DuneArchive) (type_name : pystr) (page_number : nat)
  : bool :=
  match _load_page a type_name page_number with
  | Ok (Some _, _, bitmap) => forallb (bit_set bitmap) (seq 0 MAX_RECORDS_PER_PAGE)
  | _ => false
  end.

Definition file_is_full (a : DuneArchive) (type_name : pystr) : bool :=
  forallb (page_is_full a type_name) (seq 0 MAX_PAGES_PER_FILE).




(** A data file of 100 pages, each with ten records of one integer field:
    slot [s] of page [p] holds the key [10 * p + s]. *)
Definition full_page (p : nat) : bytes :=
  le_bytes 4 (Z.of_nat p) ++ le_bytes 4 10 ++ le_bytes 4 1023
  ++ flat_map (fun s => x01 :: le_bytes 4 (Z.of_nat (10 * p + s))) (seq 0 10)
  ++ zeros (PAGE_SIZE - 12 - 50).


(** ** Pages of a data file *)

(** The bytes of page [p] of a file. *)
Definition page_at (f : bytes) (p : nat) : bytes :=
  slice f (p * PAGE_SIZE) PAGE_SIZE.

(** The record count and the bitmap in a page header. *)
Definition count_of (page_data : bytes) : Z := le_value (slice page_data 4 4).
Definition bitmap_of (page_data : bytes) : Z := le_value (slice page_data 8 4).

(** Byte offset of a slot. *)
Definition slot_offset (ti : type_info) (slot : nat) : nat :=
  12 + slot * record_size ti.

(** The ten slots of a record of this type fit a page (section 3: the slot
    array must hold 10 records), and the cached record size is the one
    computed from the fields. *)
Definition fits_page (ti : type_info) : Prop :=
  12 + MAX_RECORDS_PER_PAGE * record_size ti <= PAGE_SIZE
  /\ record_size ti = _calculate_record_size (fields ti).

(** The file is absent or a whole number of pages long. *)
Definition file_aligned (a : DuneArchive) (type_name : pystr) : Prop :=
  match data_file a type_name with
  | None => True
  | Some f => exists k, length f = k * PAGE_SIZE
  end.

(** Number of set bits among the bitmap bits 0..9. *)
Definition set_bits (bitmap : Z) : nat :=
  length (List.filter (bit_set bitmap) (seq 0 MAX_RECORDS_PER_PAGE)).

(** The page invariant: the record count is the number of set bits among
    bits 0..9, and the validity byte of every slot is 1 where the bit is
    set and 0 where it is clear. *)
Definition page_ok (ti : type_info) (page_data : bytes) : Prop :=
  length page_data = PAGE_SIZE
  /\ count_of page_data = Z.of_nat (set_bits (bitmap_of page_data))
  /\ forall slot, slot < MAX_RECORDS_PER_PAGE ->
       page_data !! slot_offset ti slot
       = Some (if bit_set (bitmap_of page_data) slot then x01 else x00).

Definition file_ok (a : DuneArchive) (type_name : pystr) (ti : type_info) : Prop :=
  match data_file a type_name with
  | None => True
  | Some f =>
      exists k, length f = k * PAGE_SIZE
                /\ forall p, p < k -> page_ok ti (page_at f p)
  end.

(** A data file that is absent or holds only zeroed pages. *)
Definition blank_file (a : DuneArchive) (type_name : pystr) : Prop :=
  match data_file a type_name with
  | None => True
  | Some f => exists k, f = zeros (k * PAGE_SIZE)
  end.

(** A short run on the one-field type: two records, one of them deleted. *)
Definition sample_run : list op :=
  [CreateRecord (lit "T") [lit "7"]; CreateRecord (lit "T") [lit "8"];
   DeleteRecord (lit "T") (lit "7")].

(** ** Records of a page, slot by slot *)

Definition slot_records (a : DuneArchive) (type_name : pystr) (ti : type_info)
    (page_data : bytes) (bitmap : Z) (slots : list nat)
  : list (result (option (list pystr))) :=
  flat_map
    (fun slot =>
       if bit_set bitmap slot
       then [_deserialize_record a type_name
               (slice page_data (12 + slot * record_size ti) (record_size ti))]
       else [])
    slots.

(** ** Values that create_record takes *)



(** Every field is an Integer or a Text field, as [create_type] ensures. *)
Definition kinds_known (fields : list (pystr * pystr)) : bool :=
  forallb (fun f => pystr_eqb f.2 t_int || pystr_eqb f.2 t_str) fields.


(** ** Operations and the files they work on *)

(** The type an operation addresses. *)
Definition op_type (o : op) : pystr :=
  match o with
  | CreateRecord type_name _ => type_name
  | DeleteRecord type_name _ => type_name
  end.

(** A value the unsigned 32-bit format [I] can pack. *)
Definition is_u32 (z : Z) : bool := ((0 <=? z) && (z <? 2 ^ 32))%Z.

(** The bytes of the data file of a type; an absent file has none. *)
Definition file_bytes (a : DuneArchive) (type_name : pystr) : bytes :=
  default [] (data_file a type_name).

(** ** Field specifications *)

(** The (name, kind) pairs of a flat list of field specifications. *)
Fixpoint spec_pairs (field_specs : list pystr) : list (pystr * pystr) :=
  match field_specs with
  | field_name :: field_type :: rest => (field_name, field_type) :: spec_pairs rest
  | _ => []
  end.

(** ** Records that decode *)

(** Every live record of the file decodes to as many values as the type
    has fields. *)
Definition records_decode (a : DuneArchive) (type_name : pystr) (ti : type_info)
  : Prop :=
  Forall (fun r => exists vs, r = Ok (Some vs) /\ length vs = length (fields ti))
    (live_records a type_name ti).

(** ** Counting fields *)

(** Number of fields of a kind. *)
Definition count_kind (kind : pystr) (fields : list (pystr * pystr)) : nat :=
  length (List.filter (fun f => pystr_eqb f.2 kind) fields).

(** ** Digits that int converts *)

(** Values short enough for [int]: by default the interpreter refuses to
    convert a string of more than 4300 digits, which [py_int] does not
    model. *)
Definition int_convertible (values : list pystr) : bool :=
  forallb (fun v => length v <=? 4300) values.

(** ** A type whose records do not fit the page *)

(** Ten Text fields: a record takes 1001 bytes, and only four of the ten
    slots lie inside the 4096 bytes of a page. *)
Definition wide_fields : list (pystr * pystr) :=
  map (fun n => (lit "f" ++ n, t_str))
    [lit "0"; lit "1"; lit "2"; lit "3"; lit "4";
     lit "5"; lit "6"; lit "7"; lit "8"; lit "9"].

Definition wide_archive : DuneArchive :=
  (create_type (init ∅) (lit "W") 10 1
     (flat_map (fun f => [f.1; f.2]) wide_fields)).2.

Definition wide_row (key : pystr) : list pystr := key :: replicate 9 (lit "x").

Definition four_rows : list op :=
  map (fun k => CreateRecord (lit "W") (wide_row k))
    [lit "a"; lit "b"; lit "c"; lit "d"].




(** ** Values that int reads as py_int does *)

(** ASCII characters only: Python's [int] also reads the decimal digits of
    other scripts, which [int_digits] does not. *)
Definition ascii_values (values : list pystr) : bool :=
  forallb (forallb is_ascii) values.


(** ** Search as a scan of the decoded records *)







(** ** Where create_record puts a record *)



(** ** The page invariant *)



(** ** Text keys longer than 99 characters *)




(** * The command loop: main and _log_operation

    [main] reads the input file line by line and dispatches on the first
    two words of each line. The embedding takes the lines as the file
    iterator yields them; it assumes that the input file can be read and is
    none of the files the run writes. What the run writes outside the
    archive is kept as two sequences: the strings written to [output.txt]
    (which [main] empties first) and the rows given to the [csv] writer of
    [log.csv] (which is opened for appending, so these are the rows the run
    adds). Neither file can be the data file of a type or the catalog file,
    whose names end in [.dat]. The time stamps come from a clock: [clock n]
    is the value of [int(time.time())] at the [n]-th row of the run. Output
    of [print] is not modelled. *)

(** [s.split()]: the maximal runs of characters that are not white space;
    [word] is the run read so far. *)
Fixpoint split_words (word : pystr) (s : pystr) : list pystr :=
  match s with
  | [] => match word with [] => [] | _ => [word] end
  | c :: s' =>
      if is_space c then
        match word with
        | [] => split_words [] s'
        | _ => word :: split_words [] s'
        end
      else split_words (word ++ [c]) s'
  end.

Definition py_split (s : pystr) : list pystr := split_words [] s.

(** [sep.join(l)] *)
Fixpoint py_join (sep : pystr) (l : list pystr) : pystr :=
  match l with
  | [] => []
  | [x] => x
  | x :: rest => x ++ sep ++ py_join sep rest
  end.

Record session := {
  archive : DuneArchive;
  output : list pystr;
  log : list (list pystr)
}.

Definition status_text (success : bool) : pystr :=
  if success then lit "success" else lit "failure".

Definition _log_operation (clock : nat -> Z) (s : session) (operation : pystr)
    (success : bool) : session :=
  let timestamp := clock (length (log s)) in
  let status := status_text success in
  {| archive := archive s;
     output := output s;
     log := log s ++ [[py_str timestamp; lit " " ++ operation; lit " " ++ status]] |}.

Definition with_archive (s : session) (a : DuneArchive) : session :=
  {| archive := a; output := output s; log := log s |}.

(** [except (ValueError, IndexError)]: the Unicode errors are subclasses of
    [ValueError]; [struct.error] and [KeyError] are not caught. *)
Definition is_value_or_index_error (e : exn) : bool :=
  match e with
  | ValueError | IndexError | UnicodeDecodeError | UnicodeEncodeError => true
  | StructError | KeyError => false
  end.

(** The body of the [for line in f] loop. The first component is the
    exception that leaves the loop body, if any: it ends the loop, in the
    [except Exception] clause around it. *)
Definition process_line (clock : nat -> Z) (s : session) (line : pystr)
  : option exn * session :=
  let line := strip line in
  if bool_decide (line = []) then (None, s)
  else
    let parts := py_split line in
    let failure := (None, _log_operation clock s line false) in
    match parts with
    | [] | [_] => failure
    | operation_type :: operation :: rest =>
        if pystr_eqb operation_type (lit "create") then
          if pystr_eqb operation (lit "type") then
            if length parts <? 5 then failure
            else
              match rest with
              | type_name :: parts3 :: parts4 :: field_specs =>
                  match py_int parts3 with
                  | None => failure
                  | Some num_fields =>
                      match py_int parts4 with
                      | None => failure
                      | Some primary_key_order =>
                          if negb (Z.of_nat (length field_specs) =? 2 * num_fields)%Z
                          then failure
                          else
                            match create_type (archive s) type_name num_fields
                                    primary_key_order field_specs with
                            | (Ok success, a) =>
                                (None, _log_operation clock (with_archive s a) line success)
                            | (Raise e, a) =>
                                if is_value_or_index_error e
                                then (None,
                                      _log_operation clock (with_archive s a) line false)
                                else (Some e, with_archive s a)
                            end
                      end
                  end
              | _ => failure
              end
          else if pystr_eqb operation (lit "record") then
            if length parts <? 3 then failure
            else
              match rest with
              | type_name :: values =>
                  match dict_get (catalog (archive s)) type_name with
                  | None => failure
                  | Some type_info =>
                      if negb (length values =? length (fields type_info)) then failure
                      else
                        match create_record (archive s) type_name values with
                        | (Ok success, a) =>
                            (None, _log_operation clock (with_archive s a) line success)
                        | (Raise e, a) => (Some e, with_archive s a)
                        end
                  end
              | [] => failure
              end
          else failure
        else if pystr_eqb operation_type (lit "search")
                && pystr_eqb operation (lit "record") then
          if negb (length parts =? 4) then failure
          else
            match rest with
            | [type_name; primary_key] =>
                match dict_get (catalog (archive s)) type_name with
                | None => failure
                | Some _ =>
                    match search_record (archive s) type_name primary_key with
                    | Raise e => (Some e, s)
                    | Ok (Some result) =>
                        let s1 :=
                          {| archive := archive s;
                             output := output s
                                       ++ [py_join (lit " ") result ++ [10%N]];
                             log := log s |} in
                        (None, _log_operation clock s1 line true)
                    | Ok None => (None, _log_operation clock s line false)
                    end
                end
            | _ => failure
            end
        else if pystr_eqb operation_type (lit "delete")
                && pystr_eqb operation (lit "record") then
          if negb (length parts =? 4) then failure
          else
            match rest with
            | [type_name; primary_key] =>
                match dict_get (catalog (archive s)) type_name with
                | None => failure
                | Some _ =>
                    match delete_record (archive s) type_name primary_key with
                    | (Ok success, a) =>
                        (None, _log_operation clock (with_archive s a) line success)
                    | (Raise e, a) => (Some e, with_archive s a)
                    end
                end
            | _ => failure
            end
        else failure
    end.

(** The [for] loop inside [try]: the first exception ends it. *)
Fixpoint main_loop (clock : nat -> Z) (s : session) (lines : list pystr)
  : option exn * session :=
  match lines with
  | [] => (None, s)
  | line :: rest =>
      match process_line clock s line with
      | (None, s') => main_loop clock s' rest
      | (Some e, s') => (Some e, s')
      end
  end.

(** [main]: with a wrong number of arguments nothing is touched; otherwise
    the archive is opened on the files, [output.txt] is emptied and the
    lines of the input file are processed. *)
Definition main (clock : nat -> Z) (argv : list pystr) (fs : gmap pystr bytes)
    (lines : list pystr) : option (option exn * session) :=
  if negb (length argv =? 2) then None
  else Some (main_loop clock {| archive := init fs; output := []; log := [] |} lines).

(** ** Reading the log *)

(** A line that is a command: it is not blank. *)
Definition is_command (line : pystr) : bool :=
  negb (bool_decide (strip line = [])).

(** The row that [_log_operation] writes as the [n]-th row of the run. *)
Definition log_row (clock : nat -> Z) (n : nat) (operation : pystr) (success : bool)
  : list pystr :=
  [py_str (clock n); lit " " ++ operation; lit " " ++ status_text success].

(** The rows for a sequence of commands and their outcomes, the first of
    them being row [n]. *)
Fixpoint log_rows (clock : nat -> Z) (n : nat) (commands : list pystr)
    (outcomes : list bool) : list (list pystr) :=
  match commands, outcomes with
  | line :: commands', ok :: outcomes' =>
      log_row clock n (strip line) ok :: log_rows clock (S n) commands' outcomes'
  | _, _ => []
  end.

(** ** Reading the output *)

(** The line that a successful search writes to [output.txt]. *)
Definition output_line (result : list pystr) : pystr :=
  py_join (lit " ") result ++ [10%N].

(** The record that a line asks for and gets, on the archive [a]: the line
    is a [search record] command of four words for a type of the catalog,
    and [search_record] returns a record. *)
Definition found_record (a : DuneArchive) (line : pystr) : option (list pystr) :=
  match py_split (strip line) with
  | [operation_type; operation; type_name; primary_key] =>
      if pystr_eqb operation_type (lit "search") && pystr_eqb operation (lit "record")
         && bool_decide (is_Some (dict_get (catalog a) type_name))
      then
        match search_record a type_name primary_key with
        | Ok (Some result) => Some result
        | _ => None
        end
      else None
  | _ => None
  end.

(** The lines that [output.txt] is due for a run of the loop that starts in
    the session [s]: for each line processed, the record it asks for and
    gets on the archive of that moment. The lines after one that raises are
    not processed. *)
Fixpoint found_lines (clock : nat -> Z) (s : session) (lines : list pystr)
  : list pystr :=
  match lines with
  | [] => []
  | line :: rest =>
      match found_record (archive s) line with
      | Some result => [output_line result]
      | None => []
      end
      ++ match process_line clock s line with
         | (None, s') => found_lines clock s' rest
         | (Some _, _) => []
         end
  end.

(** * Properties *)

(** ** Bytes and packed integers *)

Lemma Z_of_byte_range b : (0 <= Z_of_byte b < 256)%Z.
Proof.
  unfold Z_of_byte. pose proof (Byte.to_N_bounded b). lia.
Qed.

Lemma byte_of_Z_of_byte b : byte_of_Z (Z_of_byte b) = b.
Proof.
  unfold byte_of_Z. pose proof (Z_of_byte_range b).
  rewrite Z.mod_small by lia. unfold Z_of_byte.
  rewrite N2Z.id, Byte.of_to_N. reflexivity.
Qed.

Lemma Z_of_byte_of_Z z : Z_of_byte (byte_of_Z z) = (z mod 256)%Z.
Proof.
  unfold byte_of_Z, Z_of_byte.
  pose proof (Z.mod_pos_bound z 256 ltac:(lia)) as Hm.
  destruct (Byte.of_N (Z.to_N (z mod 256))) as [b|] eqn:E.
  - apply Byte.to_of_N in E. rewrite E. lia.
  - apply Byte.of_N_None_iff in E. lia.
Qed.

Lemma length_le_bytes n z : length (le_bytes n z) = n.
Proof. revert z. induction n; intros; simpl; auto. Qed.

Lemma le_value_range bs : (0 <= le_value bs < 256 ^ Z.of_nat (length bs))%Z.
Proof.
  induction bs as [|b bs IH].
  - simpl. lia.
  - cbn [le_value length]. rewrite Nat2Z.inj_succ, Z.pow_succ_r by lia.
    pose proof (Z_of_byte_range b). lia.
Qed.

Lemma le_value_le_bytes n z :
  le_value (le_bytes n z) = (z mod 256 ^ Z.of_nat n)%Z.
Proof.
  revert z. induction n as [|n IH]; intros z.
  - simpl. rewrite Z.mod_1_r. reflexivity.
  - cbn [le_bytes le_value]. rewrite IH, Z_of_byte_of_Z.
    rewrite Nat2Z.inj_succ, Z.pow_succ_r by lia.
    rewrite Z.rem_mul_r by lia. lia.
Qed.

Lemma le_bytes_le_value bs : le_bytes (length bs) (le_value bs) = bs.
Proof.
  induction bs as [|b bs IH]; [reflexivity|].
  cbn [length le_bytes le_value]. pose proof (Z_of_byte_range b).
  f_equal.
  - rewrite <- (byte_of_Z_of_byte b) at 2. unfold byte_of_Z.
    replace ((Z_of_byte b + 256 * le_value bs) mod 256)%Z
      with (Z_of_byte b mod 256)%Z; [reflexivity|].
    replace (Z_of_byte b + 256 * le_value bs)%Z
      with (Z_of_byte b + le_value bs * 256)%Z by lia.
    rewrite Z.mod_add by lia. reflexivity.
  - replace ((Z_of_byte b + 256 * le_value bs) / 256)%Z with (le_value bs);
      [exact IH|].
    replace (Z_of_byte b + 256 * le_value bs)%Z
      with (Z_of_byte b + le_value bs * 256)%Z by lia.
    rewrite Z.div_add by lia.
    rewrite Z.div_small by lia. lia.
Qed.

Lemma pack_I_inv z bs :
  pack_I z = Ok bs -> (0 <= z < 2 ^ 32)%Z /\ bs = le_bytes 4 z.
Proof.
  unfold pack_I. destruct (_ && _) eqn:E; [|discriminate].
  intros Hb. split; [lia | congruence].
Qed.

Lemma pack_I_ok z : (0 <= z < 2 ^ 32)%Z -> pack_I z = Ok (le_bytes 4 z).
Proof.
  intros H. unfold pack_I.
  destruct (_ && _) eqn:E; [reflexivity | lia].
Qed.

Lemma unpack_I_le_bytes z : (0 <= z < 2 ^ 32)%Z -> unpack_I (le_bytes 4 z) = Ok z.
Proof.
  intros H. unfold unpack_I. rewrite length_le_bytes. simpl Nat.eqb. cbv iota.
  rewrite le_value_le_bytes. f_equal. apply Z.mod_small. simpl. lia.
Qed.

Lemma unpack_i_pack_i z bs : pack_i z = Ok bs -> unpack_i bs = Ok z /\ length bs = 4.
Proof.
  unfold pack_i. destruct (_ && _) eqn:E; [|discriminate].
  intros Hb. assert (bs = le_bytes 4 (z mod 2 ^ 32)) as -> by congruence. clear Hb.
  unfold unpack_i. rewrite length_le_bytes. split; [|reflexivity].
  simpl Nat.eqb. cbv iota zeta. rewrite le_value_le_bytes. f_equal.
  change (256 ^ Z.of_nat 4)%Z with (2 ^ 32)%Z.
  rewrite Z.mod_mod by lia.
  destruct (Z.ltb_spec (z mod 2 ^ 32) (2 ^ 31)) as [Hlt|Hge].
  - destruct (Z.neg_nonneg_cases z) as [Hn|Hp].
    + rewrite <- (Z.mod_add z 1 (2 ^ 32)) in Hlt by lia.
      rewrite Z.mod_small in Hlt by lia. lia.
    + apply Z.mod_small. lia.
  - destruct (Z.neg_nonneg_cases z) as [Hn|Hp].
    + rewrite <- (Z.mod_add z 1 (2 ^ 32)) by lia.
      rewrite Z.mod_small by lia. lia.
    + rewrite Z.mod_small in Hge by lia. lia.
Qed.

(** ** ASCII text through UTF-8 *)

Ltac n_bool :=
  repeat match goal with
    | H : _ && _ = true |- _ => apply andb_true_iff in H; destruct H
    | H : _ || _ = true |- _ => apply orb_true_iff in H; destruct H
    | H : negb _ = true |- _ => apply negb_true_iff in H
    | H : (_ <=? _)%N = true |- _ => apply N.leb_le in H
    | H : (_ <? _)%N = true |- _ => apply N.ltb_lt in H
    | H : (_ =? _)%N = true |- _ => apply N.eqb_eq in H
    | H : (_ <=? _)%N = false |- _ => apply N.leb_gt in H
    | H : (_ <? _)%N = false |- _ => apply N.ltb_ge in H
    | H : (_ =? _)%N = false |- _ => apply N.eqb_neq in H
    end.

Lemma byte_of_N_to_N c : (c < 256)%N -> Byte.to_N (byte_of_N c) = c.
Proof.
  intros H. pose proof (Z_of_byte_of_Z (Z.of_N c)) as E.
  unfold Z_of_byte in E. unfold byte_of_N.
  rewrite Z.mod_small in E by lia. lia.
Qed.

Lemma encode_utf8_ascii s :
  forallb is_ascii s = true -> encode_utf8 s = Ok (map byte_of_N s).
Proof.
  induction s as [|c s IH]; [reflexivity|].
  cbn [forallb]. intros [Hc Hs]%andb_true_iff.
  cbn [encode_utf8 map]. unfold encode_char. unfold is_ascii in Hc.
  change 0x80%N with 128%N. rewrite Hc, (IH Hs). reflexivity.
Qed.

Lemma decode_units_ascii s :
  forallb is_ascii s = true -> decode_units s = Some s.
Proof.
  induction s as [|c s IH]; [reflexivity|].
  cbn [forallb]. intros [Hc Hs]%andb_true_iff.
  cbn [decode_units]. unfold is_ascii in Hc.
  change 0x80%N with 128%N. rewrite Hc, (IH Hs). reflexivity.
Qed.

Lemma decode_utf8_ascii s :
  forallb is_ascii s = true -> decode_utf8 (map byte_of_N s) = Ok s.
Proof.
  intros H. unfold decode_utf8. rewrite map_map.
  rewrite (map_ext_in _ id).
  - rewrite map_id, decode_units_ascii by exact H. reflexivity.
  - intros c Hin. rewrite forallb_forall in H. specialize (H c Hin).
    unfold is_ascii in H. n_bool. apply byte_of_N_to_N. unfold id. lia.
Qed.

Lemma length_encode_ascii s bs :
  forallb is_ascii s = true -> encode_utf8 s = Ok bs -> length bs = length s.
Proof.
  intros H E. rewrite encode_utf8_ascii in E by exact H.
  assert (bs = map byte_of_N s) as -> by congruence. apply length_map.
Qed.

(** ** Padding and stripping *)

Lemma rstrip0_replicate k : rstrip0 (replicate k 0%N) = [].
Proof. induction k as [|k IH]; [reflexivity|]. cbn. rewrite IH. reflexivity. Qed.

Lemma rstrip0_app_zeros s k :
  forallb (fun c => negb (c =? 0)%N) s = true ->
  rstrip0 (s ++ replicate k 0%N) = s.
Proof.
  induction s as [|c s IH]; cbn [forallb app].
  - intros _. apply rstrip0_replicate.
  - intros [Hc Hs]%andb_true_iff. cbn [rstrip0]. rewrite (IH Hs).
    destruct s; [|reflexivity].
    apply negb_true_iff in Hc. rewrite Hc. reflexivity.
Qed.

Lemma length_ljust0 n s : length s <= n -> length (ljust0 n s) = n.
Proof.
  intros H. unfold ljust0. rewrite length_app, length_replicate. lia.
Qed.

(** ** Validated text *)

Lemma before_dollar_spec s :
  before_dollar s = s \/ s = before_dollar s ++ [10%N].
Proof.
  unfold before_dollar. destruct (rev s) as [|c r] eqn:E; [left; reflexivity|].
  destruct c as [|p]; [left; reflexivity|].
  destruct (decide (p = 10%positive)) as [->|Hne].
  - right. rewrite <- (rev_involutive s), E. reflexivity.
  - left. do 4 (destruct p; try reflexivity); congruence.
Qed.

Lemma is_alnum_text c : is_alnum c = true -> is_ascii c = true /\ (c =? 0)%N = false.
Proof.
  unfold is_alnum, is_letter, is_digit, within, is_ascii. intros H.
  split; [apply N.ltb_lt | apply N.eqb_neq]; n_bool; lia.
Qed.

Lemma valid_string_is_text v :
  _is_valid_string_value v = true -> forallb is_text v = true.
Proof.
  unfold _is_valid_string_value. intros [_ H]%andb_true_iff.
  assert (Hb : forallb is_text (before_dollar v) = true).
  { apply forallb_forall. intros c Hc. rewrite forallb_forall in H.
    destruct (is_alnum_text c (H c Hc)) as [H1 H2]. unfold is_text.
    rewrite H1, H2. reflexivity. }
  destruct (before_dollar_spec v) as [E|E]; [rewrite <- E; exact Hb|].
  rewrite E, forallb_app, Hb. reflexivity.
Qed.

Lemma of_uint_acc_value d p :
  Z.pos (Pos.of_uint_acc d p) = uint_value (Z.pos p) d.
Proof.
  revert p. induction d; intros p; cbn [Pos.of_uint_acc uint_value];
    try reflexivity; rewrite IHd; f_equal; lia.
Qed.

Lemma of_uint_value d : Z.of_uint d = uint_value 0 d.
Proof.
  unfold Z.of_uint.
  induction d; cbn [Pos.of_uint uint_value]; try reflexivity;
    try (cbn [Z.of_N]; rewrite of_uint_acc_value; reflexivity).
  exact IHd.
Qed.

Lemma int_digits_uint d acc :
  int_digits acc true (uint_chars d) = Some (uint_value acc d).
Proof.
  revert acc. induction d; intros acc; cbn [uint_chars int_digits uint_value];
    try reflexivity;
    match goal with
    | |- context [is_digit ?c] => change (is_digit c) with true
    end; cbv iota; rewrite IHd; do 2 f_equal; lia.
Qed.

Lemma int_digits_uint_start d :
  d <> Decimal.Nil ->
  int_digits 0 false (uint_chars d) = Some (uint_value 0 d).
Proof.
  destruct d; intros Hd; try congruence;
    cbn [uint_chars int_digits uint_value];
    match goal with
    | |- context [is_digit ?c] => change (is_digit c) with true
    end; cbv iota; rewrite int_digits_uint; do 2 f_equal.
Qed.

Lemma uint_chars_digits d : forallb is_digit (uint_chars d) = true.
Proof. induction d; cbn [uint_chars forallb]; auto. Qed.

Lemma int_lstrip_id c s : is_int_space c = false -> int_lstrip (c :: s) = c :: s.
Proof. intros H. cbn. rewrite H. reflexivity. Qed.

Lemma int_strip_id s :
  match s with c :: _ => is_int_space c = false | [] => True end ->
  match rev s with c :: _ => is_int_space c = false | [] => True end ->
  int_strip s = s.
Proof.
  intros H1 H2. unfold int_strip.
  assert (E1 : int_lstrip s = s) by (destruct s; [reflexivity | apply int_lstrip_id, H1]).
  rewrite E1.
  assert (E2 : int_lstrip (rev s) = rev s)
    by (destruct (rev s); [reflexivity | apply int_lstrip_id, H2]).
  rewrite E2. apply rev_involutive.
Qed.

Lemma is_digit_not_space c : is_digit c = true -> is_int_space c = false.
Proof.
  intros H. unfold is_int_space. apply andb_false_iff. left. revert H.
  unfold is_digit, is_space, within. intros H. n_bool.
  repeat (apply orb_false_iff; split);
    first [ apply andb_false_iff; (left; apply N.leb_gt; lia) || (right; apply N.leb_gt; lia)
          | apply N.eqb_neq; lia ].
Qed.

Lemma last_digit_not_space s c0 :
  forallb is_digit s = true -> s <> [] ->
  match rev (c0 ++ s) with c :: _ => is_int_space c = false | [] => True end.
Proof.
  intros Hs Hne. rewrite rev_app_distr.
  destruct (rev s) as [|c r] eqn:E.
  - apply (f_equal (@rev N)) in E. rewrite rev_involutive in E. contradiction.
  - cbn. apply is_digit_not_space. rewrite forallb_forall in Hs. apply Hs.
    apply in_rev. rewrite E. left. reflexivity.
Qed.

Lemma to_int_not_nil z :
  match Z.to_int z with Decimal.Pos d | Decimal.Neg d => d <> Decimal.Nil end.
Proof.
  pose proof (DecimalZ.of_to z) as E.
  destruct (Z.to_int z) as [d|d] eqn:Ez; intros ->; cbn in E; subst z;
    discriminate Ez.
Qed.

Lemma uint_chars_nil d : uint_chars d = [] -> d = Decimal.Nil.
Proof. destruct d; cbn; congruence. Qed.

Lemma py_int_py_str z : py_int (py_str z) = Some z.
Proof.
  pose proof (DecimalZ.of_to z) as E. pose proof (to_int_not_nil z) as Hn.
  unfold py_int, py_str. destruct (Z.to_int z) as [d|d].
  - assert (Hne : uint_chars d <> []) by (intros H%uint_chars_nil; contradiction).
    rewrite int_strip_id.
    + destruct (uint_chars d) as [|c r] eqn:Ed; [contradiction|].
      pose proof (uint_chars_digits d) as Hd. rewrite Ed in Hd. cbn in Hd.
      apply andb_true_iff in Hd as [Hc _].
      assert ((c =? 45)%N = false /\ (c =? 43)%N = false) as [-> ->].
      { unfold is_digit, within in Hc. n_bool. split; apply N.eqb_neq; lia. }
      rewrite <- Ed, int_digits_uint_start by exact Hn.
      rewrite <- of_uint_value. cbn in E. congruence.
    + destruct (uint_chars d) as [|c r] eqn:Ed; [contradiction|].
      pose proof (uint_chars_digits d) as Hd. rewrite Ed in Hd. cbn in Hd.
      apply andb_true_iff in Hd as [Hc _]. apply is_digit_not_space, Hc.
    + apply (last_digit_not_space _ []); [apply uint_chars_digits | exact Hne].
  - assert (Hne : uint_chars d <> []) by (intros H%uint_chars_nil; contradiction).
    rewrite int_strip_id.
    + change ((45 =? 45)%N) with true. cbv iota.
      rewrite int_digits_uint_start by exact Hn.
      rewrite <- of_uint_value. cbn in E. cbn. congruence.
    + reflexivity.
    + apply (last_digit_not_space _ [45%N]); [apply uint_chars_digits | exact Hne].
Qed.

(** ** The result monad *)

Lemma bind_Ok {A B} (x : A) (k : A -> result B) : Ok x ≫= k = k x.
Proof. reflexivity. Qed.

Lemma bind_Ok_inv {A B} (m : result A) (k : A -> result B) b :
  m ≫= k = Ok b -> exists x, m = Ok x /\ k x = Ok b.
Proof. destruct m as [x|e]; [eauto | discriminate]. Qed.

Ltac bind_inv H :=
  let x := fresh "x" in
  let E := fresh "E" in
  apply bind_Ok_inv in H as (x & E & H).

Lemma of_option_Ok_inv {A} e (o : option A) x : of_option e o = Ok x -> o = Some x.
Proof. destruct o; cbn; congruence. Qed.

(** ** Slices *)

Lemma slice_app_exact {A} (pre b rest : list A) :
  slice (pre ++ b ++ rest) (length pre) (length b) = b.
Proof.
  unfold slice. rewrite drop_app_length. apply take_app_length.
Qed.

Lemma slice_app_exact' {A} (pre b rest : list A) o n :
  o = length pre -> n = length b -> slice (pre ++ b ++ rest) o n = b.
Proof. intros -> ->. apply slice_app_exact. Qed.

Lemma fold_record_size fields acc :
  fold_left
    (fun size '(field_name, field_type) =>
       if pystr_eqb field_type t_int then size + 4
       else if pystr_eqb field_type t_str then size + MAX_STRING_LENGTH
       else size)
    fields acc = acc + fields_size fields.
Proof.
  revert acc.
  induction fields as [|[fname ft] rest IH]; intros acc; cbn [fold_left fields_size].
  - lia.
  - rewrite IH. destruct (pystr_eqb ft t_int); [lia|].
    destruct (pystr_eqb ft t_str); lia.
Qed.

Lemma _calculate_record_size_eq fields :
  _calculate_record_size fields = 1 + fields_size fields.
Proof. apply fold_record_size. Qed.

Lemma serialize_fields_drop fields i values :
  serialize_fields fields i values = serialize_fields fields 0 (drop i values).
Proof.
  revert i values.
  induction fields as [|[fname ft] rest IH]; intros i values; [reflexivity|].
  cbn [serialize_fields]. unfold pystr in *.
  assert (E1 : drop i values !! 0 = values !! i)
    by (rewrite lookup_drop; f_equal; lia).
  assert (E2 : drop 1 (drop i values) = drop (S i) values)
    by (rewrite drop_drop; f_equal; lia).
  rewrite (IH (S i) values), (IH 1 (drop i values)), E2.
  destruct (pystr_eqb ft t_int); [rewrite E1; reflexivity|].
  destruct (pystr_eqb ft t_str); [rewrite E1; reflexivity|reflexivity].
Qed.

Lemma text_field_bytes v :
  forallb is_text v = true ->
  let padded := ljust0 MAX_STRING_LENGTH (take (MAX_STRING_LENGTH - 1) v) in
  encode_utf8 padded = Ok (map byte_of_N padded)
  /\ length padded = MAX_STRING_LENGTH
  /\ decode_utf8 (map byte_of_N padded) = Ok padded
  /\ rstrip0 padded = take (MAX_STRING_LENGTH - 1) v.
Proof.
  intros Hv padded.
  assert (Ht : forallb is_text (take (MAX_STRING_LENGTH - 1) v) = true).
  { apply forallb_forall. intros c Hc. rewrite forallb_forall in Hv. apply Hv.
    rewrite <- (take_drop (MAX_STRING_LENGTH - 1) v).
    apply in_or_app. left. exact Hc. }
  assert (Ha : forallb is_ascii padded = true).
  { unfold padded, ljust0. rewrite forallb_app. apply andb_true_iff. split.
    - apply forallb_forall. intros c Hc. rewrite forallb_forall in Ht.
      specialize (Ht c Hc). unfold is_text in Ht.
      apply andb_true_iff in Ht as [? ?]. assumption.
    - apply forallb_forall. intros c Hc%list_elem_of_In.
      apply elem_of_replicate in Hc as [-> _]. reflexivity. }
  repeat split.
  - apply encode_utf8_ascii, Ha.
  - apply length_ljust0. rewrite length_take. unfold MAX_STRING_LENGTH. lia.
  - apply decode_utf8_ascii, Ha.
  - unfold padded, ljust0. apply rstrip0_app_zeros.
    apply forallb_forall. intros c Hc. rewrite forallb_forall in Ht.
    specialize (Ht c Hc). unfold is_text in Ht.
    apply andb_true_iff in Ht as [? ?]. assumption.
Qed.

Lemma values_valid_cons fname ft rest v vs :
  values_valid ((fname, ft) :: rest) (v :: vs) = true ->
  (pystr_eqb ft t_int = true -> _is_valid_int_value v = true)
  /\ (pystr_eqb ft t_int = false -> pystr_eqb ft t_str = true ->
      _is_valid_string_value v = true)
  /\ values_valid rest vs = true.
Proof.
  unfold values_valid. cbn [zip zip_with forallb].
  intros [H1 H2]%andb_true_iff. repeat split; [| |exact H2].
  - intros E. rewrite E in H1. exact H1.
  - intros E1 E2. rewrite E1, E2 in H1. exact H1.
Qed.

(** A record of validated values is [record_size] bytes long and reads back
    as the stored form of the values, wherever it lies in a buffer. *)
Lemma codec_fields fields : forall values bs,
  length values = length fields ->
  values_valid fields values = true ->
  serialize_fields fields 0 values = Ok bs ->
  length bs = fields_size fields
  /\ forall pre post,
       deserialize_fields fields (pre ++ bs ++ post) (length pre)
       = Ok (stored_values fields values).
Proof.
  induction fields as [|[fname ft] rest IH]; intros values bs Hlen Hval Hser.
  - cbn in Hser. assert (bs = []) as -> by congruence.
    destruct values; [|discriminate]. split; [reflexivity|]. reflexivity.
  - destruct values as [|v vs]; [discriminate|].
    cbn [length] in Hlen. injection Hlen as Hlen.
    destruct (values_valid_cons _ _ _ _ _ Hval) as (Hi & Hs & Hrest).
    cbn [serialize_fields] in Hser. rewrite (serialize_fields_drop rest 1) in Hser.
    cbn [drop] in Hser. cbn [fields_size deserialize_fields stored_values].
    destruct (pystr_eqb ft t_int) eqn:Eint.
    + cbn [lookup list_lookup of_option] in Hser. rewrite bind_Ok in Hser.
      bind_inv Hser. apply of_option_Ok_inv in E.
      bind_inv Hser. apply unpack_i_pack_i in E0 as [Eu El].
      bind_inv Hser. assert (bs = x0 ++ x1) as -> by congruence.
      destruct (IH vs x1 Hlen Hrest E0) as [IHl IHd].
      split; [rewrite length_app; lia|].
      intros pre post. rewrite <- app_assoc.
      rewrite (slice_app_exact' pre x0) by auto. rewrite Eu, bind_Ok.
      replace (length pre + 4) with (length (pre ++ x0))
        by (rewrite length_app; lia).
      rewrite (app_assoc pre x0), IHd, bind_Ok. cbn [orb].
      unfold stored_value. rewrite Eint, E. reflexivity.
    + destruct (pystr_eqb ft t_str) eqn:Estr.
      * cbn [lookup list_lookup of_option] in Hser. rewrite bind_Ok in Hser.
        destruct (text_field_bytes v (valid_string_is_text v (Hs eq_refl eq_refl)))
          as (Henc & Hl & Hdec & Hstrip).
        rewrite Henc, bind_Ok in Hser. bind_inv Hser.
        match type of Hser with Ok (?b ++ _) = _ => set (b0 := b) in * end.
        assert (bs = b0 ++ x) as -> by congruence.
        assert (Hb0 : length b0 = MAX_STRING_LENGTH)
          by (unfold b0; rewrite length_map; exact Hl).
        destruct (IH vs x Hlen Hrest E) as [IHl IHd].
        split; [rewrite length_app; lia|].
        intros pre post. rewrite <- app_assoc.
        rewrite (slice_app_exact' pre b0) by auto.
        unfold b0 at 1. rewrite Hdec, bind_Ok.
        replace (length pre + MAX_STRING_LENGTH) with (length (pre ++ b0))
          by (rewrite length_app; lia).
        rewrite (app_assoc pre b0), IHd, bind_Ok. cbn [orb].
        unfold stored_value. rewrite Eint, Hstrip. reflexivity.
      * destruct (IH vs bs Hlen Hrest Hser) as [IHl IHd].
        split; [lia|]. intros pre post. cbn [orb]. apply IHd.
Qed.

Lemma serialize_fields_total fields : forall values,
  length values = length fields ->
  values_valid fields values = true ->
  values_packable fields values = true ->
  exists bs, serialize_fields fields 0 values = Ok bs.
Proof.
  induction fields as [|[fname ft] rest IH]; intros values Hlen Hval Hpack.
  - exists []. reflexivity.
  - destruct values as [|v vs]; [discriminate|].
    cbn [length] in Hlen. injection Hlen as Hlen.
    destruct (values_valid_cons _ _ _ _ _ Hval) as (Hi & Hs & Hrest).
    unfold values_packable in Hpack. cbn [zip zip_with forallb] in Hpack.
    apply andb_true_iff in Hpack as [Hp Hpack].
    destruct (IH vs Hlen Hrest Hpack) as [bs Hbs].
    cbn [serialize_fields]. rewrite (serialize_fields_drop rest 1).
    change (drop 1 (v :: vs)) with vs. rewrite Hbs. destruct (pystr_eqb ft t_int) eqn:Eint.
    + cbn [lookup list_lookup of_option]. rewrite bind_Ok.
      unfold int_in_range in Hp. destruct (py_int v) as [z|]; [|discriminate].
      cbn [of_option]. rewrite bind_Ok. unfold pack_i. rewrite Hp.
      eexists. reflexivity.
    + destruct (pystr_eqb ft t_str) eqn:Estr; [|eauto].
      cbn [lookup list_lookup of_option]. rewrite bind_Ok.
      destruct (text_field_bytes v (valid_string_is_text v (Hs eq_refl eq_refl)))
        as (Henc & _). rewrite Henc. eexists. reflexivity.
Qed.

Lemma serialize_record_inv a type_name ti values rec :
  dict_get (catalog a) type_name = Some ti ->
  _serialize_record a type_name values = Ok rec ->
  exists bs, serialize_fields (fields ti) 0 values = Ok bs /\ rec = x01 :: bs.
Proof.
  intros Hti H. unfold _serialize_record, type_of in H. rewrite Hti in H.
  cbn [of_option] in H. rewrite bind_Ok in H.
  change (pack_B 1) with (Ok [x01] : result bytes) in H. rewrite bind_Ok in H.
  bind_inv H. exists x. split; [exact E|]. cbn [app] in H. congruence.
Qed.

Lemma deserialize_record_stored a type_name ti values bs :
  dict_get (catalog a) type_name = Some ti ->
  length values = length (fields ti) ->
  values_valid (fields ti) values = true ->
  serialize_fields (fields ti) 0 values = Ok bs ->
  _deserialize_record a type_name (x01 :: bs)
  = Ok (Some (stored_values (fields ti) values)).
Proof.
  intros Hti Hlen Hval Hser.
  destruct (codec_fields _ _ _ Hlen Hval Hser) as [_ Hd].
  unfold _deserialize_record, type_of. rewrite Hti. cbn [of_option].
  rewrite bind_Ok. change (slice (x01 :: bs) 0 1) with [x01].
  change (unpack_B [x01]) with (Ok 1%Z : result Z). rewrite bind_Ok.
  change (1 =? 0)%Z with false. cbv iota.
  specialize (Hd [x01] []). rewrite app_nil_r in Hd. cbn [length app] in Hd.
  rewrite Hd. reflexivity.
Qed.

Lemma canonical_values_facts fields : forall values,
  canonical_values fields values = true ->
  length values = length fields
  /\ values_valid fields values = true
  /\ values_packable fields values = true
  /\ stored_values fields values = values.
Proof.
  induction fields as [|[fname ft] rest IH]; intros [|v vs] H;
    try discriminate; [repeat split|].
  cbn [canonical_values] in H. apply andb_true_iff in H as [Hv H].
  destruct (IH vs H) as (Hl & Hval & Hp & Hs).
  unfold values_valid, values_packable in *.
  cbn [length zip zip_with forallb stored_values].
  unfold canonical_value in Hv. unfold stored_value.
  destruct (pystr_eqb ft t_int) eqn:Eint.
  - unfold _is_valid_int_value, int_in_range.
    destruct (py_int v) as [z|]; [|discriminate].
    apply andb_true_iff in Hv as [Hr Heq].
    unfold pystr_eqb in Heq. apply bool_decide_eq_true in Heq.
    cbn [orb]. repeat split.
    + congruence.
    + exact Hval.
    + rewrite Hr. exact Hp.
    + congruence.
  - destruct (pystr_eqb ft t_str) eqn:Estr; [|discriminate].
    apply andb_true_iff in Hv as [Hv Hlen]. apply Nat.leb_le in Hlen.
    cbn [orb]. repeat split.
    + congruence.
    + rewrite Hv. exact Hval.
    + exact Hp.
    + rewrite take_ge by exact Hlen. congruence.
Qed.

(** C2, counterexample: the validator accepts ["007"], which is stored as
    the integer 7 and read back as ["7"]. *)
Lemma codec_drops_leading_zeros : ~ codec_exact_on_validated.
Proof.
  intros H.
  specialize (H one_int_archive (lit "T")
                {| fields := [(lit "id", t_int)]; primary_key_order := 1;
                   record_size := 5 |}
                [lit "007"] [x01; x07; x00; x00; x00]).
  assert (Hd : _deserialize_record one_int_archive (lit "T")
                 [x01; x07; x00; x00; x00] = Ok (Some [lit "7"]))
    by (vm_compute; reflexivity).
  rewrite Hd in H.
  assert (Hne : Ok (Some [lit "7"]) <> Ok (Some [lit "007"]))
    by (vm_compute; discriminate).
  apply Hne, H; try (vm_compute; reflexivity).
  repeat constructor.
Qed.

(** C2, amended: a record whose values are in stored form (integers in
    their decimal spelling within the signed 32-bit range, text accepted by
    the validator and at most 99 characters long) encodes, and decodes to
    exactly the same values. *)
Theorem codec_exact_on_canonical a type_name ti values :
  dict_get (catalog a) type_name = Some ti ->
  canonical_values (fields ti) values = true ->
  exists rec,
    _serialize_record a type_name values = Ok rec
    /\ _deserialize_record a type_name rec = Ok (Some values).
Proof.
  intros Hti Hc.
  destruct (canonical_values_facts _ _ Hc) as (Hl & Hval & Hp & Hs).
  destruct (serialize_fields_total _ _ Hl Hval Hp) as [bs Hbs].
  exists (x01 :: bs). split.
  - unfold _serialize_record, type_of. rewrite Hti. cbn [of_option].
    rewrite bind_Ok. change (pack_B 1) with (Ok [x01] : result bytes).
    rewrite bind_Ok, Hbs. reflexivity.
  - rewrite (deserialize_record_stored a type_name ti values bs) by assumption.
    rewrite Hs. reflexivity.
Qed.

Lemma codec_exact_on_canonical_witness :
  exists rec,
    _serialize_record two_field_archive (lit "Person") [lit "Alice"; lit "-30"]
    = Ok rec
    /\ _deserialize_record two_field_archive (lit "Person") rec
       = Ok (Some [lit "Alice"; lit "-30"]).
Proof.
  apply (codec_exact_on_canonical two_field_archive (lit "Person")
           {| fields := [(lit "name", t_str); (lit "age", t_int)];
              primary_key_order := 1; record_size := 105 |});
    vm_compute; reflexivity.
Defined.

(** ** create_type *)

Lemma list_pair_ind {A} (P : list A -> Prop) :
  P [] -> (forall x, P [x]) -> (forall x y l, P l -> P (x :: y :: l)) ->
  forall l, P l.
Proof.
  intros H0 H1 H2 l.
  enough (P l /\ forall x, P (x :: l)) by tauto.
  induction l as [|y l [IH1 IH2]]; split; auto.
Qed.

Lemma parse_field_specs_spec field_specs : forall fields,
  match parse_field_specs field_specs fields with
  | Raise e => e = IndexError /\ Nat.odd (length field_specs) = true
  | Ok None => field_pairs_ok field_specs = false
  | Ok (Some fields') =>
      field_pairs_ok field_specs = true
      /\ 2 * length fields' = 2 * length fields + length field_specs
  end.
Proof.
  induction field_specs as [|x|x y rest IH] using list_pair_ind; intros fields.
  - cbn. split; [reflexivity | lia].
  - cbn. split; reflexivity.
  - cbn [parse_field_specs field_pairs_ok length].
    change (Nat.odd (S (S (length rest)))) with (Nat.odd (length rest)).
    destruct (_is_valid_name x); cbn [negb andb]; [|reflexivity].
    destruct (Nat.ltb_spec MAX_FIELD_NAME_LENGTH (length x)) as [Hl|Hl].
    { replace (length x <=? MAX_FIELD_NAME_LENGTH) with false
        by (symmetry; apply Nat.leb_gt; exact Hl). reflexivity. }
    replace (length x <=? MAX_FIELD_NAME_LENGTH) with true
      by (symmetry; apply Nat.leb_le; exact Hl).
    destruct (pystr_eqb y t_int || pystr_eqb y t_str); cbn [negb andb];
      [|reflexivity].
    specialize (IH (fields ++ [(x, y)])).
    destruct (parse_field_specs rest (fields ++ [(x, y)])) as [[fs|]|e];
      [|exact IH|exact IH].
    destruct IH as [IH1 IH2]. split; [exact IH1|].
    rewrite length_app in IH2. cbn [length] in IH2. lia.
Qed.




(** ** The catalog file *)

Lemma slice_shift {A} (pre d : list A) o n :
  slice (pre ++ d) (length pre + o) n = slice d o n.
Proof. unfold slice. rewrite drop_app_add. reflexivity. Qed.

Lemma slice_shift' {A} (pre d : list A) k o n :
  k = length pre + o -> slice (pre ++ d) k n = slice d o n.
Proof. intros ->. apply slice_shift. Qed.

Lemma read_fields_shift pre d n : forall o acc,
  read_fields n (pre ++ d) (length pre + o) acc
  = shift_result (length pre) (read_fields n d o acc).
Proof.
  induction n as [|n IH]; intros o acc; [reflexivity|].
  cbn [read_fields]. rewrite slice_shift.
  destruct (unpack_I (slice d o 4)) as [l1|e]; [|reflexivity].
  rewrite !bind_Ok. cbv beta zeta.
  rewrite (slice_shift' pre d (length pre + o + 4) (o + 4)) by lia.
  destruct (decode_utf8 (slice d (o + 4) (Z.to_nat l1))) as [s1|e]; [|reflexivity].
  rewrite !bind_Ok. cbv beta zeta.
  rewrite (slice_shift' pre d (length pre + o + 4 + Z.to_nat l1) (o + 4 + Z.to_nat l1)) by lia.
  destruct (unpack_I (slice d (o + 4 + Z.to_nat l1) 4)) as [l2|e]; [|reflexivity].
  rewrite !bind_Ok. cbv beta zeta.
  rewrite (slice_shift' pre d (length pre + o + 4 + Z.to_nat l1 + 4) (o + 4 + Z.to_nat l1 + 4)) by lia.
  destruct (decode_utf8 (slice d (o + 4 + Z.to_nat l1 + 4) (Z.to_nat l2)))
    as [s2|e]; [|reflexivity].
  rewrite !bind_Ok. cbv beta zeta.
  replace (length pre + o + 4 + Z.to_nat l1 + 4 + Z.to_nat l2)
    with (length pre + (o + 4 + Z.to_nat l1 + 4 + Z.to_nat l2)) by lia.
  apply IH.
Qed.

Lemma read_type_shift pre d o :
  read_type (pre ++ d) (length pre + o)
  = shift_result (length pre) (read_type d o).
Proof.
  unfold read_type. rewrite slice_shift.
  destruct (unpack_I (slice d o 4)) as [l1|e]; [|reflexivity].
  rewrite !bind_Ok. cbv beta zeta.
  rewrite (slice_shift' pre d (length pre + o + 4) (o + 4)) by lia.
  destruct (decode_utf8 (slice d (o + 4) (Z.to_nat l1))) as [s1|e]; [|reflexivity].
  rewrite !bind_Ok. cbv beta zeta.
  rewrite (slice_shift' pre d (length pre + o + 4 + Z.to_nat l1) (o + 4 + Z.to_nat l1)) by lia.
  destruct (unpack_I (slice d (o + 4 + Z.to_nat l1) 4)) as [nf|e]; [|reflexivity].
  rewrite !bind_Ok. cbv beta zeta.
  rewrite (slice_shift' pre d (length pre + o + 4 + Z.to_nat l1 + 4) (o + 4 + Z.to_nat l1 + 4)) by lia.
  destruct (unpack_I (slice d (o + 4 + Z.to_nat l1 + 4) 4)) as [pk|e]; [|reflexivity].
  rewrite !bind_Ok. cbv beta zeta.
  replace (length pre + o + 4 + Z.to_nat l1 + 4 + 4)
    with (length pre + (o + 4 + Z.to_nat l1 + 4 + 4)) by lia.
  rewrite read_fields_shift.
  destruct (read_fields (Z.to_nat nf) d (o + 4 + Z.to_nat l1 + 4 + 4) [])
    as [[fs o']|e]; reflexivity.
Qed.

Lemma slice_seg {A} (pre b rest data : list A) o n :
  data = pre ++ b ++ rest -> o = length pre -> n = length b ->
  slice data o n = b.
Proof. intros -> -> ->. apply slice_app_exact. Qed.

Ltac slice_is pre b rest :=
  match goal with
  | |- context [slice ?data ?o ?n] =>
      let S := fresh "S" in
      assert (S : slice data o n = b)
        by (apply (slice_seg pre b rest);
            first [ rewrite <- ?app_assoc; reflexivity
                  | rewrite ?length_app; cbn [length]; lia ]);
      rewrite S; clear S
  end.

Ltac seg_side :=
  first [ rewrite <- ?app_assoc; reflexivity
        | rewrite ?length_app; cbn [length]; lia ].

Lemma short_ascii_facts s :
  short_ascii s = true ->
  encode_utf8 s = Ok (map byte_of_N s)
  /\ decode_utf8 (map byte_of_N s) = Ok s
  /\ pack_I (Z.of_nat (length s)) = Ok (le_bytes 4 (Z.of_nat (length s)))
  /\ unpack_I (le_bytes 4 (Z.of_nat (length s))) = Ok (Z.of_nat (length s)).
Proof.
  unfold short_ascii. intros [Ha Hl%Z.ltb_lt]%andb_true_iff.
  repeat split.
  - apply encode_utf8_ascii, Ha.
  - apply decode_utf8_ascii, Ha.
  - apply pack_I_ok. lia.
  - apply unpack_I_le_bytes. lia.
Qed.

Lemma run_writes_oks bs : forall ws out,
  run_writes (map Ok bs ++ ws) out = run_writes ws (out ++ concat bs).
Proof.
  induction bs as [|b bs IH]; intros ws out; cbn [map app run_writes concat].
  - rewrite app_nil_r. reflexivity.
  - rewrite IH, app_assoc. reflexivity.
Qed.

Lemma field_writes_ok f :
  short_ascii f.1 && short_ascii f.2 = true ->
  field_writes f
  = map Ok [le_bytes 4 (Z.of_nat (length f.1)); map byte_of_N f.1;
            le_bytes 4 (Z.of_nat (length f.2)); map byte_of_N f.2].
Proof.
  destruct f as [fname ftype]. cbn [fst snd].
  intros [H1 H2]%andb_true_iff.
  destruct (short_ascii_facts _ H1) as (E1 & _ & P1 & _).
  destruct (short_ascii_facts _ H2) as (E2 & _ & P2 & _).
  unfold field_writes. rewrite E1, E2, !bind_Ok, !length_map, P1, P2.
  reflexivity.
Qed.

Lemma fields_writes_ok fs :
  forallb (fun f => short_ascii f.1 && short_ascii f.2) fs = true ->
  exists bs, flat_map field_writes fs = map Ok bs
             /\ concat bs = flat_map field_bytes fs.
Proof.
  induction fs as [|f fs IH]; cbn [forallb flat_map].
  - intros _. exists []. split; reflexivity.
  - intros [Hf Hfs]%andb_true_iff. destruct (IH Hfs) as (bs & E1 & E2).
    rewrite (field_writes_ok f Hf), E1, <- map_app. eexists. split; [reflexivity|].
    rewrite concat_app, E2. unfold field_bytes. cbn [concat app].
    rewrite app_nil_r, <- !app_assoc. reflexivity.
Qed.

Lemma type_writes_ok e ws out :
  type_storable e = true ->
  run_writes (type_writes e ++ ws) out = run_writes ws (out ++ type_bytes e).
Proof.
  destruct e as [name ti]. unfold type_storable. cbn [fst snd].
  intros [[[[Hn Hfs]%andb_true_iff Hl]%andb_true_iff Hpk]%andb_true_iff _]%andb_true_iff.
  destruct (short_ascii_facts _ Hn) as (E1 & _ & P1 & _).
  destruct (fields_writes_ok _ Hfs) as (bs & Ebs & Ecat).
  apply Z.ltb_lt in Hl. apply andb_true_iff in Hpk as [Hp1%Z.leb_le Hp2%Z.ltb_lt].
  unfold type_writes. rewrite E1, !bind_Ok, length_map, P1.
  rewrite (pack_I_ok (Z.of_nat (length (fields ti)))) by lia.
  rewrite (pack_I_ok (primary_key_order ti)) by lia.
  rewrite Ebs.
  change ([Ok ?a; Ok ?b; Ok ?c; Ok ?d] ++ map Ok bs)
    with (map (@Ok bytes) ([a; b; c; d] ++ bs)).
  rewrite run_writes_oks. f_equal. f_equal.
  unfold type_bytes. cbn [fst snd]. rewrite concat_app, Ecat. cbn [concat].
  rewrite app_nil_r, <- !app_assoc. reflexivity.
Qed.

Lemma catalog_writes_ok cat : forall out,
  forallb type_storable cat = true ->
  run_writes (flat_map type_writes cat) out
  = (Ok tt, out ++ flat_map type_bytes cat).
Proof.
  induction cat as [|e cat IH]; intros out; cbn [forallb flat_map].
  - intros _. cbn. rewrite app_nil_r. reflexivity.
  - intros [He Hcat]%andb_true_iff.
    rewrite (type_writes_ok e _ out He), (IH _ Hcat), <- app_assoc. reflexivity.
Qed.

Lemma catalog_bytes_storable cat :
  catalog_storable cat = true ->
  catalog_bytes cat = flat_map type_bytes cat.
Proof.
  unfold catalog_storable, catalog_bytes. intros [_ H]%andb_true_iff.
  rewrite (catalog_writes_ok cat [] H). reflexivity.
Qed.

Lemma length_field_bytes f :
  length (field_bytes f) = 8 + length f.1 + length f.2.
Proof.
  unfold field_bytes. rewrite !length_app, !length_le_bytes, !length_map. lia.
Qed.

Lemma read_fields_bytes fs : forall rest acc,
  forallb (fun f => short_ascii f.1 && short_ascii f.2) fs = true ->
  read_fields (length fs) (flat_map field_bytes fs ++ rest) 0 acc
  = Ok (acc ++ fs, length (flat_map field_bytes fs)).
Proof.
  induction fs as [|f fs IH]; intros rest acc; cbn [forallb flat_map length].
  - intros _. cbn. rewrite app_nil_r. reflexivity.
  - intros [Hf Hfs]%andb_true_iff.
    pose proof (length_field_bytes f) as Hlf.
    destruct f as [fname ftype]. cbn [fst snd] in *.
    apply andb_true_iff in Hf as [H1 H2].
    destruct (short_ascii_facts _ H1) as (_ & D1 & _ & U1).
    destruct (short_ascii_facts _ H2) as (_ & D2 & _ & U2).
    set (b1 := le_bytes 4 (Z.of_nat (length fname))) in *.
    set (b2 := map byte_of_N fname) in *.
    set (b3 := le_bytes 4 (Z.of_nat (length ftype))) in *.
    set (b4 := map byte_of_N ftype) in *.
    set (tail := flat_map field_bytes fs ++ rest).
    assert (Hd : field_bytes (fname, ftype) ++ flat_map field_bytes fs ++ rest
                 = b1 ++ b2 ++ b3 ++ b4 ++ tail).
    { unfold field_bytes. cbn [fst snd]. rewrite <- !app_assoc. reflexivity. }
    assert (L1 : length b1 = 4) by apply length_le_bytes.
    assert (L2 : length b2 = length fname) by apply length_map.
    assert (L3 : length b3 = 4) by apply length_le_bytes.
    assert (L4 : length b4 = length ftype) by apply length_map.
    rewrite <- app_assoc, Hd.
    cbn [read_fields].
    slice_is (@nil byte) b1 (b2 ++ b3 ++ b4 ++ tail).
    rewrite U1, bind_Ok. cbv beta zeta. rewrite Nat2Z.id.
    slice_is b1 b2 (b3 ++ b4 ++ tail).
    rewrite D1, bind_Ok. cbv beta zeta.
    slice_is (b1 ++ b2) b3 (b4 ++ tail).
    rewrite U2, bind_Ok. cbv beta zeta. rewrite Nat2Z.id.
    slice_is (b1 ++ b2 ++ b3) b4 tail.
    rewrite D2, bind_Ok. cbv beta zeta.
    replace (0 + 4 + length fname + 4 + length ftype)
      with (length (field_bytes (fname, ftype)) + 0) by lia.
    rewrite <- Hd.
    rewrite read_fields_shift, (IH rest _ Hfs). cbn [shift_result].
    rewrite <- app_assoc, length_app. reflexivity.
Qed.

Lemma length_type_bytes e :
  length (type_bytes e)
  = 12 + length e.1 + length (flat_map field_bytes (fields e.2)).
Proof.
  unfold type_bytes. rewrite !length_app, !length_le_bytes, !length_map. lia.
Qed.

Lemma read_type_bytes e rest :
  type_storable e = true ->
  read_type (type_bytes e ++ rest) 0 = Ok (e.1, e.2, length (type_bytes e)).
Proof.
  pose proof (length_type_bytes e) as Hlt.
  destruct e as [name ti]. unfold type_storable. cbn [fst snd] in *.
  intros [[[[Hn Hfs]%andb_true_iff Hl]%andb_true_iff Hpk]%andb_true_iff Hrs]%andb_true_iff.
  destruct (short_ascii_facts _ Hn) as (_ & D1 & _ & U1).
  apply Z.ltb_lt in Hl. apply andb_true_iff in Hpk as [Hp1%Z.leb_le Hp2%Z.ltb_lt].
  apply Nat.eqb_eq in Hrs.
  set (b1 := le_bytes 4 (Z.of_nat (length name))) in *.
  set (b2 := map byte_of_N name) in *.
  set (b3 := le_bytes 4 (Z.of_nat (length (fields ti)))).
  set (b4 := le_bytes 4 (primary_key_order ti)).
  set (tail := flat_map field_bytes (fields ti) ++ rest).
  assert (Hd : type_bytes (name, ti) ++ rest = b1 ++ b2 ++ b3 ++ b4 ++ tail).
  { unfold type_bytes. cbn [fst snd]. rewrite <- !app_assoc. reflexivity. }
  assert (L1 : length b1 = 4) by apply length_le_bytes.
  assert (L2 : length b2 = length name) by apply length_map.
  assert (L3 : length b3 = 4) by apply length_le_bytes.
  assert (L4 : length b4 = 4) by apply length_le_bytes.
  assert (U3 : unpack_I b3 = Ok (Z.of_nat (length (fields ti))))
    by (apply unpack_I_le_bytes; lia).
  assert (U4 : unpack_I b4 = Ok (primary_key_order ti))
    by (apply unpack_I_le_bytes; lia).
  rewrite Hd. unfold read_type.
  slice_is (@nil byte) b1 (b2 ++ b3 ++ b4 ++ tail).
  rewrite U1, bind_Ok. cbv beta zeta. rewrite Nat2Z.id.
  slice_is b1 b2 (b3 ++ b4 ++ tail).
  rewrite D1, bind_Ok. cbv beta zeta.
  slice_is (b1 ++ b2) b3 (b4 ++ tail).
  rewrite U3, bind_Ok. cbv beta zeta. rewrite Nat2Z.id.
  slice_is (b1 ++ b2 ++ b3) b4 tail.
  rewrite U4, bind_Ok. cbv beta zeta.
  replace (b1 ++ b2 ++ b3 ++ b4 ++ tail) with ((b1 ++ b2 ++ b3 ++ b4) ++ tail)
    by (rewrite <- !app_assoc; reflexivity).
  replace (0 + 4 + length name + 4 + 4) with (length (b1 ++ b2 ++ b3 ++ b4) + 0)
    by (rewrite !length_app; lia).
  rewrite read_fields_shift. unfold tail.
  rewrite (read_fields_bytes _ rest [] Hfs). cbn [shift_result app].
  rewrite bind_Ok. rewrite <- Hrs.
  destruct ti as [fs pk rs]. cbn [fields primary_key_order record_size] in *.
  do 2 f_equal. rewrite !length_app. lia.
Qed.

Lemma dict_get_app_None {V} (d : list (pystr * V)) k v :
  k ∉ map fst d -> dict_set d k v = d ++ [(k, v)].
Proof.
  induction d as [|[k' v'] d IH]; cbn [map dict_set app fst]; [reflexivity|].
  intros Hk. apply not_elem_of_cons in Hk as [Hne Hk].
  unfold pystr_eqb. rewrite bool_decide_eq_false_2 by congruence.
  rewrite (IH Hk). reflexivity.
Qed.

(** Loading the saved form of a catalog gives the catalog back; what
    follows the saved entries is either nothing or bytes on which the next
    pass raises. *)
Lemma load_types_bytes cat : forall fuel pre acc junk,
  forallb type_storable cat = true ->
  NoDup (map fst acc ++ map fst cat) ->
  length cat < fuel ->
  (junk = [] \/ exists e, read_type junk 0 = Raise e) ->
  load_types fuel (pre ++ flat_map type_bytes cat ++ junk) (length pre) acc
  = acc ++ cat.
Proof.
  induction cat as [|e cat IH]; intros fuel pre acc junk Hst Hnd Hfuel Hjunk.
  - cbn [flat_map app]. rewrite app_nil_r.
    destruct fuel as [|fuel]; [cbn in Hfuel; lia|]. cbn [load_types].
    destruct Hjunk as [->|[e He]].
    + rewrite app_nil_r, Nat.ltb_irrefl. reflexivity.
    + destruct (length pre <? length (pre ++ junk)); [|reflexivity].
      rewrite <- (Nat.add_0_r (length pre)), read_type_shift, He. reflexivity.
  - cbn [forallb flat_map length map] in *.
    apply andb_true_iff in Hst as [He Hst].
    destruct fuel as [|fuel]; [lia|]. cbn [load_types].
    pose proof (length_type_bytes e) as Hlt.
    replace (length pre <? _) with true
      by (symmetry; apply Nat.ltb_lt; rewrite !length_app; lia).
    rewrite <- (Nat.add_0_r (length pre)) at 1.
    rewrite read_type_shift, <- app_assoc, (read_type_bytes e _ He).
    cbn [shift_result]. destruct e as [name ti]. cbn [fst snd] in *.
    apply NoDup_app in Hnd as (Hnd1 & Hnd2 & Hnd3).
    apply NoDup_cons in Hnd3 as [Hn3 Hnd3].
    rewrite dict_get_app_None
      by (intros Hin; apply (Hnd2 _ Hin); left).
    replace (length pre + length (type_bytes (name, ti)))
      with (length (pre ++ type_bytes (name, ti))) by (rewrite length_app; lia).
    rewrite (app_assoc pre), (IH fuel _ _ junk Hst); [| |lia|exact Hjunk].
    + rewrite <- app_assoc. reflexivity.
    + rewrite map_app. cbn [map fst]. apply NoDup_app. repeat split.
      * apply NoDup_app. repeat split; [exact Hnd1| |apply NoDup_singleton].
        intros x Hx Hx'%list_elem_of_singleton. subst x.
        apply (Hnd2 _ Hx). left.
      * intros x [Hx|Hx%list_elem_of_singleton]%elem_of_app Hx'.
        -- apply (Hnd2 _ Hx). right. exact Hx'.
        -- subst x. contradiction.
      * exact Hnd3.
Qed.

Lemma length_catalog_bytes cat : length cat <= length (flat_map type_bytes cat).
Proof.
  induction cat as [|e cat IH]; cbn [flat_map length]; [lia|].
  rewrite length_app, length_type_bytes. lia.
Qed.

Lemma load_raises_bytes cat : forall fuel pre junk e,
  forallb type_storable cat = true ->
  length cat < fuel ->
  read_type junk 0 = Raise e ->
  junk <> [] ->
  load_raises fuel (pre ++ flat_map type_bytes cat ++ junk) (length pre) = true.
Proof.
  induction cat as [|t cat IH]; intros fuel pre junk e Hst Hfuel Hjunk Hne.
  - cbn [flat_map app].
    destruct fuel as [|fuel]; [cbn in Hfuel; lia|]. cbn [load_raises].
    replace (length pre <? _) with true.
    + rewrite <- (Nat.add_0_r (length pre)), read_type_shift, Hjunk. reflexivity.
    + symmetry. apply Nat.ltb_lt. rewrite length_app.
      destruct junk; [contradiction | cbn; lia].
  - cbn [forallb flat_map length] in *.
    apply andb_true_iff in Hst as [Ht Hst].
    destruct fuel as [|fuel]; [lia|]. cbn [load_raises].
    pose proof (length_type_bytes t) as Hlt.
    replace (length pre <? _) with true
      by (symmetry; apply Nat.ltb_lt; rewrite !length_app; lia).
    rewrite <- (Nat.add_0_r (length pre)) at 1.
    rewrite read_type_shift, <- app_assoc, (read_type_bytes t _ Ht).
    cbn [shift_result].
    replace (length pre + length (type_bytes t))
      with (length (pre ++ type_bytes t)) by (rewrite length_app; lia).
    rewrite (app_assoc pre). apply (IH fuel _ junk e); auto. lia.
Qed.

(** C3, counterexample: one saved type followed by a stray byte is a
    malformed file, and the type is still in the catalog after loading. *)
Lemma load_keeps_first_type : ~ load_discards_everything.
Proof.
  intros H.
  specialize (H {[ catalog_file :=
                     catalog_bytes (catalog one_int_archive) ++ [x07] ]}
                (catalog_bytes (catalog one_int_archive) ++ [x07])).
  assert (E : catalog (init {[ catalog_file :=
                     catalog_bytes (catalog one_int_archive) ++ [x07] ]})
              = catalog one_int_archive) by (vm_compute; reflexivity).
  rewrite E in H.
  assert (Hne : catalog one_int_archive <> []) by (vm_compute; discriminate).
  apply Hne, H; [apply lookup_singleton_eq | vm_compute; reflexivity].
Qed.

(** C3, amended: loading keeps every schema that was read before the
    malformed point. For a file that holds the saved form of a catalog
    followed by bytes on which the next pass raises, the loaded catalog is
    exactly that catalog; it is empty only when nothing was saved before
    the malformed bytes. *)
Theorem load_keeps_parsed_types (fs : gmap pystr bytes) cat junk e :
  catalog_storable cat = true ->
  read_type junk 0 = Raise e ->
  junk <> [] ->
  fs !! catalog_file = Some (catalog_bytes cat ++ junk) ->
  malformed (catalog_bytes cat ++ junk) = true
  /\ catalog (init fs) = cat.
Proof.
  intros Hst Hjunk Hne Hfs.
  pose proof (catalog_bytes_storable cat Hst) as Hb.
  apply andb_true_iff in Hst as [Hnd%bool_decide_eq_true Hst].
  pose proof (length_catalog_bytes cat) as Hlen.
  assert (Hj : 0 < length junk) by (destruct junk; [contradiction | cbn; lia]).
  split.
  - unfold malformed. rewrite Hb.
    apply (load_raises_bytes cat _ [] junk e); auto.
    rewrite length_app. lia.
  - unfold init, _load_catalog. cbn [files catalog]. rewrite Hfs. cbn [catalog].
    rewrite Hb.
    apply (load_types_bytes cat _ [] [] junk); auto.
    + rewrite length_app. lia.
    + right. eauto.
Qed.

Lemma load_keeps_parsed_types_witness :
  malformed (catalog_bytes (catalog two_field_archive) ++ [x2a]) = true
  /\ catalog (init {[ catalog_file :=
                        catalog_bytes (catalog two_field_archive) ++ [x2a] ]})
     = catalog two_field_archive.
Proof.
  apply (load_keeps_parsed_types _ (catalog two_field_archive) [x2a] StructError).
  - vm_compute. reflexivity.
  - vm_compute. reflexivity.
  - discriminate.
  - apply lookup_singleton_eq.
Defined.

(** The loop bound of [load_types] is never the reason to stop: a pass
    that does not raise moves the offset forward. *)
Lemma read_fields_advances n : forall data o acc fs o',
  read_fields n data o acc = Ok (fs, o') -> o <= o'.
Proof.
  induction n as [|n IH]; intros data o acc fs o' H.
  - cbn in H. injection H as _ <-. lia.
  - cbn [read_fields] in H. do 4 bind_inv H. apply IH in H. lia.
Qed.

Lemma read_type_advances data o name ti o' :
  read_type data o = Ok (name, ti, o') -> o + 12 <= o'.
Proof.
  unfold read_type. intros H. do 5 bind_inv H.
  destruct x3 as [fs o1]. apply read_fields_advances in E3.
  injection H as _ _ <-. lia.
Qed.

Lemma load_types_fuel fuel : forall data offset cat,
  length data - offset <= fuel ->
  load_types (S fuel) data offset cat = load_types fuel data offset cat.
Proof.
  induction fuel as [|fuel IH]; intros data offset cat Hf.
  - cbn [load_types]. destruct (Nat.ltb_spec offset (length data)); [lia|reflexivity].
  - remember (S fuel) as k. cbn [load_types]. subst k. cbn [load_types].
    destruct (Nat.ltb_spec offset (length data)) as [Hlt|]; [|reflexivity].
    destruct (read_type data offset) as [[[name ti] o']|e] eqn:E; [|reflexivity].
    apply read_type_advances in E. apply IH. lia.
Qed.

(** ** Search *)

Lemma first_match_app l1 l2 idx key :
  first_match (l1 ++ l2) idx key
  = match first_match l1 idx key with
    | Ok None => first_match l2 idx key
    | r => r
    end.
Proof.
  induction l1 as [|r l1 IH]; cbn [app first_match]; [reflexivity|].
  destruct r as [values|e]; [|reflexivity]. rewrite !bind_Ok.
  destruct (key_matches values idx key) as [[|]|e] eqn:E; rewrite ?bind_Ok.
  - destruct values as [vs|]; [reflexivity | discriminate E].
  - exact IH.
  - reflexivity.
Qed.

Lemma search_slots_first_match a type_name ti page_data bitmap key slots :
  search_slots a type_name ti page_data bitmap key slots
  = first_match
      (flat_map
         (fun slot =>
            if bit_set bitmap slot
            then [_deserialize_record a type_name
                    (slice page_data (12 + slot * record_size ti) (record_size ti))]
            else [])
         slots)
      (primary_key_order ti - 1)%Z key.
Proof.
  induction slots as [|slot rest IH]; cbn [search_slots flat_map]; [reflexivity|].
  destruct (bit_set bitmap slot); [|exact IH].
  cbn [app first_match].
  destruct (_deserialize_record _ _ _) as [values|e]; [|reflexivity].
  rewrite !bind_Ok.
  destruct (key_matches values _ key) as [[|]|e]; rewrite ?bind_Ok;
    [reflexivity|exact IH|reflexivity].
Qed.

Lemma search_pages_first_match a type_name ti key n : forall page_number,
  search_pages n a type_name ti key page_number
  = first_match (flat_map (page_records a type_name ti) (seq page_number n))
      (primary_key_order ti - 1)%Z key.
Proof.
  induction n as [|n IH]; intros page_number; [reflexivity|].
  cbn [search_pages seq flat_map]. rewrite first_match_app, <- IH.
  unfold page_records.
  destruct (_load_page a type_name page_number) as [[[[page_data|] num_records] bitmap]|e];
    [| reflexivity | reflexivity].
  rewrite bind_Ok.
  destruct (num_records =? 0)%Z; [reflexivity|].
  rewrite search_slots_first_match.
  destruct (first_match _ _ key) as [[values|]|e]; reflexivity.
Qed.

(** ** Two spellings of one key *)

(** C1, at the failing input: after [create record T 7], the call
    [create record T 07] also succeeds, and the file holds two valid
    records whose primary key reads back as ["7"]. *)
Theorem key_7_stored_twice :
  (create_record one_int_archive (lit "T") [lit "7"]).1 = Ok true
  /\ (create_record after_7 (lit "T") [lit "07"]).1 = Ok true
  /\ live_records after_07 (lit "T")
       {| fields := [(lit "id", t_int)]; primary_key_order := 1; record_size := 5 |}
     = [Ok (Some [lit "7"]); Ok (Some [lit "7"])].
Proof. vm_compute. repeat split; reflexivity. Qed.

(** C8, at the failing input: with the key 7 stored twice, deleting ["7"]
    succeeds, and right after it [search_record] still finds a record with
    that key and [create_record] with that key is refused. *)
Theorem delete_leaves_second_7 :
  (delete_record after_07 (lit "T") (lit "7")).1 = Ok true
  /\ search_record after_delete_7 (lit "T") (lit "7") = Ok (Some [lit "7"])
  /\ (create_record after_delete_7 (lit "T") [lit "7"]).1 = Ok false.
Proof. vm_compute. repeat split; reflexivity. Qed.

(** ** Capacity *)

Lemma find_free_slot_full bitmap :
  forallb (bit_set bitmap) (seq 0 MAX_RECORDS_PER_PAGE) = true ->
  find_free_slot bitmap = None.
Proof.
  unfold find_free_slot. generalize (seq 0 MAX_RECORDS_PER_PAGE) as slots.
  induction slots as [|s slots IH]; cbn [forallb find]; [reflexivity|].
  intros [Hs Hrest]%andb_true_iff. rewrite Hs. cbn [negb]. exact (IH Hrest).
Qed.

Lemma place_record_full a type_name ti record_data n : forall page_number,
  forallb (page_is_full a type_name) (seq page_number n) = true ->
  place_record n a type_name ti record_data page_number = (Ok false, a).
Proof.
  induction n as [|n IH]; intros page_number; [reflexivity|].
  cbn [seq forallb place_record]. intros [Hp Hrest]%andb_true_iff.
  unfold page_is_full in Hp. unfold fetch_page.
  destruct (_load_page a type_name page_number)
    as [[[[page_data|] num_records] bitmap]|e]; try discriminate.
  rewrite bind_Ok, (find_free_slot_full bitmap Hp). exact (IH _ Hrest).
Qed.



(** ** Slices and slice assignment *)

Lemma length_slice {A} (l : list A) a n :
  length (slice l a n) = min n (length l - a).
Proof. unfold slice. rewrite length_take, length_drop. reflexivity. Qed.

Lemma slice_app_l {A} (l1 l2 : list A) a n :
  a + n <= length l1 -> slice (l1 ++ l2) a n = slice l1 a n.
Proof.
  intros H. unfold slice. rewrite drop_app_le by lia.
  apply take_app_le. rewrite length_drop. lia.
Qed.

Lemma slice_app_r {A} (l1 l2 : list A) a n :
  length l1 <= a -> slice (l1 ++ l2) a n = slice l2 (a - length l1) n.
Proof. intros H. unfold slice. rewrite drop_app_ge by lia. reflexivity. Qed.

Lemma slice_take {A} (l : list A) m a n :
  a + n <= m -> slice (take m l) a n = slice l a n.
Proof.
  intros H. unfold slice.
  rewrite <- (take_drop m l) at 2.
  destruct (Nat.le_gt_cases (length l) m) as [Hl|Hl].
  - rewrite (take_ge l m), (drop_ge l m), app_nil_r by lia. reflexivity.
  - rewrite drop_app_le by (rewrite length_take; lia).
    rewrite take_app_le by (rewrite length_drop, length_take; lia). reflexivity.
Qed.

Lemma slice_drop {A} (l : list A) m a n :
  slice (drop m l) a n = slice l (m + a) n.
Proof. unfold slice. rewrite drop_drop. reflexivity. Qed.

Lemma slice_all {A} (l : list A) n : length l <= n -> slice l 0 n = l.
Proof. intros H. unfold slice. rewrite drop_0. apply take_ge. exact H. Qed.

Lemma slice_lookup {A} (l : list A) a n i :
  i < n -> slice l a n !! i = l !! (a + i).
Proof.
  intros H. unfold slice. rewrite lookup_take_lt by exact H.
  apply lookup_drop.
Qed.

Lemma slice_slice {A} (l : list A) a n b m :
  b + m <= n -> slice (slice l a n) b m = slice l (a + b) m.
Proof.
  intros H. unfold slice at 2. rewrite slice_take by exact H. apply slice_drop.
Qed.

Section SliceAssign.
Context {A : Type} (l r : list A) (a b : nat).
Hypothesis Hab : a <= b.
Hypothesis Hb : b <= length l.
Hypothesis Hr : length r = b - a.

Lemma length_slice_assign : length (slice_assign l a b r) = length l.
Proof.
  unfold slice_assign. rewrite !length_app, length_take, length_drop. lia.
Qed.

Lemma slice_assign_here : slice (slice_assign l a b r) a (b - a) = r.
Proof.
  unfold slice_assign. rewrite slice_app_r by (rewrite length_take; lia).
  rewrite length_take. replace (a - a `min` length l) with 0 by lia.
  rewrite slice_app_l by lia. apply slice_all. lia.
Qed.

Lemma slice_assign_before a' n :
  a' + n <= a -> slice (slice_assign l a b r) a' n = slice l a' n.
Proof.
  intros H. unfold slice_assign.
  rewrite slice_app_l by (rewrite length_take; lia). apply slice_take. exact H.
Qed.

Lemma slice_assign_after a' n :
  b <= a' -> slice (slice_assign l a b r) a' n = slice l a' n.
Proof.
  intros H. unfold slice_assign.
  rewrite slice_app_r by (rewrite length_take; lia).
  rewrite length_take.
  rewrite slice_app_r by lia. rewrite slice_drop. f_equal. lia.
Qed.

Lemma lookup_slice_assign_before i :
  i < a -> slice_assign l a b r !! i = l !! i.
Proof.
  intros H. unfold slice_assign.
  rewrite lookup_app_l by (rewrite length_take; lia).
  apply lookup_take_lt. exact H.
Qed.

Lemma lookup_slice_assign_after i :
  b <= i -> slice_assign l a b r !! i = l !! i.
Proof.
  intros H. unfold slice_assign.
  rewrite lookup_app_r by (rewrite length_take; lia).
  rewrite length_take.
  rewrite lookup_app_r by lia. rewrite lookup_drop. f_equal. lia.
Qed.

Lemma lookup_slice_assign_here i :
  i < b - a -> slice_assign l a b r !! (a + i) = r !! i.
Proof.
  intros H. unfold slice_assign.
  rewrite lookup_app_r by (rewrite length_take; lia).
  rewrite length_take. rewrite lookup_app_l by lia. f_equal. lia.
Qed.
End SliceAssign.

Lemma insert_as_slice_assign {A} (l : list A) i x :
  i < length l -> <[i := x]> l = slice_assign l i (S i) [x].
Proof. intros H. unfold slice_assign. apply insert_take_drop. exact H. Qed.

(** ** Bitmaps *)

Lemma bit_set_testbit bitmap slot :
  bit_set bitmap slot = Z.testbit bitmap (Z.of_nat slot).
Proof.
  unfold bit_set. rewrite Z.shiftl_1_l.
  destruct (Z.testbit bitmap (Z.of_nat slot)) eqn:E.
  - apply negb_true_iff, Z.eqb_neq. intros H.
    apply (f_equal (fun z => Z.testbit z (Z.of_nat slot))) in H.
    rewrite Z.land_spec, E, Z.pow2_bits_true, Z.bits_0 in H by lia. discriminate.
  - apply negb_false_iff, Z.eqb_eq. apply Z.bits_inj'. intros n Hn.
    rewrite Z.land_spec, Z.bits_0, Z.pow2_bits_eqb by lia.
    destruct (Z.eqb_spec (Z.of_nat slot) n) as [<-|]; [rewrite E|];
      auto using andb_false_r.
Qed.

Lemma bit_set_lor bitmap s s' :
  bit_set (Z.lor bitmap (Z.shiftl 1 (Z.of_nat s))) s'
  = bit_set bitmap s' || (s =? s').
Proof.
  rewrite !bit_set_testbit, Z.lor_spec, Z.shiftl_1_l, Z.pow2_bits_eqb by lia.
  f_equal. destruct (Nat.eqb_spec s s'), (Z.eqb_spec (Z.of_nat s) (Z.of_nat s')); lia || reflexivity.
Qed.

Lemma bit_set_clear bitmap s s' :
  bit_set (Z.land bitmap (Z.lnot (Z.shiftl 1 (Z.of_nat s)))) s'
  = bit_set bitmap s' && negb (s =? s').
Proof.
  rewrite !bit_set_testbit, Z.land_spec, Z.lnot_spec, Z.shiftl_1_l,
    Z.pow2_bits_eqb by lia.
  f_equal. destruct (Nat.eqb_spec s s'), (Z.eqb_spec (Z.of_nat s) (Z.of_nat s')); lia || reflexivity.
Qed.

Lemma lor_bit_bound bitmap s :
  (0 <= bitmap < 2 ^ 32)%Z -> s < MAX_RECORDS_PER_PAGE ->
  (0 <= Z.lor bitmap (Z.shiftl 1 (Z.of_nat s)) < 2 ^ 32)%Z.
Proof.
  intros [H0 H1] Hs. unfold MAX_RECORDS_PER_PAGE in Hs.
  rewrite Z.shiftl_1_l.
  assert (H2 : (0 <= 2 ^ Z.of_nat s)%Z) by (apply Z.pow_nonneg; lia).
  split; [apply Z.lor_nonneg; lia|].
  apply (Z.bounded_iff_bits_nonneg 32); [lia | apply Z.lor_nonneg; lia|].
  intros l Hl. rewrite Z.lor_spec, Z.pow2_bits_eqb by lia.
  rewrite (proj1 (Z.bounded_iff_bits_nonneg 32 bitmap ltac:(lia) H0) H1 l Hl).
  apply Z.eqb_neq. lia.
Qed.

Lemma land_clear_bound bitmap s :
  (0 <= bitmap < 2 ^ 32)%Z ->
  (0 <= Z.land bitmap (Z.lnot (Z.shiftl 1 (Z.of_nat s))) < 2 ^ 32)%Z.
Proof.
  intros [H0 H1].
  assert (Hn : (0 <= Z.land bitmap (Z.lnot (Z.shiftl 1 (Z.of_nat s))))%Z)
    by (apply Z.land_nonneg; left; exact H0).
  split; [exact Hn|].
  apply (Z.bounded_iff_bits_nonneg 32); [lia | exact Hn|].
  intros l Hl. rewrite Z.land_spec.
  rewrite (proj1 (Z.bounded_iff_bits_nonneg 32 bitmap ltac:(lia) H0) H1 l Hl).
  reflexivity.
Qed.

Lemma filter_count_flip (f g : nat -> bool) l s :
  NoDup l -> s ∈ l ->
  (forall x, x ∈ l -> x <> s -> g x = f x) ->
  f s = false -> g s = true ->
  length (List.filter g l) = S (length (List.filter f l)).
Proof.
  intros Hnd Hin Hsame Hf Hg. induction l as [|x l IH]; [inversion Hin|].
  apply NoDup_cons in Hnd as [Hx Hnd]. cbn [List.filter].
  destruct (decide (x = s)) as [->|Hne].
  - rewrite Hf, Hg. cbn [length]. f_equal.
    f_equal. apply filter_ext_in. intros y Hy%list_elem_of_In.
    apply Hsame; [right; exact Hy|]. intros ->. contradiction.
  - rewrite (Hsame x ltac:(left) Hne).
    assert (IH' : length (List.filter g l) = S (length (List.filter f l))).
    { apply IH; [exact Hnd| |].
      - apply elem_of_cons in Hin as [->|]; [contradiction|assumption].
      - intros y Hy. apply Hsame. right. exact Hy. }
    destruct (f x); cbn [length]; lia.
Qed.

Lemma set_bits_lor bitmap s :
  s < MAX_RECORDS_PER_PAGE -> bit_set bitmap s = false ->
  set_bits (Z.lor bitmap (Z.shiftl 1 (Z.of_nat s))) = S (set_bits bitmap).
Proof.
  intros Hs Hb. unfold set_bits.
  apply (filter_count_flip _ _ _ s).
  - apply NoDup_seq.
  - apply elem_of_seq. lia.
  - intros x _ Hne. rewrite bit_set_lor.
    destruct (Nat.eqb_spec s x); [congruence | apply orb_false_r].
  - exact Hb.
  - rewrite bit_set_lor, Nat.eqb_refl. apply orb_true_r.
Qed.

Lemma set_bits_clear bitmap s :
  s < MAX_RECORDS_PER_PAGE -> bit_set bitmap s = true ->
  set_bits bitmap = S (set_bits (Z.land bitmap (Z.lnot (Z.shiftl 1 (Z.of_nat s))))).
Proof.
  intros Hs Hb. unfold set_bits.
  apply (filter_count_flip _ _ _ s).
  - apply NoDup_seq.
  - apply elem_of_seq. lia.
  - intros x _ Hne. rewrite bit_set_clear.
    destruct (Nat.eqb_spec s x); [congruence | symmetry; apply andb_true_r].
  - rewrite bit_set_clear, Nat.eqb_refl. apply andb_false_r.
  - exact Hb.
Qed.

(** ** Page headers *)

Lemma parse_page_header_ok page_data :
  12 <= length page_data ->
  _parse_page_header page_data
  = Ok (le_value (slice page_data 0 4), count_of page_data, bitmap_of page_data).
Proof.
  intros H. unfold _parse_page_header, count_of, bitmap_of.
  rewrite length_slice. replace (12 `min` (length page_data - 0)) with 12 by lia.
  rewrite Nat.eqb_refl, !slice_slice by lia. reflexivity.
Qed.

Lemma header_field_range page_data o :
  o + 4 <= length page_data ->
  (0 <= le_value (slice page_data o 4) < 2 ^ 32)%Z.
Proof.
  intros H. pose proof (le_value_range (slice page_data o 4)) as R.
  rewrite length_slice in R. replace (4 `min` (length page_data - o)) with 4 in R by lia.
  exact R.
Qed.

Lemma create_page_header_inv pn n bm hdr :
  _create_page_header pn n bm = Ok hdr ->
  hdr = le_bytes 4 pn ++ le_bytes 4 n ++ le_bytes 4 bm
  /\ (0 <= pn < 2 ^ 32)%Z /\ (0 <= n < 2 ^ 32)%Z /\ (0 <= bm < 2 ^ 32)%Z.
Proof.
  unfold _create_page_header. intros H. do 3 bind_inv H.
  apply pack_I_inv in E as [? ->], E0 as [? ->], E1 as [? ->].
  repeat split; try lia. congruence.
Qed.

Lemma create_page_header_ok pn n bm :
  (0 <= pn < 2 ^ 32)%Z -> (0 <= n < 2 ^ 32)%Z -> (0 <= bm < 2 ^ 32)%Z ->
  _create_page_header pn n bm
  = Ok (le_bytes 4 pn ++ le_bytes 4 n ++ le_bytes 4 bm).
Proof.
  intros H1 H2 H3. unfold _create_page_header.
  rewrite !pack_I_ok by assumption. reflexivity.
Qed.

Lemma le_value_le_bytes_4 z : (0 <= z < 2 ^ 32)%Z -> le_value (le_bytes 4 z) = z.
Proof.
  intros H. rewrite le_value_le_bytes. apply Z.mod_small.
  change (256 ^ Z.of_nat 4)%Z with (2 ^ 32)%Z. exact H.
Qed.

(** Writing a header over the first twelve bytes of a page. *)
Lemma header_written page_data pn n bm hdr :
  _create_page_header pn n bm = Ok hdr ->
  12 <= length page_data ->
  let page_data' := slice_assign page_data 0 12 hdr in
  length page_data' = length page_data
  /\ count_of page_data' = n
  /\ bitmap_of page_data' = bm
  /\ (forall i, 12 <= i -> page_data' !! i = page_data !! i)
  /\ (forall o m, 12 <= o -> slice page_data' o m = slice page_data o m).
Proof.
  intros Hh Hl page_data'.
  apply create_page_header_inv in Hh as (-> & Hpn & Hn & Hbm).
  set (b1 := le_bytes 4 pn). set (b2 := le_bytes 4 n). set (b3 := le_bytes 4 bm).
  assert (L1 : length b1 = 4) by apply length_le_bytes.
  assert (L2 : length b2 = 4) by apply length_le_bytes.
  assert (L3 : length b3 = 4) by apply length_le_bytes.
  assert (Lh : length (b1 ++ b2 ++ b3) = 12 - 0) by (rewrite !length_app; lia).
  assert (E : page_data' = b1 ++ b2 ++ b3 ++ drop 12 page_data).
  { unfold page_data', slice_assign. rewrite take_0, <- !app_assoc. reflexivity. }
  repeat split.
  - apply length_slice_assign; [lia | lia | exact Lh].
  - unfold count_of. rewrite E.
    rewrite (slice_seg b1 b2 (b3 ++ drop 12 page_data)) by auto.
    apply le_value_le_bytes_4, Hn.
  - unfold bitmap_of. rewrite E.
    rewrite (slice_seg (b1 ++ b2) b3 (drop 12 page_data));
      [apply le_value_le_bytes_4, Hbm | rewrite <- app_assoc; reflexivity
      | rewrite length_app; lia | lia].
  - intros i Hi. apply lookup_slice_assign_after; [lia | lia | exact Lh | lia].
  - intros o m Ho. apply slice_assign_after; [lia | lia | exact Lh | lia].
Qed.

(** ** Loading and saving pages of a whole-page file *)

Lemma length_page_at f p :
  (p + 1) * PAGE_SIZE <= length f -> length (page_at f p) = PAGE_SIZE.
Proof. intros H. unfold page_at. rewrite length_slice. lia. Qed.

Lemma load_page_absent a type_name p :
  data_file a type_name = None -> _load_page a type_name p = Ok (None, 0%Z, 0%Z).
Proof. unfold _load_page. intros ->. reflexivity. Qed.

Lemma load_page_present a type_name f p :
  data_file a type_name = Some f ->
  (p + 1) * PAGE_SIZE <= length f ->
  _load_page a type_name p
  = Ok (Some (page_at f p), count_of (page_at f p), bitmap_of (page_at f p)).
Proof.
  unfold _load_page. intros -> H.
  pose proof (length_page_at f p H) as Hl. fold (page_at f p).
  replace (length (page_at f p) <? 12) with false
    by (symmetry; apply Nat.ltb_ge; rewrite Hl; unfold PAGE_SIZE; lia).
  rewrite parse_page_header_ok by (rewrite Hl; unfold PAGE_SIZE; lia).
  reflexivity.
Qed.

Lemma load_page_beyond a type_name f p :
  data_file a type_name = Some f ->
  length f <= p * PAGE_SIZE ->
  _load_page a type_name p = Ok (None, 0%Z, 0%Z).
Proof.
  unfold _load_page. intros -> H.
  rewrite length_slice. replace (PAGE_SIZE `min` (length f - p * PAGE_SIZE)) with 0 by lia.
  reflexivity.
Qed.

Lemma data_file_path_inj t1 t2 :
  _get_data_file_path t1 = _get_data_file_path t2 -> t1 = t2.
Proof. unfold _get_data_file_path. apply app_inv_tail. Qed.

Lemma save_page_other a type_name p page_data other :
  other <> type_name ->
  data_file (_save_page a type_name p page_data) other = data_file a other.
Proof.
  intros Hne. unfold data_file, _save_page. cbn [files].
  apply lookup_insert_ne. intros H%data_file_path_inj. congruence.
Qed.

Lemma save_page_catalog a type_name p page_data :
  catalog (_save_page a type_name p page_data) = catalog a.
Proof. reflexivity. Qed.

(** The file after [_save_page], for a page of [PAGE_SIZE] bytes saved at
    or before the end of a file of [k] whole pages. *)
Lemma save_page_file a type_name p page_data f k :
  default [] (data_file a type_name) = f ->
  length f = k * PAGE_SIZE ->
  p <= k ->
  length page_data = PAGE_SIZE ->
  exists f',
    data_file (_save_page a type_name p page_data) type_name = Some f'
    /\ length f' = (k `max` (p + 1)) * PAGE_SIZE
    /\ page_at f' p = page_data
    /\ forall q, q <> p -> q < k -> page_at f' q = page_at f q.
Proof.
  intros Hf Hk Hp Hl.
  unfold data_file at 1, _save_page. cbn [files]. rewrite lookup_insert_eq.
  eexists. split; [reflexivity|].
  match goal with |- context [take _ ?F0 ++ _] => set (F := F0) end.
  assert (HF : F = f ++ zeros ((p + 1) * PAGE_SIZE - length f)).
  { unfold F.
    destruct (data_file a type_name) as [f0|]; cbn in Hf; subst f.
    - reflexivity.
    - cbn [length app]. rewrite Nat.sub_0_r. reflexivity. }
  assert (LF : length F = (k `max` (p + 1)) * PAGE_SIZE).
  { rewrite HF, length_app. unfold zeros. rewrite length_replicate.
    unfold PAGE_SIZE in *. lia. }
  clearbody F.
  assert (Lt : length (take (p * PAGE_SIZE) F) = p * PAGE_SIZE)
    by (rewrite length_take; unfold PAGE_SIZE in *; lia).
  repeat split.
  - rewrite !length_app, Lt, length_drop. unfold PAGE_SIZE in *. lia.
  - unfold page_at. rewrite slice_app_r by lia.
    rewrite Lt, Nat.sub_diag, slice_app_l by lia. apply slice_all. lia.
  - intros q Hq Hqk. unfold page_at.
    assert (Hs : slice F (q * PAGE_SIZE) PAGE_SIZE = slice f (q * PAGE_SIZE) PAGE_SIZE).
    { rewrite HF. apply slice_app_l. unfold PAGE_SIZE in *. lia. }
    rewrite <- Hs.
    destruct (Nat.lt_ge_cases q p) as [Hlt|Hge].
    + rewrite slice_app_l by (rewrite Lt; unfold PAGE_SIZE in *; lia).
      apply slice_take. unfold PAGE_SIZE in *. lia.
    + rewrite slice_app_r by (rewrite Lt; unfold PAGE_SIZE in *; lia).
      rewrite Lt, slice_app_r by (unfold PAGE_SIZE in *; lia).
      rewrite slice_drop. f_equal. unfold PAGE_SIZE in *. lia.
Qed.

(** ** The allocation loop *)

Lemma find_seq_some (f : nat -> bool) n : forall a s,
  find f (seq a n) = Some s ->
  a <= s < a + n /\ f s = true /\ forall s', a <= s' < s -> f s' = false.
Proof.
  induction n as [|n IH]; intros a s; cbn [seq find]; [discriminate|].
  destruct (f a) eqn:E.
  - intros [= <-]. repeat split; [lia | lia | exact E | intros; lia].
  - intros H. destruct (IH _ _ H) as (Hr & Hs & Hbefore).
    repeat split; [lia | lia | exact Hs|].
    intros s' Hs'. destruct (decide (s' = a)) as [->|]; [exact E|].
    apply Hbefore. lia.
Qed.

Lemma find_negb_none (g : nat -> bool) l :
  find (fun s => negb (g s)) l = None -> forallb g l = true.
Proof.
  induction l as [|x l IH]; cbn [find forallb]; [reflexivity|].
  destruct (g x); cbn [negb andb]; [exact IH | discriminate].
Qed.

Lemma find_free_slot_some bitmap s :
  find_free_slot bitmap = Some s ->
  s < MAX_RECORDS_PER_PAGE /\ bit_set bitmap s = false
  /\ forall s', s' < s -> bit_set bitmap s' = true.
Proof.
  unfold find_free_slot. intros H.
  destruct (find_seq_some _ _ _ _ H) as (Hr & Hs & Hb).
  repeat split; [lia | apply negb_true_iff, Hs|].
  intros s' Hs'. apply negb_false_iff, Hb. lia.
Qed.

Lemma find_free_slot_none bitmap :
  find_free_slot bitmap = None ->
  forallb (bit_set bitmap) (seq 0 MAX_RECORDS_PER_PAGE) = true.
Proof.
  unfold find_free_slot. apply find_negb_none.
Qed.

(** The page the loop works on is the one on disk or a zeroed page with
    count 0 and bitmap 0. *)
Lemma fetch_page_inv a type_name p page_data num_records bitmap :
  fetch_page a type_name p = Ok (page_data, num_records, bitmap) ->
  _load_page a type_name p = Ok (Some page_data, num_records, bitmap)
  \/ (exists n b hdr,
        _load_page a type_name p = Ok (None, n, b)
        /\ _create_page_header (Z.of_nat p) 0 0 = Ok hdr
        /\ page_data = slice_assign (zeros PAGE_SIZE) 0 12 hdr
        /\ num_records = 0%Z /\ bitmap = 0%Z).
Proof.
  unfold fetch_page. intros H. bind_inv H.
  destruct x as [[[pd|] n] b]; cbn beta iota in H.
  - left. injection H as <- <- <-. exact E.
  - right. bind_inv H. injection H as <- <- <-. exists n, b, x.
    repeat split; assumption.
Qed.

Lemma fetch_page_full a type_name p page_data num_records bitmap :
  fetch_page a type_name p = Ok (page_data, num_records, bitmap) ->
  find_free_slot bitmap = None ->
  page_is_full a type_name p = true.
Proof.
  intros Hf Hn. unfold page_is_full.
  destruct (fetch_page_inv _ _ _ _ _ _ Hf) as [->|(n & b & hdr & _ & _ & _ & _ & ->)].
  - apply find_free_slot_none, Hn.
  - discriminate Hn.
Qed.

(** What [place_record] does: nothing when it does not return [True];
    otherwise it saves one page, the first that is not full, with the
    record in its lowest free slot. *)
Lemma place_record_inv a type_name ti record_data n : forall p0 r a',
  place_record n a type_name ti record_data p0 = (r, a') ->
  (a' = a /\ r <> Ok true)
  \/ exists p page_data num_records bitmap slot hdr,
       p0 <= p < p0 + n
       /\ (forall q, p0 <= q < p -> page_is_full a type_name q = true)
       /\ fetch_page a type_name p = Ok (page_data, num_records, bitmap)
       /\ find_free_slot bitmap = Some slot
       /\ _create_page_header (Z.of_nat p) (num_records + 1)
            (Z.lor bitmap (Z.shiftl 1 (Z.of_nat slot))) = Ok hdr
       /\ r = Ok true
       /\ a' = _save_page a type_name p
                 (slice_assign
                    (slice_assign page_data (slot_offset ti slot)
                       (slot_offset ti slot + length record_data) record_data)
                    0 12 hdr).
Proof.
  induction n as [|n IH]; intros p0 r a' H; cbn [place_record] in H.
  - left. split; congruence.
  - destruct (fetch_page a type_name p0) as [[[pd cnt] bm]|e] eqn:Ef;
      [|left; split; congruence].
    destruct (find_free_slot bm) as [s|] eqn:Es.
    + destruct (_create_page_header _ _ _) as [hdr|e] eqn:Eh;
        [|left; split; congruence].
      right. exists p0, pd, cnt, bm, s, hdr.
      split; [lia|]. split; [intros q Hq; lia|].
      injection H as <- <-. repeat split; assumption.
    + destruct (IH _ _ _ H) as [?|(p & pd' & cnt' & bm' & s & hdr & Hp & Hfull & Hrest)];
        [left; assumption|].
      right. exists p, pd', cnt', bm', s, hdr. split; [lia|]. split; [|exact Hrest].
      intros q Hq. destruct (decide (q = p0)) as [->|].
      * eapply fetch_page_full; eauto.
      * apply Hfull. lia.
Qed.

Lemma create_record_inv a type_name values r a' :
  create_record a type_name values = (r, a') ->
  (a' = a /\ r <> Ok true)
  \/ exists ti primary_key record_data,
       dict_get (catalog a) type_name = Some ti
       /\ length values = length (fields ti)
       /\ values_valid (fields ti) values = true
       /\ _find_primary_key_value a type_name values = Ok primary_key
       /\ search_record a type_name primary_key = Ok None
       /\ _serialize_record a type_name values = Ok record_data
       /\ r = Ok true
       /\ place_record MAX_PAGES_PER_FILE a type_name ti record_data 0 = (Ok true, a').
Proof.
  unfold create_record. intros H.
  destruct (dict_get (catalog a) type_name) as [ti|]; [|left; split; congruence].
  destruct (Nat.eqb_spec (length values) (length (fields ti))) as [Hl|];
    cbn [negb] in H; [|left; split; congruence].
  destruct (values_valid (fields ti) values) eqn:Hv;
    cbn [negb] in H; [|left; split; congruence].
  destruct (_find_primary_key_value a type_name values) as [pk|] eqn:Hpk;
    [|left; split; congruence].
  destruct (_search_record_internal a type_name pk) as [[?|]|] eqn:Hs;
    [left; split; congruence| |left; split; congruence].
  destruct (_serialize_record a type_name values) as [rec|] eqn:Hr;
    [|left; split; congruence].
  destruct (place_record_inv _ _ _ _ _ _ _ _ H) as [?|(p & pd & cnt & bm & s & hdr & Hrest)];
    [left; assumption|].
  right. exists ti, pk, rec.
  assert (r = Ok true) as -> by tauto.
  repeat split; auto.
Qed.

(** ** The deletion loop *)

Lemma delete_slots_inv a type_name ti p page_data num_records bitmap key slots a' :
  delete_slots a type_name ti p page_data num_records bitmap key slots
  = Ok (Some a') ->
  exists slot values page_data1 hdr,
    slot ∈ slots
    /\ bit_set bitmap slot = true
    /\ _deserialize_record a type_name
         (slice page_data (slot_offset ti slot) (record_size ti)) = Ok values
    /\ key_matches values (primary_key_order ti - 1)%Z key = Ok true
    /\ index_assign page_data (slot_offset ti slot) x00 = Ok page_data1
    /\ _create_page_header (Z.of_nat p) (num_records - 1)
         (Z.land bitmap (Z.lnot (Z.shiftl 1 (Z.of_nat slot)))) = Ok hdr
    /\ a' = _save_page a type_name p (slice_assign page_data1 0 12 hdr).
Proof.
  induction slots as [|s rest IH]; cbn [delete_slots]; [discriminate|].
  intros H.
  assert (Hrest : delete_slots a type_name ti p page_data num_records bitmap key rest
                  = Ok (Some a') ->
                  exists slot values page_data1 hdr,
                    slot ∈ s :: rest
                    /\ bit_set bitmap slot = true
                    /\ _deserialize_record a type_name
                         (slice page_data (slot_offset ti slot) (record_size ti))
                       = Ok values
                    /\ key_matches values (primary_key_order ti - 1)%Z key = Ok true
                    /\ index_assign page_data (slot_offset ti slot) x00 = Ok page_data1
                    /\ _create_page_header (Z.of_nat p) (num_records - 1)
                         (Z.land bitmap (Z.lnot (Z.shiftl 1 (Z.of_nat slot)))) = Ok hdr
                    /\ a' = _save_page a type_name p (slice_assign page_data1 0 12 hdr)).
  { intros Hr. destruct (IH Hr) as (slot & values & pd1 & hdr & Hin & Hx).
    exists slot, values, pd1, hdr. split; [right; exact Hin | exact Hx]. }
  destruct (bit_set bitmap s) eqn:Eb; [|exact (Hrest H)].
  bind_inv H. bind_inv H. destruct x0; [|exact (Hrest H)].
  bind_inv H. bind_inv H. injection H as <-.
  exists s, x, x0, x1. repeat split; auto. left.
Qed.

Lemma delete_pages_inv a type_name ti key n : forall p0 r a',
  delete_pages n a type_name ti key p0 = (r, a') ->
  (a' = a /\ r <> Ok true)
  \/ exists p page_data num_records bitmap slot values page_data1 hdr,
       p0 <= p < p0 + n
       /\ _load_page a type_name p = Ok (Some page_data, num_records, bitmap)
       /\ num_records <> 0%Z
       /\ slot < MAX_RECORDS_PER_PAGE
       /\ bit_set bitmap slot = true
       /\ _deserialize_record a type_name
            (slice page_data (slot_offset ti slot) (record_size ti)) = Ok values
       /\ key_matches values (primary_key_order ti - 1)%Z key = Ok true
       /\ index_assign page_data (slot_offset ti slot) x00 = Ok page_data1
       /\ _create_page_header (Z.of_nat p) (num_records - 1)
            (Z.land bitmap (Z.lnot (Z.shiftl 1 (Z.of_nat slot)))) = Ok hdr
       /\ r = Ok true
       /\ a' = _save_page a type_name p (slice_assign page_data1 0 12 hdr).
Proof.
  induction n as [|n IH]; intros p0 r a' H; cbn [delete_pages] in H.
  - left. split; congruence.
  - assert (Hnext : delete_pages n a type_name ti key (S p0) = (r, a') ->
                    (a' = a /\ r <> Ok true)
                    \/ exists p page_data num_records bitmap slot values page_data1 hdr,
                         p0 <= p < p0 + S n
                         /\ _load_page a type_name p = Ok (Some page_data, num_records, bitmap)
                         /\ num_records <> 0%Z
                         /\ slot < MAX_RECORDS_PER_PAGE
                         /\ bit_set bitmap slot = true
                         /\ _deserialize_record a type_name
                              (slice page_data (slot_offset ti slot) (record_size ti))
                            = Ok values
                         /\ key_matches values (primary_key_order ti - 1)%Z key = Ok true
                         /\ index_assign page_data (slot_offset ti slot) x00 = Ok page_data1
                         /\ _create_page_header (Z.of_nat p) (num_records - 1)
                              (Z.land bitmap (Z.lnot (Z.shiftl 1 (Z.of_nat slot)))) = Ok hdr
                         /\ r = Ok true
                         /\ a' = _save_page a type_name p (slice_assign page_data1 0 12 hdr)).
    { intros Hn. destruct (IH _ _ _ Hn)
        as [?|(p & pd & cnt & bm & s & vs & pd1 & hdr & Hp & Hx)]; [left; assumption|].
      right. exists p, pd, cnt, bm, s, vs, pd1, hdr. split; [lia | exact Hx]. }
    destruct (_load_page a type_name p0) as [[[[pd|] cnt] bm]|e] eqn:El;
      [| exact (Hnext H) | left; split; congruence].
    destruct (Z.eqb_spec cnt 0) as [|Hc]; [exact (Hnext H)|].
    destruct (delete_slots _ _ _ _ _ _ _ _ _) as [[a1|]|e] eqn:Ed;
      [| exact (Hnext H) | left; split; congruence].
    injection H as <- <-.
    destruct (delete_slots_inv _ _ _ _ _ _ _ _ _ _ Ed)
      as (s & vs & pd1 & hdr & Hin & Hb & Hd & Hk & Hi & Hh & ->).
    right. exists p0, pd, cnt, bm, s, vs, pd1, hdr.
    apply elem_of_seq in Hin.
    repeat split; auto; lia.
Qed.

Lemma delete_record_inv a type_name key r a' :
  delete_record a type_name key = (r, a') ->
  (a' = a /\ r <> Ok true)
  \/ exists ti,
       dict_get (catalog a) type_name = Some ti
       /\ delete_pages MAX_PAGES_PER_FILE a type_name ti key 0 = (Ok true, a').
Proof.
  unfold delete_record. intros H.
  destruct (dict_get (catalog a) type_name) as [ti|]; [|left; split; congruence].
  destruct (delete_pages_inv _ _ _ _ _ _ _ _ H) as [?|(p & pd & cnt & bm & s & vs & pd1 & hdr & Hx)];
    [left; assumption|].
  right. exists ti. split; [reflexivity|].
  assert (r = Ok true) as <- by tauto. exact H.
Qed.

(** ** Slots of a page *)

Lemma record_size_pos ti : fits_page ti -> 1 <= record_size ti.
Proof. intros [_ ->]. rewrite _calculate_record_size_eq. lia. Qed.

Lemma slot_in_page ti slot :
  fits_page ti -> slot < MAX_RECORDS_PER_PAGE ->
  12 <= slot_offset ti slot
  /\ slot_offset ti slot + record_size ti <= PAGE_SIZE.
Proof.
  intros [Hfit _] Hs. unfold slot_offset, MAX_RECORDS_PER_PAGE in *.
  split; [lia|]. nia.
Qed.

Lemma slots_apart ti s s' :
  s <> s' ->
  slot_offset ti s + record_size ti <= slot_offset ti s'
  \/ slot_offset ti s' + record_size ti <= slot_offset ti s.
Proof. intros H. unfold slot_offset. nia. Qed.

(** Writing [r] at the start of slot [slot] and then a header whose bitmap
    differs at that slot only keeps the page invariant, as long as the
    first byte written is the validity byte that the new bit calls for. *)
Lemma page_ok_write ti page_data slot r hdr pn n' bm' :
  fits_page ti ->
  page_ok ti page_data ->
  slot < MAX_RECORDS_PER_PAGE ->
  1 <= length r <= record_size ti ->
  _create_page_header pn n' bm' = Ok hdr ->
  (forall s', s' < MAX_RECORDS_PER_PAGE -> s' <> slot ->
              bit_set bm' s' = bit_set (bitmap_of page_data) s') ->
  r !! 0 = Some (if bit_set bm' slot then x01 else x00) ->
  n' = Z.of_nat (set_bits bm') ->
  page_ok ti
    (slice_assign
       (slice_assign page_data (slot_offset ti slot)
          (slot_offset ti slot + length r) r)
       0 12 hdr).
Proof.
  intros Hfit (Hlen & Hcnt & Hslots) Hs Hr Hh Hbits Hr0 Hn'.
  destruct (slot_in_page ti slot Hfit Hs) as [Ho1 Ho2].
  set (pd1 := slice_assign page_data (slot_offset ti slot)
                (slot_offset ti slot + length r) r).
  assert (L1 : length pd1 = PAGE_SIZE).
  { unfold pd1. rewrite length_slice_assign; [exact Hlen | lia | lia | lia]. }
  destruct (header_written pd1 pn n' bm' hdr Hh ltac:(rewrite L1; unfold PAGE_SIZE; lia))
    as (L2 & Hc2 & Hb2 & Hl2 & _).
  split; [rewrite L2; exact L1|]. split; [rewrite Hc2, Hb2; exact Hn'|].
  intros s' Hs'. rewrite Hb2.
  destruct (slot_in_page ti s' Hfit Hs') as [Ho1' Ho2'].
  rewrite Hl2 by exact Ho1'. unfold pd1.
  destruct (decide (s' = slot)) as [->|Hne].
  - rewrite <- (Nat.add_0_r (slot_offset ti slot)) at 1.
    rewrite lookup_slice_assign_here by lia. exact Hr0.
  - rewrite (Hbits s' Hs' Hne), <- (Hslots s' Hs').
    destruct (slots_apart ti s' slot Hne) as [Hlt|Hgt].
    + apply lookup_slice_assign_before; lia.
    + apply lookup_slice_assign_after; lia.
Qed.

Lemma page_ok_fresh ti p hdr :
  fits_page ti ->
  _create_page_header (Z.of_nat p) 0 0 = Ok hdr ->
  let page_data := slice_assign (zeros PAGE_SIZE) 0 12 hdr in
  page_ok ti page_data /\ count_of page_data = 0%Z /\ bitmap_of page_data = 0%Z.
Proof.
  intros Hfit Hh page_data.
  assert (Lz : length (zeros PAGE_SIZE) = PAGE_SIZE) by apply length_replicate.
  destruct (header_written (zeros PAGE_SIZE) _ _ _ hdr Hh
              ltac:(rewrite Lz; unfold PAGE_SIZE; lia))
    as (L2 & Hc2 & Hb2 & Hl2 & _).
  fold page_data in L2, Hc2, Hb2, Hl2.
  split; [|split; assumption].
  split; [rewrite L2; exact Lz|]. split; [rewrite Hc2, Hb2; reflexivity|].
  intros s Hs. destruct (slot_in_page ti s Hfit Hs) as [Ho1 Ho2].
  rewrite Hl2, Hb2 by exact Ho1.
  replace (bit_set 0 s) with false
    by (rewrite bit_set_testbit, Z.bits_0; reflexivity).
  pose proof (record_size_pos ti Hfit).
  apply lookup_replicate_2. lia.
Qed.

(** Saving a good page at or before the end of a good file gives a good
    file. *)
Lemma file_ok_save a type_name ti p page_data k :
  file_ok a type_name ti ->
  length (default [] (data_file a type_name)) = k * PAGE_SIZE ->
  p <= k ->
  page_ok ti page_data ->
  file_ok (_save_page a type_name p page_data) type_name ti.
Proof.
  intros Hok Hk Hp Hpage.
  destruct (save_page_file a type_name p page_data _ k eq_refl Hk Hp (proj1 Hpage))
    as (f' & Hf' & Hl' & Hat & Hother).
  unfold file_ok. rewrite Hf'. exists (k `max` (p + 1)). split; [exact Hl'|].
  intros q Hq. destruct (decide (q = p)) as [->|Hne]; [rewrite Hat; exact Hpage|].
  assert (Hqk : q < k) by lia.
  rewrite (Hother q Hne Hqk).
  unfold file_ok in Hok. destruct (data_file a type_name) as [f|]; cbn [default] in *.
  - destruct Hok as (k' & Hk' & Hpages). apply Hpages.
    unfold PAGE_SIZE, id in *. lia.
  - cbn [length] in Hk. unfold PAGE_SIZE in Hk. exfalso. lia.
Qed.

(** ** The page invariant along a run *)

(** A page that [_load_page] returns from a good file is one of its whole
    pages. *)
Lemma load_page_file_ok a type_name ti p page_data num_records bitmap :
  file_ok a type_name ti ->
  _load_page a type_name p = Ok (Some page_data, num_records, bitmap) ->
  exists f k,
    data_file a type_name = Some f /\ length f = k * PAGE_SIZE /\ p < k
    /\ page_data = page_at f p
    /\ num_records = count_of page_data /\ bitmap = bitmap_of page_data
    /\ page_ok ti page_data.
Proof.
  unfold file_ok. intros Hok Hl.
  destruct (data_file a type_name) as [f|] eqn:Ef.
  - destruct Hok as (k & Hk & Hpages). exists f, k.
    destruct (Nat.lt_ge_cases p k) as [Hlt|Hge].
    + rewrite (load_page_present a type_name f p Ef) in Hl
        by (unfold PAGE_SIZE in *; lia).
      injection Hl as <- <- <-.
      do 6 (split; [first [reflexivity | assumption]|]). apply Hpages, Hlt.
    + rewrite (load_page_beyond a type_name f p Ef) in Hl
        by (unfold PAGE_SIZE in *; lia).
      discriminate.
  - rewrite (load_page_absent a type_name p Ef) in Hl. discriminate.
Qed.

Lemma file_ok_pages a type_name ti :
  file_ok a type_name ti ->
  exists k, length (default [] (data_file a type_name)) = k * PAGE_SIZE
            /\ forall p, k <= p -> _load_page a type_name p = Ok (None, 0%Z, 0%Z).
Proof.
  unfold file_ok. intros Hok.
  destruct (data_file a type_name) as [f|] eqn:Ef.
  - destruct Hok as (k & Hk & _). exists k. split; [exact Hk|].
    intros p Hp. apply (load_page_beyond a type_name f p Ef).
    unfold PAGE_SIZE in *. lia.
  - exists 0. split; [reflexivity|]. intros p _.
    apply load_page_absent, Ef.
Qed.

(** The page handed to the allocation loop, once all pages before it are
    full: a good page, at or just after the end of the file. *)
Lemma fetch_page_file_ok a type_name ti p page_data num_records bitmap :
  fits_page ti ->
  file_ok a type_name ti ->
  fetch_page a type_name p = Ok (page_data, num_records, bitmap) ->
  (forall q, q < p -> page_is_full a type_name q = true) ->
  page_ok ti page_data
  /\ num_records = count_of page_data /\ bitmap = bitmap_of page_data
  /\ exists k, length (default [] (data_file a type_name)) = k * PAGE_SIZE
               /\ p <= k.
Proof.
  intros Hfit Hok Hf Hfull.
  destruct (file_ok_pages a type_name ti Hok) as (k & Hk & Hbeyond).
  assert (Hp : p <= k).
  { destruct (Nat.le_gt_cases p k) as [|Hgt]; [assumption|].
    specialize (Hfull k Hgt). unfold page_is_full in Hfull.
    rewrite (Hbeyond k (Nat.le_refl k)) in Hfull. discriminate. }
  destruct (fetch_page_inv _ _ _ _ _ _ Hf)
    as [Hl|(n & b & hdr & Hl & Hh & -> & -> & ->)].
  - destruct (load_page_file_ok _ _ _ _ _ _ _ Hok Hl)
      as (f & k' & _ & _ & _ & _ & Hc & Hb & Hpage).
    do 3 (split; [assumption|]). exists k. split; assumption.
  - destruct (page_ok_fresh ti p hdr Hfit Hh) as (Hpage & Hc & Hb).
    do 3 (split; [first [assumption | symmetry; assumption]|]).
    exists k. split; assumption.
Qed.

Lemma serialized_record_shape a type_name ti values record_data :
  fits_page ti ->
  dict_get (catalog a) type_name = Some ti ->
  length values = length (fields ti) ->
  values_valid (fields ti) values = true ->
  _serialize_record a type_name values = Ok record_data ->
  length record_data = record_size ti
  /\ record_data !! 0 = Some x01
  /\ _deserialize_record a type_name record_data
     = Ok (Some (stored_values (fields ti) values)).
Proof.
  intros [_ Hrs] Hti Hlen Hval Hser.
  destruct (serialize_record_inv _ _ _ _ _ Hti Hser) as (bs & Hbs & ->).
  destruct (codec_fields _ _ _ Hlen Hval Hbs) as [Hl _].
  repeat split.
  - cbn [length]. rewrite Hl, Hrs, _calculate_record_size_eq. reflexivity.
  - apply (deserialize_record_stored a type_name ti values bs); assumption.
Qed.

Lemma create_record_file_ok a type_name ti values :
  dict_get (catalog a) type_name = Some ti ->
  fits_page ti ->
  file_ok a type_name ti ->
  file_ok (create_record a type_name values).2 type_name ti.
Proof.
  intros Hti Hfit Hok.
  destruct (create_record a type_name values) as [r a'] eqn:Hc. cbn [snd].
  destruct (create_record_inv _ _ _ _ _ Hc)
    as [[-> _]|(ti' & pk & rec & Hti' & Hlen & Hval & _ & _ & Hser & -> & Hplace)];
    [exact Hok|].
  assert (ti' = ti) as -> by congruence.
  destruct (serialized_record_shape _ _ _ _ _ Hfit Hti Hlen Hval Hser)
    as (Hrl & Hr0 & _).
  destruct (place_record_inv _ _ _ _ _ _ _ _ Hplace)
    as [[_ Hne]|(p & pd & cnt & bm & s & hdr & Hp & Hfull & Hf & Hs & Hh & _ & ->)];
    [congruence|].
  destruct (fetch_page_file_ok _ _ _ _ _ _ _ Hfit Hok Hf
              ltac:(intros q Hq; apply Hfull; lia))
    as (Hpage & -> & -> & k & Hk & Hpk).
  destruct (find_free_slot_some _ _ Hs) as (Hs10 & Hfree & _).
  apply (file_ok_save a type_name ti p _ k Hok Hk Hpk).
  apply (page_ok_write ti pd s rec hdr _ _ _ Hfit Hpage Hs10
           ltac:(pose proof (record_size_pos ti Hfit); lia) Hh).
  - intros s' _ Hne. rewrite bit_set_lor.
    destruct (Nat.eqb_spec s s'); [congruence | apply orb_false_r].
  - rewrite bit_set_lor, Nat.eqb_refl, orb_true_r. exact Hr0.
  - rewrite set_bits_lor by assumption. destruct Hpage as (_ & Hcnt & _). lia.
Qed.

Lemma delete_record_file_ok a type_name ti key :
  dict_get (catalog a) type_name = Some ti ->
  fits_page ti ->
  file_ok a type_name ti ->
  file_ok (delete_record a type_name key).2 type_name ti.
Proof.
  intros Hti Hfit Hok.
  destruct (delete_record a type_name key) as [r a'] eqn:Hd. cbn [snd].
  destruct (delete_record_inv _ _ _ _ _ Hd) as [[-> _]|(ti' & Hti' & Hpages)];
    [exact Hok|].
  assert (ti' = ti) as -> by congruence.
  destruct (delete_pages_inv _ _ _ _ _ _ _ _ Hpages)
    as [[_ Hne]|(p & pd & cnt & bm & s & vs & pd1 & hdr & Hp & Hl & Hcnt & Hs10
                 & Hbit & _ & _ & Hi & Hh & _ & ->)]; [congruence|].
  destruct (load_page_file_ok _ _ _ _ _ _ _ Hok Hl)
    as (f & k & Hf & Hk & Hpk & _ & -> & -> & Hpage).
  destruct (slot_in_page ti s Hfit Hs10) as [Ho1 Ho2].
  pose proof (record_size_pos ti Hfit) as Hrs.
  assert (Hin : slot_offset ti s < length pd)
    by (rewrite (proj1 Hpage); lia).
  unfold index_assign in Hi.
  replace (slot_offset ti s <? length pd) with true in Hi
    by (symmetry; apply Nat.ltb_lt; exact Hin).
  injection Hi as <-. rewrite insert_as_slice_assign by exact Hin.
  apply (file_ok_save a type_name ti p _ k Hok);
    [rewrite Hf; exact Hk | lia |].
  replace (S (slot_offset ti s)) with (slot_offset ti s + length [x00])
    by (cbn [length]; lia).
  apply (page_ok_write ti pd s [x00] hdr _ _ _ Hfit Hpage Hs10
           ltac:(cbn [length]; lia) Hh).
  - intros s' _ Hne. rewrite bit_set_clear.
    destruct (Nat.eqb_spec s s'); [congruence | apply andb_true_r].
  - rewrite bit_set_clear, Nat.eqb_refl, andb_false_r. reflexivity.
  - pose proof (set_bits_clear _ s Hs10 Hbit) as Hsb.
    destruct Hpage as (_ & Hc & _). lia.
Qed.

(** Calls on another type leave the file alone; no call changes the
    catalog. *)
Lemma create_record_frame a type_name values :
  catalog (create_record a type_name values).2 = catalog a
  /\ forall other, other <> type_name ->
       data_file (create_record a type_name values).2 other = data_file a other.
Proof.
  destruct (create_record a type_name values) as [r a'] eqn:Hc. cbn [snd].
  destruct (create_record_inv _ _ _ _ _ Hc)
    as [[-> _]|(ti & pk & rec & _ & _ & _ & _ & _ & _ & _ & Hplace)];
    [split; auto|].
  destruct (place_record_inv _ _ _ _ _ _ _ _ Hplace)
    as [[-> _]|(p & pd & cnt & bm & s & hdr & _ & _ & _ & _ & _ & _ & ->)];
    [split; auto|].
  split; [reflexivity|]. intros other Hne. apply save_page_other, Hne.
Qed.

Lemma delete_record_frame a type_name key :
  catalog (delete_record a type_name key).2 = catalog a
  /\ forall other, other <> type_name ->
       data_file (delete_record a type_name key).2 other = data_file a other.
Proof.
  destruct (delete_record a type_name key) as [r a'] eqn:Hd. cbn [snd].
  destruct (delete_record_inv _ _ _ _ _ Hd) as [[-> _]|(ti & _ & Hpages)];
    [split; auto|].
  destruct (delete_pages_inv _ _ _ _ _ _ _ _ Hpages)
    as [[-> _]|(p & pd & cnt & bm & s & vs & pd1 & hdr & _ & _ & _ & _ & _ & _
                & _ & _ & _ & _ & ->)]; [split; auto|].
  split; [reflexivity|]. intros other Hne. apply save_page_other, Hne.
Qed.

Lemma file_ok_frame a a' type_name ti :
  data_file a' type_name = data_file a type_name ->
  file_ok a type_name ti -> file_ok a' type_name ti.
Proof. unfold file_ok. intros ->. auto. Qed.

Lemma step_file_ok a o type_name ti :
  dict_get (catalog a) type_name = Some ti ->
  fits_page ti ->
  file_ok a type_name ti ->
  catalog (step a o).2 = catalog a /\ file_ok (step a o).2 type_name ti.
Proof.
  intros Hti Hfit Hok. destruct o as [tn values|tn key]; cbn [step].
  - destruct (create_record_frame a tn values) as [Hcat Hother].
    split; [exact Hcat|]. destruct (decide (tn = type_name)) as [->|Hne].
    + apply create_record_file_ok; assumption.
    + apply (file_ok_frame a); [apply Hother; congruence | exact Hok].
  - destruct (delete_record_frame a tn key) as [Hcat Hother].
    split; [exact Hcat|]. destruct (decide (tn = type_name)) as [->|Hne].
    + apply delete_record_file_ok; assumption.
    + apply (file_ok_frame a); [apply Hother; congruence | exact Hok].
Qed.

Lemma run_file_ok ops : forall a type_name ti,
  dict_get (catalog a) type_name = Some ti ->
  fits_page ti ->
  file_ok a type_name ti ->
  catalog (run a ops) = catalog a /\ file_ok (run a ops) type_name ti.
Proof.
  induction ops as [|o ops IH]; intros a type_name ti Hti Hfit Hok;
    [split; auto|].
  destruct (step_file_ok a o type_name ti Hti Hfit Hok) as [Hcat Hok'].
  unfold run. cbn [fold_left]. fold (run (step a o).2 ops).
  destruct (IH (step a o).2 type_name ti) as [Hcat' Hok'']; auto; [congruence|].
  split; [congruence | exact Hok''].
Qed.

Lemma length_zeros n : length (zeros n) = n.
Proof. apply length_replicate. Qed.

Lemma le_value_zeros n : le_value (zeros n) = 0%Z.
Proof.
  induction n as [|n IH]; [reflexivity|].
  change (zeros (S n)) with (x00 :: zeros n). cbn [le_value].
  rewrite IH. reflexivity.
Qed.

Lemma slice_zeros n a m : slice (zeros n) a m = zeros (m `min` (n - a)).
Proof. unfold slice, zeros. rewrite drop_replicate, take_replicate. reflexivity. Qed.

Lemma blank_file_ok a type_name ti :
  fits_page ti -> blank_file a type_name -> file_ok a type_name ti.
Proof.
  unfold blank_file, file_ok. intros Hfit Hb.
  destruct (data_file a type_name) as [f|]; [|exact I].
  destruct Hb as [k ->]. exists k. split; [apply length_zeros|].
  intros p Hp. unfold page_at. rewrite slice_zeros.
  replace (PAGE_SIZE `min` (k * PAGE_SIZE - p * PAGE_SIZE)) with PAGE_SIZE
    by (unfold PAGE_SIZE; lia).
  assert (Hbm : bitmap_of (zeros PAGE_SIZE) = 0%Z)
    by (unfold bitmap_of; rewrite slice_zeros; apply le_value_zeros).
  split; [|split].
  - apply length_zeros.
  - rewrite Hbm. unfold count_of. rewrite slice_zeros. apply le_value_zeros.
  - intros s Hs. rewrite Hbm.
    replace (bit_set 0 s) with false
      by (rewrite bit_set_testbit, Z.bits_0; reflexivity).
    destruct (slot_in_page ti s Hfit Hs) as [_ Ho].
    pose proof (record_size_pos ti Hfit).
    apply lookup_replicate_2. lia.
Qed.



(** ** Where create_record puts the record *)

Lemma file_ok_aligned a type_name ti :
  file_ok a type_name ti -> file_aligned a type_name.
Proof.
  unfold file_ok, file_aligned. destruct (data_file a type_name); [|auto].
  intros (k & Hk & _). eauto.
Qed.

Lemma aligned_pages a type_name :
  file_aligned a type_name ->
  exists k, length (default [] (data_file a type_name)) = k * PAGE_SIZE
            /\ (forall p, k <= p -> _load_page a type_name p = Ok (None, 0%Z, 0%Z))
            /\ (forall p, p < k ->
                  exists f, data_file a type_name = Some f
                            /\ length (page_at f p) = PAGE_SIZE
                            /\ _load_page a type_name p
                               = Ok (Some (page_at f p), count_of (page_at f p),
                                     bitmap_of (page_at f p))).
Proof.
  unfold file_aligned. intros Hal.
  destruct (data_file a type_name) as [f|] eqn:Ef.
  - destruct Hal as (k & Hk). exists k. split; [exact Hk|]. split.
    + intros p Hp. apply (load_page_beyond a type_name f p Ef).
      unfold PAGE_SIZE in *. lia.
    + intros p Hp. exists f.
      assert (Hin : (p + 1) * PAGE_SIZE <= length f)
        by (unfold PAGE_SIZE in *; lia).
      split; [reflexivity|]. split; [apply length_page_at, Hin|].
      apply (load_page_present a type_name f p Ef Hin).
  - exists 0. split; [reflexivity|]. split.
    + intros p _. apply load_page_absent, Ef.
    + intros p Hp. lia.
Qed.

Lemma fetch_page_aligned a type_name p page_data num_records bitmap :
  file_aligned a type_name ->
  fetch_page a type_name p = Ok (page_data, num_records, bitmap) ->
  (forall q, q < p -> page_is_full a type_name q = true) ->
  length page_data = PAGE_SIZE
  /\ num_records = count_of page_data /\ bitmap = bitmap_of page_data
  /\ exists k, length (default [] (data_file a type_name)) = k * PAGE_SIZE
               /\ p <= k.
Proof.
  intros Hal Hf Hfull.
  destruct (aligned_pages a type_name Hal) as (k & Hk & Hbeyond & Hin).
  assert (Hp : p <= k).
  { destruct (Nat.le_gt_cases p k) as [|Hgt]; [assumption|].
    specialize (Hfull k Hgt). unfold page_is_full in Hfull.
    rewrite (Hbeyond k (Nat.le_refl k)) in Hfull. discriminate. }
  destruct (fetch_page_inv _ _ _ _ _ _ Hf)
    as [Hl|(n & b & hdr & Hl & Hh & -> & -> & ->)].
  - destruct (Nat.lt_ge_cases p k) as [Hlt|Hge].
    + destruct (Hin p Hlt) as (f & _ & Hlen & Hload).
      rewrite Hload in Hl. injection Hl as <- <- <-.
      do 3 (split; [first [assumption | reflexivity]|]). eauto.
    + rewrite (Hbeyond p Hge) in Hl. discriminate.
  - destruct (header_written (zeros PAGE_SIZE) _ _ _ hdr Hh
                ltac:(rewrite length_zeros; unfold PAGE_SIZE; lia))
      as (L & Hc & Hb & _).
    rewrite length_zeros in L.
    do 3 (split; [first [assumption | symmetry; assumption]|]). eauto.
Qed.

Lemma page_number_written page_data pn n bm hdr :
  _create_page_header pn n bm = Ok hdr ->
  le_value (slice (slice_assign page_data 0 12 hdr) 0 4) = pn.
Proof.
  intros Hh. apply create_page_header_inv in Hh as (-> & Hpn & _).
  unfold slice_assign. rewrite take_0. cbn [app].
  rewrite <- !app_assoc.
  rewrite slice_app_l by (rewrite length_le_bytes; lia).
  rewrite slice_all by (rewrite length_le_bytes; lia).
  apply le_value_le_bytes_4, Hpn.
Qed.

(** What a successful [create_record] does to the file. *)
Lemma create_record_effect a type_name ti values a' :
  dict_get (catalog a) type_name = Some ti ->
  fits_page ti ->
  file_aligned a type_name ->
  create_record a type_name values = (Ok true, a') ->
  exists p slot record_data page_data num_records bitmap page_data',
    (length values = length (fields ti)
     /\ values_valid (fields ti) values = true
     /\ _serialize_record a type_name values = Ok record_data
     /\ length record_data = record_size ti)
    /\ (p < MAX_PAGES_PER_FILE
        /\ (forall q, q < p -> page_is_full a type_name q = true)
        /\ fetch_page a type_name p = Ok (page_data, num_records, bitmap)
        /\ length page_data = PAGE_SIZE
        /\ num_records = count_of page_data /\ bitmap = bitmap_of page_data)
    /\ find_free_slot bitmap = Some slot
    /\ (_load_page a' type_name p
        = Ok (Some page_data', (num_records + 1)%Z,
              Z.lor bitmap (Z.shiftl 1 (Z.of_nat slot)))
        /\ length page_data' = PAGE_SIZE
        /\ le_value (slice page_data' 0 4) = Z.of_nat p
        /\ slice page_data' (slot_offset ti slot) (record_size ti) = record_data
        /\ (forall i, 12 <= i ->
              i < slot_offset ti slot \/ slot_offset ti slot + record_size ti <= i ->
              page_data' !! i = page_data !! i)
        /\ (forall s', s' < MAX_RECORDS_PER_PAGE -> s' <> slot ->
              slice page_data' (slot_offset ti s') (record_size ti)
              = slice page_data (slot_offset ti s') (record_size ti)))
    /\ (forall q, q <> p -> _load_page a' type_name q = _load_page a type_name q)
    /\ catalog a' = catalog a
    /\ (forall other, other <> type_name -> data_file a' other = data_file a other).
Proof.
  intros Hti Hfit Hal Hc.
  destruct (create_record_inv _ _ _ _ _ Hc)
    as [[_ Hne]|(ti' & pk & rec & Hti' & Hlen & Hval & _ & _ & Hser & _ & Hplace)];
    [congruence|].
  assert (ti' = ti) as -> by congruence.
  destruct (serialized_record_shape _ _ _ _ _ Hfit Hti Hlen Hval Hser)
    as (Hrl & _ & _).
  destruct (place_record_inv _ _ _ _ _ _ _ _ Hplace)
    as [[_ Hne]|(p & pd & cnt & bm & s & hdr & Hp & Hfull & Hf & Hs & Hh & _ & ->)];
    [congruence|].
  assert (Hfull' : forall q, q < p -> page_is_full a type_name q = true)
    by (intros q Hq; apply Hfull; lia).
  destruct (fetch_page_aligned _ _ _ _ _ _ Hal Hf Hfull')
    as (Hpl & Hcnt & Hbm & k & Hk & Hpk).
  destruct (find_free_slot_some _ _ Hs) as (Hs10 & Hfree & Hlow).
  destruct (slot_in_page ti s Hfit Hs10) as [Ho1 Ho2].
  rewrite Hrl in *.
  set (pd1 := slice_assign pd (slot_offset ti s) (slot_offset ti s + record_size ti) rec) in *.
  assert (L1 : length pd1 = PAGE_SIZE)
    by (unfold pd1; rewrite length_slice_assign; [exact Hpl | lia | lia | lia]).
  destruct (header_written pd1 _ _ _ hdr Hh ltac:(rewrite L1; unfold PAGE_SIZE; lia))
    as (L2 & Hc2 & Hb2 & Hl2 & Hsl2).
  set (pd2 := slice_assign pd1 0 12 hdr) in *.
  rewrite L1 in L2.
  destruct (save_page_file a type_name p pd2 _ k eq_refl Hk Hpk L2)
    as (f' & Hf' & Hl' & Hat & Hother).
  assert (Hload' : _load_page (_save_page a type_name p pd2) type_name p
                   = Ok (Some pd2, (cnt + 1)%Z,
                         Z.lor bm (Z.shiftl 1 (Z.of_nat s)))).
  { rewrite (load_page_present _ type_name f' p Hf')
      by (rewrite Hl'; unfold PAGE_SIZE; lia).
    rewrite Hat, Hc2, Hb2. reflexivity. }
  exists p, s, rec, pd, cnt, bm, pd2.
  split; [auto|]. split; [repeat split; auto; unfold MAX_PAGES_PER_FILE in *; lia|].
  split; [exact Hs|]. split; [|split; [|split]].
  - split; [exact Hload'|]. split; [exact L2|].
    split; [apply (page_number_written pd1 _ _ _ hdr Hh)|]. split; [|split].
    + unfold pd2. rewrite Hsl2 by exact Ho1. unfold pd1.
      replace (record_size ti)
        with (slot_offset ti s + record_size ti - slot_offset ti s) at 2 by lia.
      apply slice_assign_here; lia.
    + intros i Hi Hout. unfold pd2. rewrite Hl2 by exact Hi. unfold pd1.
      destruct Hout as [Hlt|Hge].
      * apply lookup_slice_assign_before; lia.
      * apply lookup_slice_assign_after; lia.
    + intros s' Hs' Hne.
      destruct (slot_in_page ti s' Hfit Hs') as [Ho1' Ho2'].
      unfold pd2. rewrite Hsl2 by exact Ho1'. unfold pd1.
      destruct (slots_apart ti s' s Hne) as [Hlt|Hgt].
      * apply slice_assign_before; lia.
      * apply slice_assign_after; lia.
  - intros q Hq.
    destruct (aligned_pages a type_name Hal) as (k0 & Hk0 & Hbeyond & Hin).
    assert (k0 = k) as -> by (unfold PAGE_SIZE in *; lia).
    destruct (Nat.lt_ge_cases q k) as [Hlt|Hge].
    + destruct (Hin q Hlt) as (f & Ef & _ & Hload). rewrite Hload.
      rewrite (load_page_present _ type_name f' q Hf')
        by (rewrite Hl'; unfold PAGE_SIZE; lia).
      rewrite (Hother q Hq Hlt), Ef. reflexivity.
    + rewrite (Hbeyond q Hge).
      apply (load_page_beyond _ type_name f' q Hf').
      rewrite Hl'. unfold PAGE_SIZE. lia.
  - reflexivity.
  - intros other Hne. apply save_page_other, Hne.
Qed.



(** ** The records of the file before and after a create *)

Lemma deserialize_same_catalog a a' type_name record_data :
  catalog a' = catalog a ->
  _deserialize_record a' type_name record_data
  = _deserialize_record a type_name record_data.
Proof. intros H. unfold _deserialize_record, type_of. rewrite H. reflexivity. Qed.

Lemma slot_records_app a type_name ti page_data bitmap l1 l2 :
  slot_records a type_name ti page_data bitmap (l1 ++ l2)
  = slot_records a type_name ti page_data bitmap l1
    ++ slot_records a type_name ti page_data bitmap l2.
Proof. unfold slot_records. apply flat_map_app. Qed.

Lemma slot_records_clear a type_name ti page_data bitmap slots :
  (forall s, s ∈ slots -> bit_set bitmap s = false) ->
  slot_records a type_name ti page_data bitmap slots = [].
Proof.
  induction slots as [|s slots IH]; intros H; [reflexivity|].
  unfold slot_records. cbn [flat_map]. rewrite (H s ltac:(left)).
  apply IH. intros s' Hs'. apply H. right. exact Hs'.
Qed.

Lemma slot_records_same a a' type_name ti page_data page_data' bitmap bitmap' slots :
  catalog a' = catalog a ->
  (forall s, s ∈ slots ->
     bit_set bitmap' s = bit_set bitmap s
     /\ slice page_data' (slot_offset ti s) (record_size ti)
        = slice page_data (slot_offset ti s) (record_size ti)) ->
  slot_records a' type_name ti page_data' bitmap' slots
  = slot_records a type_name ti page_data bitmap slots.
Proof.
  intros Hcat. induction slots as [|s slots IH]; intros H; [reflexivity|].
  unfold slot_records. cbn [flat_map].
  destruct (H s ltac:(left)) as [Hb Hs]. unfold slot_offset in Hs.
  rewrite Hb, Hs, (deserialize_same_catalog a a') by exact Hcat.
  f_equal. apply IH. intros s' Hs'. apply H. right. exact Hs'.
Qed.

Lemma set_bits_zero bitmap s :
  set_bits bitmap = 0 -> s < MAX_RECORDS_PER_PAGE -> bit_set bitmap s = false.
Proof.
  unfold set_bits. intros H Hs.
  destruct (bit_set bitmap s) eqn:E; [|reflexivity].
  assert (Hin : In s (List.filter (bit_set bitmap) (seq 0 MAX_RECORDS_PER_PAGE)))
    by (apply filter_In; split; [apply in_seq; lia | exact E]).
  destruct (List.filter _ _); [contradiction | discriminate].
Qed.

Lemma seq_split n s : s < n -> seq 0 n = seq 0 s ++ s :: seq (S s) (n - S s).
Proof.
  intros H. replace n with (s + S (n - S s)) at 1 by lia.
  rewrite seq_app. reflexivity.
Qed.

(** The records of the page the allocation loop works on. *)
Lemma page_records_fetch a type_name ti p page_data num_records bitmap :
  fits_page ti ->
  file_ok a type_name ti ->
  fetch_page a type_name p = Ok (page_data, num_records, bitmap) ->
  (forall q, q < p -> page_is_full a type_name q = true) ->
  page_records a type_name ti p
  = slot_records a type_name ti page_data bitmap (seq 0 MAX_RECORDS_PER_PAGE).
Proof.
  intros Hfit Hok Hf Hfull.
  destruct (fetch_page_file_ok _ _ _ _ _ _ _ Hfit Hok Hf Hfull)
    as ((_ & Hcnt & _) & Hn & Hb & _).
  unfold page_records.
  destruct (fetch_page_inv _ _ _ _ _ _ Hf)
    as [Hl|(n & b & hdr & Hl & _ & _ & _ & Hb0)]; rewrite Hl.
  - destruct (Z.eqb_spec num_records 0) as [Hz|]; [|reflexivity].
    symmetry. apply slot_records_clear. intros s Hs%elem_of_seq.
    apply set_bits_zero; [|lia]. subst. lia.
  - symmetry. apply slot_records_clear. intros s _. rewrite Hb0.
    rewrite bit_set_testbit. apply Z.bits_0.
Qed.

Lemma page_records_same a a' type_name ti q :
  catalog a' = catalog a ->
  _load_page a' type_name q = _load_page a type_name q ->
  page_records a' type_name ti q = page_records a type_name ti q.
Proof.
  intros Hcat Hl. unfold page_records. rewrite Hl.
  destruct (_load_page a type_name q) as [[[[pd|] n] b]|e]; try reflexivity.
  destruct (n =? 0)%Z; [reflexivity|].
  apply (slot_records_same a a'); [exact Hcat | auto].
Qed.

Lemma flat_map_same {A B} (f g : A -> list B) l :
  (forall x, x ∈ l -> f x = g x) -> flat_map f l = flat_map g l.
Proof.
  induction l as [|x l IH]; intros H; [reflexivity|]. cbn [flat_map].
  rewrite (H x ltac:(left)). f_equal. apply IH. intros y Hy. apply H. right. exact Hy.
Qed.

(** A create inserts one record into the page-then-slot sequence of the
    file's records and leaves the others as they were. *)
Lemma live_records_after_create a type_name ti values a' :
  dict_get (catalog a) type_name = Some ti ->
  fits_page ti ->
  file_ok a type_name ti ->
  create_record a type_name values = (Ok true, a') ->
  exists l1 l2,
    live_records a type_name ti = l1 ++ l2
    /\ live_records a' type_name ti
       = l1 ++ [Ok (Some (stored_values (fields ti) values))] ++ l2.
Proof.
  intros Hti Hfit Hok Hc.
  destruct (create_record_effect _ _ _ _ _ Hti Hfit (file_ok_aligned _ _ _ Hok) Hc)
    as (p & s & rec & pd & cnt & bm & pd'
        & (Hlen & Hval & Hser & _) & (Hp & Hfull & Hf & Hpl & Hcnt & Hbm) & Hs
        & (Hload & _ & _ & Hrec & _ & Hslots) & Hpages & Hcat & _).
  destruct (find_free_slot_some _ _ Hs) as (Hs10 & Hfree & _).
  destruct (serialized_record_shape _ _ _ _ _ Hfit Hti Hlen Hval Hser)
    as (_ & _ & Hdec).
  pose proof (page_records_fetch _ _ _ _ _ _ _ Hfit Hok Hf Hfull) as Hbefore.
  assert (Hafter : page_records a' type_name ti p
                   = slot_records a' type_name ti pd'
                       (Z.lor bm (Z.shiftl 1 (Z.of_nat s)))
                       (seq 0 MAX_RECORDS_PER_PAGE)).
  { unfold page_records. rewrite Hload.
    pose proof (header_field_range pd 4 ltac:(rewrite Hpl; unfold PAGE_SIZE; lia)) as Hr.
    fold (count_of pd) in Hr.
    destruct (Z.eqb_spec (cnt + 1) 0) as [Hz|]; [lia | reflexivity]. }
  rewrite (seq_split MAX_RECORDS_PER_PAGE s Hs10) in Hbefore, Hafter.
  rewrite slot_records_app in Hbefore, Hafter.
  change (s :: ?l) with ([s] ++ l) in Hbefore, Hafter.
  rewrite slot_records_app in Hbefore, Hafter.
  assert (Hlow : slot_records a' type_name ti pd'
                   (Z.lor bm (Z.shiftl 1 (Z.of_nat s))) (seq 0 s)
                 = slot_records a type_name ti pd bm (seq 0 s)).
  { apply slot_records_same; [exact Hcat|]. intros s' Hs'%elem_of_seq.
    split; [|apply Hslots; lia]. rewrite bit_set_lor.
    destruct (Nat.eqb_spec s s'); [lia | apply orb_false_r]. }
  assert (Hhigh : slot_records a' type_name ti pd'
                    (Z.lor bm (Z.shiftl 1 (Z.of_nat s)))
                    (seq (S s) (MAX_RECORDS_PER_PAGE - S s))
                  = slot_records a type_name ti pd bm
                      (seq (S s) (MAX_RECORDS_PER_PAGE - S s))).
  { apply slot_records_same; [exact Hcat|]. intros s' Hs'%elem_of_seq.
    split; [|apply Hslots; lia]. rewrite bit_set_lor.
    destruct (Nat.eqb_spec s s'); [lia | apply orb_false_r]. }
  assert (Hold : slot_records a type_name ti pd bm [s] = []).
  { apply slot_records_clear. intros x Hx%list_elem_of_singleton. congruence. }
  assert (Hnew : slot_records a' type_name ti pd'
                   (Z.lor bm (Z.shiftl 1 (Z.of_nat s))) [s]
                 = [Ok (Some (stored_values (fields ti) values))]).
  { unfold slot_records. cbn [flat_map]. rewrite bit_set_lor, Nat.eqb_refl, orb_true_r.
    unfold slot_offset in Hrec. rewrite Hrec.
    rewrite (deserialize_same_catalog a a') by exact Hcat. rewrite Hdec. reflexivity. }
  rewrite Hlow, Hhigh, Hnew in Hafter. rewrite Hold in Hbefore. cbn [app] in Hbefore.
  unfold live_records.
  rewrite (seq_split MAX_PAGES_PER_FILE p Hp), !flat_map_app. cbn [flat_map].
  rewrite Hbefore, Hafter.
  rewrite (flat_map_same (page_records a' type_name ti) (page_records a type_name ti)
             (seq 0 p))
    by (intros q Hq%elem_of_seq; apply page_records_same; [exact Hcat|];
        apply Hpages; lia).
  rewrite (flat_map_same (page_records a' type_name ti) (page_records a type_name ti)
             (seq (S p) _))
    by (intros q Hq%elem_of_seq; apply page_records_same; [exact Hcat|];
        apply Hpages; lia).
  exists (flat_map (page_records a type_name ti) (seq 0 p)
          ++ slot_records a type_name ti pd bm (seq 0 s)),
         (slot_records a type_name ti pd bm (seq (S s) (MAX_RECORDS_PER_PAGE - S s))
          ++ flat_map (page_records a type_name ti)
               (seq (S p) (MAX_PAGES_PER_FILE - S p))).
  split.
  - rewrite <- ?app_assoc. reflexivity.
  - rewrite <- ?app_assoc. reflexivity.
Qed.

(** ** Matching against a sequence of records *)

Lemma py_index_nonneg {A} (l : list A) (i : Z) x :
  (0 <= i)%Z -> py_index l i = Ok x -> l !! Z.to_nat i = Some x.
Proof.
  intros Hi. unfold py_index.
  destruct ((0 <=? i)%Z && (i <? Z.of_nat (length l))%Z).
  - apply of_option_Ok_inv.
  - replace (i <? 0)%Z with false by (symmetry; apply Z.ltb_ge; exact Hi).
    cbn [andb]. discriminate.
Qed.

Lemma py_index_lookup {A} (l : list A) (i : Z) x :
  (0 <= i)%Z -> l !! Z.to_nat i = Some x -> py_index l i = Ok x.
Proof.
  intros Hi Hl. unfold py_index.
  pose proof (lookup_lt_Some _ _ _ Hl) as Hlt.
  replace ((0 <=? i)%Z && (i <? Z.of_nat (length l))%Z) with true.
  - rewrite Hl. reflexivity.
  - symmetry. apply andb_true_iff. split; [apply Z.leb_le | apply Z.ltb_lt]; lia.
Qed.

(** Whether [key_matches] raises does not depend on the key. *)
Lemma key_matches_other_key values idx key b key' :
  key_matches values idx key = Ok b ->
  exists b', key_matches values idx key' = Ok b'.
Proof.
  unfold key_matches. destruct values as [[|v vs]|]; eauto.
  intros H. bind_inv H. rewrite E, bind_Ok. eauto.
Qed.

Lemma key_matches_hit vs idx key :
  (0 <= idx)%Z ->
  key_matches (Some vs) idx key = Ok true -> vs !! Z.to_nat idx = Some key.
Proof.
  intros Hi. unfold key_matches. destruct vs as [|v vs]; [discriminate|].
  intros H. bind_inv H. injection H as H.
  apply bool_decide_eq_true in H. subst x.
  apply py_index_nonneg; assumption.
Qed.

Lemma key_matches_at vs idx key x :
  (0 <= idx)%Z -> vs !! Z.to_nat idx = Some x ->
  key_matches (Some vs) idx key = Ok (pystr_eqb x key).
Proof.
  intros Hi Hl. unfold key_matches.
  destruct vs as [|v vs]; [discriminate|].
  rewrite (py_index_lookup _ _ _ Hi Hl). reflexivity.
Qed.

Lemma first_match_cons_inv r l idx key :
  first_match (r :: l) idx key = Ok None ->
  exists values, r = Ok values /\ key_matches values idx key = Ok false
                 /\ first_match l idx key = Ok None.
Proof.
  cbn [first_match]. intros H. bind_inv H. bind_inv H.
  destruct x0; [destruct x; discriminate|]. eauto.
Qed.


(** Inserting a record that matches makes the search succeed, with that
    record unless an earlier one matches too. *)
Lemma first_match_insert_hit l1 l2 vs idx key0 key :
  first_match (l1 ++ l2) idx key0 = Ok None ->
  key_matches (Some vs) idx key = Ok true ->
  exists r,
    first_match (l1 ++ [Ok (Some vs)] ++ l2) idx key = Ok (Some r)
    /\ key_matches (Some r) idx key = Ok true
    /\ (first_match (l1 ++ l2) idx key = Ok None -> r = vs).
Proof.
  intros H Hnew. induction l1 as [|r0 l1 IH]; cbn [app] in *.
  - exists vs. cbn [first_match]. rewrite bind_Ok, Hnew, bind_Ok. auto.
  - destruct (first_match_cons_inv _ _ _ _ H) as (values & -> & Hk & Hrest).
    destruct (key_matches_other_key _ _ _ _ key Hk) as [b Hb].
    cbn [first_match]. rewrite !bind_Ok, Hb, !bind_Ok.
    destruct b.
    + destruct values as [r|]; [|discriminate Hb].
      exists r. split; [reflexivity|]. split; [exact Hb|]. discriminate.
    + exact (IH Hrest).
Qed.

(** ** When create_record succeeds *)

Lemma load_page_total a type_name p :
  exists page_data num_records bitmap,
    _load_page a type_name p = Ok (page_data, num_records, bitmap).
Proof.
  unfold _load_page. destruct (data_file a type_name) as [f|]; [|eauto].
  destruct (Nat.ltb_spec (length (slice f (p * PAGE_SIZE) PAGE_SIZE)) 12); [eauto|].
  rewrite parse_page_header_ok by assumption. eauto.
Qed.

Lemma place_record_succeeds a type_name ti record_data n : forall p0,
  fits_page ti ->
  file_ok a type_name ti ->
  p0 + n <= MAX_PAGES_PER_FILE ->
  (forall q, q < p0 -> page_is_full a type_name q = true) ->
  forallb (page_is_full a type_name) (seq p0 n) = false ->
  exists a', place_record n a type_name ti record_data p0 = (Ok true, a').
Proof.
  induction n as [|n IH]; intros p0 Hfit Hok Hn Hfull Hfree; [discriminate|].
  cbn [seq forallb] in Hfree. cbn [place_record].
  destruct (load_page_total a type_name p0) as (lp & cnt0 & bm0 & Hl).
  assert (Hp32 : (0 <= Z.of_nat p0 < 2 ^ 32)%Z)
    by (unfold MAX_PAGES_PER_FILE in Hn; lia).
  assert (Hfetch : exists pd cnt bm, fetch_page a type_name p0 = Ok (pd, cnt, bm)).
  { unfold fetch_page. rewrite Hl, bind_Ok. destruct lp as [pd|]; [eauto|].
    rewrite (create_page_header_ok (Z.of_nat p0) 0 0) by lia.
    rewrite bind_Ok. eauto. }
  destruct Hfetch as (pd & cnt & bm & Hf). rewrite Hf.
  destruct (fetch_page_file_ok _ _ _ _ _ _ _ Hfit Hok Hf Hfull)
    as ((Hpl & Hcnt & _) & Hc & Hb & _).
  destruct (find_free_slot bm) as [s|] eqn:Es.
  - destruct (find_free_slot_some _ _ Es) as (Hs10 & Hbit & _).
    pose proof (header_field_range pd 8 ltac:(rewrite Hpl; unfold PAGE_SIZE; lia)) as Hbr.
    fold (bitmap_of pd) in Hbr. rewrite <- Hb in Hbr.
    assert (Hcr : (0 <= cnt + 1 < 2 ^ 32)%Z).
    { rewrite Hc, Hcnt. unfold set_bits.
      pose proof (filter_length_le (bit_set (bitmap_of pd)) (seq 0 MAX_RECORDS_PER_PAGE)) as Hfl.
      rewrite length_seq in Hfl. unfold MAX_RECORDS_PER_PAGE in *. lia. }
    rewrite (create_page_header_ok _ _ _ Hp32 Hcr (lor_bit_bound bm s Hbr Hs10)).
    eauto.
  - rewrite (fetch_page_full _ _ _ _ _ _ Hf Es) in Hfree. cbn [andb] in Hfree.
    apply IH; auto; [lia|].
    intros q Hq. destruct (decide (q = p0)) as [->|];
      [eapply fetch_page_full; eauto | apply Hfull; lia].
Qed.






(** ** Text keys longer than 99 characters *)

Lemma search_record_first_match a type_name ti key :
  dict_get (catalog a) type_name = Some ti ->
  search_record a type_name key
  = first_match (live_records a type_name ti) (primary_key_order ti - 1)%Z key.
Proof.
  intros Hti. unfold search_record, _search_record_internal. rewrite Hti.
  apply search_pages_first_match.
Qed.

Lemma serialize_record_ok a type_name ti values bs :
  dict_get (catalog a) type_name = Some ti ->
  serialize_fields (fields ti) 0 values = Ok bs ->
  _serialize_record a type_name values = Ok (x01 :: bs).
Proof.
  intros Hti Hbs. unfold _serialize_record, type_of. rewrite Hti. cbn [of_option].
  rewrite bind_Ok. change (pack_B 1) with (Ok [x01] : result bytes).
  rewrite bind_Ok, Hbs. reflexivity.
Qed.

(** A validated, packable record whose key the search does not find is
    stored whenever some page has a free slot. *)
Lemma create_record_succeeds a type_name ti values v :
  dict_get (catalog a) type_name = Some ti ->
  fits_page ti ->
  file_ok a type_name ti ->
  length values = length (fields ti) ->
  values_valid (fields ti) values = true ->
  values_packable (fields ti) values = true ->
  (1 <= primary_key_order ti)%Z ->
  values !! Z.to_nat (primary_key_order ti - 1) = Some v ->
  search_record a type_name v = Ok None ->
  file_is_full a type_name = false ->
  exists a', create_record a type_name values = (Ok true, a').
Proof.
  intros Hti Hfit Hok Hlen Hval Hpack Hpk Hv Hsearch Hfree.
  destruct (serialize_fields_total _ _ Hlen Hval Hpack) as [bs Hbs].
  unfold create_record. rewrite Hti, Hlen, Nat.eqb_refl, Hval. cbn [negb].
  unfold _find_primary_key_value, type_of. rewrite Hti. cbn [of_option].
  rewrite bind_Ok, (py_index_lookup values _ v) by (lia || exact Hv).
  unfold search_record in Hsearch. rewrite Hsearch.
  rewrite (serialize_record_ok a type_name ti values bs Hti Hbs).
  apply place_record_succeeds; auto. intros q Hq. lia.
Qed.


(** * Further properties of the page store *)

(** ** Page headers *)

Lemma is_u32_true z : is_u32 z = true -> (0 <= z < 2 ^ 32)%Z.
Proof. unfold is_u32. intros [?%Z.leb_le ?%Z.ltb_lt]%andb_true_iff. lia. Qed.

Lemma pack_I_is_u32 z :
  pack_I z = if is_u32 z then Ok (le_bytes 4 z) else Raise StructError.
Proof. reflexivity. Qed.

(** X1: [_create_page_header] packs three numbers between 0 and 2^32 - 1
    into twelve bytes that [_parse_page_header] reads back as the same three
    numbers, whatever follows the header in the page; for any other number
    it raises [struct.error]. *)
Theorem page_header_round_trip page_number num_records bitmap :
  if is_u32 page_number && is_u32 num_records && is_u32 bitmap then
    exists header,
      _create_page_header page_number num_records bitmap = Ok header
      /\ length header = 12
      /\ forall rest,
           _parse_page_header (header ++ rest)
           = Ok (page_number, num_records, bitmap)
  else _create_page_header page_number num_records bitmap = Raise StructError.
Proof.
  unfold _create_page_header. rewrite !pack_I_is_u32.
  destruct (is_u32 page_number) eqn:E1; [|reflexivity].
  destruct (is_u32 num_records) eqn:E2; [|reflexivity].
  destruct (is_u32 bitmap) eqn:E3; [|reflexivity].
  apply is_u32_true in E1, E2, E3. cbn [andb].
  change (exists header,
    Ok (le_bytes 4 page_number ++ le_bytes 4 num_records ++ le_bytes 4 bitmap)
    = Ok header
    /\ length header = 12
    /\ forall rest, _parse_page_header (header ++ rest)
                    = Ok (page_number, num_records, bitmap)).
  eexists. split; [reflexivity|].
  split; [rewrite !length_app, !length_le_bytes; reflexivity|].
  intros rest. rewrite parse_page_header_ok
    by (rewrite !length_app, !length_le_bytes; lia).
  unfold count_of, bitmap_of.
  rewrite <- !app_assoc.
  set (A := le_bytes 4 page_number). set (B := le_bytes 4 num_records).
  set (C := le_bytes 4 bitmap).
  assert (LA : length A = 4) by apply length_le_bytes.
  assert (LB : length B = 4) by apply length_le_bytes.
  assert (LC : length C = 4) by apply length_le_bytes.
  assert (S1 : slice (A ++ B ++ C ++ rest) 0 4 = A)
    by (apply (slice_app_exact' [] A (B ++ C ++ rest)); [reflexivity | lia]).
  assert (S2 : slice (A ++ B ++ C ++ rest) 4 4 = B)
    by (apply (slice_app_exact' A B (C ++ rest)); lia).
  assert (S3 : slice (A ++ B ++ C ++ rest) 8 4 = C).
  { rewrite (app_assoc A B). apply (slice_app_exact' (A ++ B) C rest);
      rewrite ?length_app; lia. }
  rewrite S1, S2, S3. unfold A, B, C.
  rewrite !le_value_le_bytes_4 by lia. reflexivity.
Qed.

(** ** Reading and writing pages *)

Lemma load_page_short a type_name page_number :
  length (file_bytes a type_name) < page_number * PAGE_SIZE + 12 ->
  _load_page a type_name page_number = Ok (None, 0%Z, 0%Z).
Proof.
  unfold file_bytes, _load_page. intros H.
  destruct (data_file a type_name) as [f|]; [|reflexivity].
  change (default [] (Some f)) with f in H.
  destruct (Nat.ltb_spec (length (slice f (page_number * PAGE_SIZE) PAGE_SIZE)) 12)
    as [|L]; [reflexivity|].
  rewrite length_slice in L. lia.
Qed.

Lemma load_page_long a type_name page_number :
  page_number * PAGE_SIZE + 12 <= length (file_bytes a type_name) ->
  _load_page a type_name page_number
  = Ok (Some (page_at (file_bytes a type_name) page_number),
        count_of (page_at (file_bytes a type_name) page_number),
        bitmap_of (page_at (file_bytes a type_name) page_number)).
Proof.
  unfold file_bytes, _load_page. intros H.
  destruct (data_file a type_name) as [f|]; [|cbn in H; lia].
  change (default [] (Some f)) with f in *. fold (page_at f page_number).
  assert (L : 12 <= length (page_at f page_number))
    by (unfold page_at; rewrite length_slice; unfold PAGE_SIZE in *; lia).
  destruct (Nat.ltb_spec (length (page_at f page_number)) 12); [lia|].
  rewrite parse_page_header_ok by exact L. reflexivity.
Qed.

(** X2: [_load_page] never raises. It returns no page when fewer than
    twelve bytes of the file lie at or after the page offset (a missing file
    has no bytes); otherwise it returns the bytes of the file from the page
    offset, at most 4096 of them, with the count and the bitmap read from
    bytes 4..7 and 8..11 of the page. *)
Theorem load_page_cases a type_name page_number :
  let f := file_bytes a type_name in
  _load_page a type_name page_number
  = if length f <? page_number * PAGE_SIZE + 12 then Ok (None, 0%Z, 0%Z)
    else Ok (Some (page_at f page_number), count_of (page_at f page_number),
             bitmap_of (page_at f page_number)).
Proof.
  cbv zeta.
  destruct (Nat.ltb_spec (length (file_bytes a type_name))
              (page_number * PAGE_SIZE + 12)) as [H|H].
  - apply load_page_short, H.
  - apply load_page_long, H.
Qed.

(** The file [_save_page] leaves behind. *)
Lemma save_page_bytes a type_name page_number page_data :
  file_bytes (_save_page a type_name page_number page_data) type_name
  = let f := file_bytes a type_name in
    let F := f ++ zeros ((page_number + 1) * PAGE_SIZE - length f) in
    take (page_number * PAGE_SIZE) F ++ page_data
    ++ drop (page_number * PAGE_SIZE + length page_data) F.
Proof.
  unfold file_bytes, data_file at 1, _save_page. cbn [files].
  rewrite lookup_insert_eq. cbv zeta.
  destruct (data_file a type_name) as [f|]; [reflexivity|].
  change (default [] None) with (@nil byte). cbn [length app].
  rewrite Nat.sub_0_r. reflexivity.
Qed.

(** X3: a page of 4096 bytes written by [_save_page] is the page that
    [_load_page] then returns for that page number, with the count and the
    bitmap of its header. Every other page that lay wholly inside the file
    is read as before. The file grows to hold the page, by zero bytes, and
    never shrinks. *)
Theorem save_then_load_page a type_name page_number page_data :
  length page_data = PAGE_SIZE ->
  _load_page (_save_page a type_name page_number page_data) type_name page_number
  = Ok (Some page_data, count_of page_data, bitmap_of page_data)
  /\ (forall q, q <> page_number ->
        (q + 1) * PAGE_SIZE <= length (file_bytes a type_name) ->
        _load_page (_save_page a type_name page_number page_data) type_name q
        = _load_page a type_name q)
  /\ length (file_bytes (_save_page a type_name page_number page_data) type_name)
     = length (file_bytes a type_name) `max` ((page_number + 1) * PAGE_SIZE).
Proof.
  intros Hl.
  pose proof (save_page_bytes a type_name page_number page_data) as HF.
  cbv zeta in HF. set (f := file_bytes a type_name) in *.
  set (F := f ++ zeros ((page_number + 1) * PAGE_SIZE - length f)) in *.
  set (f' := file_bytes (_save_page a type_name page_number page_data) type_name) in *.
  assert (LF : length F = length f `max` ((page_number + 1) * PAGE_SIZE)).
  { unfold F. rewrite length_app, length_zeros. lia. }
  assert (Lt : length (take (page_number * PAGE_SIZE) F) = page_number * PAGE_SIZE)
    by (rewrite length_take; unfold PAGE_SIZE in *; lia).
  assert (Lf' : length f' = length f `max` ((page_number + 1) * PAGE_SIZE)).
  { rewrite HF, !length_app, Lt, length_drop. unfold PAGE_SIZE in *. lia. }
  assert (Hp : page_at f' page_number = page_data).
  { rewrite HF. unfold page_at. rewrite slice_app_r by lia.
    rewrite Lt, Nat.sub_diag, slice_app_l by lia. apply slice_all. lia. }
  split; [|split; [|exact Lf']].
  - rewrite load_page_long by (fold f'; unfold PAGE_SIZE in *; lia).
    fold f'. rewrite Hp. reflexivity.
  - intros q Hq Hin.
    rewrite !load_page_long by (fold f f'; unfold PAGE_SIZE in *; lia).
    fold f f'.
    assert (Hs : page_at f' q = page_at f q).
    { rewrite HF. unfold page_at.
      assert (Hs : slice F (q * PAGE_SIZE) PAGE_SIZE = slice f (q * PAGE_SIZE) PAGE_SIZE)
        by (unfold F; apply slice_app_l; unfold PAGE_SIZE in *; lia).
      rewrite <- Hs.
      destruct (Nat.lt_ge_cases q page_number) as [Hlt|Hge].
      - rewrite slice_app_l by (rewrite Lt; unfold PAGE_SIZE in *; lia).
        apply slice_take. unfold PAGE_SIZE in *. lia.
      - rewrite slice_app_r by (rewrite Lt; unfold PAGE_SIZE in *; lia).
        rewrite Lt, slice_app_r by (unfold PAGE_SIZE in *; lia).
        rewrite slice_drop. f_equal. unfold PAGE_SIZE in *. lia. }
    rewrite Hs. reflexivity.
Qed.

Lemma save_then_load_page_witness :
  _load_page (_save_page one_int_archive (lit "T") 2 (full_page 2)) (lit "T") 2
  = Ok (Some (full_page 2), 10%Z, 1023%Z).
Proof.
  apply (save_then_load_page one_int_archive (lit "T") 2 (full_page 2)).
  vm_compute. reflexivity.
Defined.

(** ** What the record operations leave alone *)

Lemma step_inv a o :
  (step a o).2 = a /\ (step a o).1 <> Ok true
  \/ exists p page_data,
       (step a o).1 = Ok true
       /\ (step a o).2 = _save_page a (op_type o) p page_data.
Proof.
  destruct o as [type_name values|type_name key]; cbn [step op_type].
  - destruct (create_record a type_name values) as [r a'] eqn:Hc. cbn [fst snd].
    destruct (create_record_inv _ _ _ _ _ Hc)
      as [[-> Hr]|(ti & pk & rec & _ & _ & _ & _ & _ & _ & -> & Hplace)];
      [left; auto|].
    destruct (place_record_inv _ _ _ _ _ _ _ _ Hplace)
      as [[-> Hr]|(p & pd & cnt & bm & s & hdr & _ & _ & _ & _ & _ & _ & ->)];
      [congruence|].
    right. eauto.
  - destruct (delete_record a type_name key) as [r a'] eqn:Hd. cbn [fst snd].
    destruct (delete_record_inv _ _ _ _ _ Hd) as [[-> Hr]|(ti & Hti & Hpages)];
      [left; auto|].
    assert (r = Ok true) as ->
      by (unfold delete_record in Hd; rewrite Hti, Hpages in Hd; congruence).
    destruct (delete_pages_inv _ _ _ _ _ _ _ _ Hpages)
      as [[_ Hr]|(p & pd & cnt & bm & s & vs & pd1 & hdr
                  & _ & _ & _ & _ & _ & _ & _ & _ & _ & _ & ->)];
      [congruence|].
    right. eauto.
Qed.

(** X4: [create_record] and [delete_record] change the archive only when
    they return [True]: a call that returns [False] or raises leaves the
    catalog and every file exactly as they were. *)
Theorem record_ops_change_only_on_success a o :
  (step a o).1 <> Ok true -> (step a o).2 = a.
Proof.
  intros H. destruct (step_inv a o) as [[E _]|(p & pd & E & _)];
    [exact E | contradiction].
Qed.

Lemma record_ops_change_only_on_success_witness :
  (step after_7 (CreateRecord (lit "T") [lit "7"])).2 = after_7
  /\ (step after_7 (DeleteRecord (lit "T") (lit "8"))).2 = after_7.
Proof.
  split.
  - apply (record_ops_change_only_on_success after_7 (CreateRecord (lit "T") [lit "7"])).
    vm_compute. discriminate.
  - apply (record_ops_change_only_on_success after_7 (DeleteRecord (lit "T") (lit "8"))).
    vm_compute. discriminate.
Defined.

(** X5: [create_record] and [delete_record] never change the in-memory
    catalog, and the only file they can change is the data file of the type
    they are called on: every other path of the file system keeps its
    contents, or stays absent. *)
Theorem record_ops_touch_one_file a o :
  catalog (step a o).2 = catalog a
  /\ forall path, path <> _get_data_file_path (op_type o) ->
       files (step a o).2 !! path = files a !! path.
Proof.
  destruct (step_inv a o) as [[-> _]|(p & pd & _ & ->)]; [auto|].
  split; [reflexivity|]. intros path Hne. unfold _save_page. cbn [files].
  apply lookup_insert_ne. congruence.
Qed.

(** ** The size of an encoded record *)

(** X6: for values that pass the validation loop of [create_record],
    [_serialize_record] produces exactly [_calculate_record_size] bytes, the
    first of which is the validity flag 1: one byte, four for every Integer
    field and a hundred for every Text field. *)
Theorem serialized_record_size a type_name ti values record_data :
  dict_get (catalog a) type_name = Some ti ->
  length values = length (fields ti) ->
  values_valid (fields ti) values = true ->
  _serialize_record a type_name values = Ok record_data ->
  length record_data = _calculate_record_size (fields ti)
  /\ record_data !! 0 = Some x01.
Proof.
  intros Hti Hlen Hval Hser.
  destruct (serialize_record_inv _ _ _ _ _ Hti Hser) as (bs & Hbs & ->).
  destruct (codec_fields _ _ _ Hlen Hval Hbs) as [Hl _].
  split; [|reflexivity].
  cbn [length]. rewrite Hl, _calculate_record_size_eq. reflexivity.
Qed.

Lemma serialized_record_size_witness :
  exists record_data,
    _serialize_record two_field_archive (lit "Person") [lit "Alice"; lit "30"]
    = Ok record_data
    /\ length record_data = 105 /\ record_data !! 0 = Some x01.
Proof.
  eexists. split; [vm_compute; reflexivity|].
  apply (serialized_record_size two_field_archive (lit "Person")
           {| fields := [(lit "name", t_str); (lit "age", t_int)];
              primary_key_order := 1; record_size := 105 |}
           [lit "Alice"; lit "30"]);
    vm_compute; reflexivity.
Defined.

(** ** Integers that do not fit four bytes *)

Lemma serialize_fields_overflow fields : forall values,
  length values = length fields ->
  values_valid fields values = true ->
  values_packable fields values = false ->
  serialize_fields fields 0 values = Raise StructError.
Proof.
  induction fields as [|[fname ft] rest IH]; intros [|v vs] Hlen Hval Hpack;
    try discriminate.
  destruct (values_valid_cons _ _ _ _ _ Hval) as (Hi & Hs & Hrest).
  injection Hlen as Hlen.
  unfold values_packable in Hpack. cbn [zip zip_with forallb] in Hpack.
  fold (values_packable rest vs) in Hpack.
  cbn [serialize_fields lookup list_lookup of_option].
  rewrite (serialize_fields_drop rest 1). change (drop 1 (v :: vs)) with vs.
  destruct (pystr_eqb ft t_int) eqn:Eint.
  - specialize (Hi eq_refl). unfold _is_valid_int_value in Hi.
    unfold int_in_range in Hpack.
    destruct (py_int v) as [z|] eqn:Ez; [|discriminate].
    rewrite bind_Ok, Ez. cbn [of_option]. rewrite bind_Ok. unfold pack_i.
    destruct ((- 2 ^ 31 <=? z)%Z && (z <? 2 ^ 31)%Z) eqn:Er; [|reflexivity].
    cbn [andb] in Hpack. rewrite bind_Ok, (IH vs Hlen Hrest Hpack). reflexivity.
  - cbn [andb] in Hpack.
    destruct (pystr_eqb ft t_str) eqn:Estr.
    + specialize (Hs eq_refl eq_refl).
      destruct (text_field_bytes v (valid_string_is_text _ Hs)) as (He & _).
      rewrite bind_Ok. cbv zeta in He. rewrite He, bind_Ok.
      rewrite (IH vs Hlen Hrest Hpack). reflexivity.
    + apply IH; assumption.
Qed.

Lemma create_record_struct_error a type_name ti values primary_key :
  dict_get (catalog a) type_name = Some ti ->
  length values = length (fields ti) ->
  values_valid (fields ti) values = true ->
  values_packable (fields ti) values = false ->
  _find_primary_key_value a type_name values = Ok primary_key ->
  search_record a type_name primary_key = Ok None ->
  create_record a type_name values = (Raise StructError, a).
Proof.
  intros Hti Hlen Hval Hpack Hkey Hsearch.
  unfold create_record. rewrite Hti, Hlen, Nat.eqb_refl, Hval. cbn [negb].
  rewrite Hkey. unfold search_record in Hsearch. rewrite Hsearch.
  unfold _serialize_record, type_of. rewrite Hti. cbn [of_option].
  rewrite bind_Ok. change (pack_B 1) with (Ok [x01]). rewrite bind_Ok.
  rewrite (serialize_fields_overflow _ _ Hlen Hval Hpack). reflexivity.
Qed.

(** X7: [create_record] raises [struct.error], and changes nothing, when
    the values pass validation, the key is not found, and an Integer value
    lies outside the signed 32-bit range: [_is_valid_int_value] accepts
    every integer that [int] converts, [struct.pack('i', ...)] does not.
    The values are ASCII strings of at most 4300 characters, on which
    [py_int] reads what [int] reads. *)
Theorem create_record_int_overflow a type_name ti values primary_key :
  dict_get (catalog a) type_name = Some ti ->
  length values = length (fields ti) ->
  ascii_values values = true ->
  int_convertible values = true ->
  values_valid (fields ti) values = true ->
  values_packable (fields ti) values = false ->
  _find_primary_key_value a type_name values = Ok primary_key ->
  search_record a type_name primary_key = Ok None ->
  create_record a type_name values = (Raise StructError, a).
Proof.
  intros Hti Hlen _ _ Hval Hpack Hkey Hsearch.
  exact (create_record_struct_error a type_name ti values primary_key
           Hti Hlen Hval Hpack Hkey Hsearch).
Qed.

Lemma create_record_int_overflow_witness :
  create_record one_int_archive (lit "T") [lit "2147483648"]
  = (Raise StructError, one_int_archive).
Proof.
  apply (create_record_int_overflow one_int_archive (lit "T")
           {| fields := [(lit "id", t_int)]; primary_key_order := 1;
              record_size := 5 |}
           [lit "2147483648"] (lit "2147483648"));
    vm_compute; reflexivity.
Defined.

(** * The catalog: saving, loading, creating types *)

Lemma save_catalog_storable a :
  forallb type_storable (catalog a) = true ->
  _save_catalog a
  = (Ok tt, {| catalog := catalog a;
               files := <[catalog_file := flat_map type_bytes (catalog a)]>
                          (files a) |}).
Proof.
  intros H. unfold _save_catalog. rewrite catalog_writes_ok by exact H.
  reflexivity.
Qed.

Lemma load_saved_catalog cat :
  catalog_storable cat = true ->
  load_types (length (flat_map type_bytes cat)) (flat_map type_bytes cat) 0 [] = cat.
Proof.
  intros Hst. apply andb_true_iff in Hst as [Hnd%bool_decide_eq_true Hst].
  rewrite <- load_types_fuel by lia.
  pose proof (load_types_bytes cat (S (length (flat_map type_bytes cat))) [] [] []
                Hst) as H.
  rewrite app_nil_r in H. apply H.
  - exact Hnd.
  - pose proof (length_catalog_bytes cat). lia.
  - left. reflexivity.
Qed.

Lemma init_saved_catalog (fs : gmap pystr bytes) cat :
  catalog_storable cat = true ->
  fs !! catalog_file = Some (flat_map type_bytes cat) ->
  catalog (init fs) = cat.
Proof.
  intros Hst Hfs. unfold init, _load_catalog. cbn [files catalog]. rewrite Hfs.
  cbn [catalog]. apply load_saved_catalog, Hst.
Qed.

(** X8: for a catalog with distinct type names, ASCII names and kinds and
    a primary-key order that fits 32 bits, [_save_catalog] succeeds, changes
    no file but [catalog.dat], and a new [DuneArchive] started on the
    resulting files loads exactly the catalog that was saved, record sizes
    included. *)
Theorem catalog_round_trip a :
  catalog_storable (catalog a) = true ->
  (_save_catalog a).1 = Ok tt
  /\ catalog (_save_catalog a).2 = catalog a
  /\ (forall path, path <> catalog_file ->
        files (_save_catalog a).2 !! path = files a !! path)
  /\ catalog (init (files (_save_catalog a).2)) = catalog a.
Proof.
  intros Hst. pose proof Hst as Hst'.
  apply andb_true_iff in Hst' as [_ Hall].
  rewrite (save_catalog_storable a Hall). cbn [fst snd catalog files].
  split; [reflexivity|]. split; [reflexivity|]. split.
  - intros path Hne. apply lookup_insert_ne. congruence.
  - apply init_saved_catalog; [exact Hst | apply lookup_insert_eq].
Qed.

Lemma catalog_round_trip_witness :
  catalog (init (files (_save_catalog two_field_archive).2))
  = catalog two_field_archive.
Proof.
  apply (catalog_round_trip two_field_archive). vm_compute. reflexivity.
Defined.

(** ** create_type on valid input *)

Lemma valid_name_ascii name :
  _is_valid_name name = true -> forallb is_ascii name = true.
Proof.
  unfold _is_valid_name.
  intros [[_ Hal]%andb_true_iff _]%andb_true_iff.
  assert (Hb : forallb is_ascii (before_dollar name) = true).
  { apply forallb_forall. intros c Hc.
    rewrite forallb_forall in Hal. apply is_alnum_text, Hal, Hc. }
  destruct (before_dollar_spec name) as [E|E]; [rewrite <- E; exact Hb|].
  rewrite E, forallb_app, Hb. reflexivity.
Qed.

Lemma short_ascii_of_valid name n :
  _is_valid_name name = true -> length name <= n -> n <= 20 ->
  short_ascii name = true.
Proof.
  intros Hv Hl Hn. unfold short_ascii. rewrite (valid_name_ascii _ Hv).
  apply Z.ltb_lt. lia.
Qed.

Lemma kind_short_ascii ft :
  pystr_eqb ft t_int || pystr_eqb ft t_str = true -> short_ascii ft = true.
Proof.
  unfold pystr_eqb.
  intros [->%bool_decide_eq_true | ->%bool_decide_eq_true]%orb_true_iff;
    reflexivity.
Qed.

Lemma parse_field_specs_ok field_specs : forall acc,
  field_pairs_ok field_specs = true ->
  parse_field_specs field_specs acc = Ok (Some (acc ++ spec_pairs field_specs))
  /\ forallb (fun f => short_ascii f.1 && short_ascii f.2) (spec_pairs field_specs)
     = true
  /\ 2 * length (spec_pairs field_specs) = length field_specs.
Proof.
  induction field_specs as [| x | x y l IH] using list_pair_ind; intros acc H.
  - cbn. rewrite app_nil_r. auto.
  - discriminate.
  - cbn [field_pairs_ok] in H.
    apply andb_true_iff in H as [[[Hv Hl%Nat.leb_le]%andb_true_iff Hk]%andb_true_iff Hr].
    cbn [parse_field_specs spec_pairs]. rewrite Hv, Hk. cbn [negb].
    destruct (Nat.ltb_spec MAX_FIELD_NAME_LENGTH (length x)); [lia|].
    destruct (IH (acc ++ [(x, y)]) Hr) as (-> & Hs & Hn).
    rewrite <- app_assoc. split; [reflexivity|]. split.
    + cbn [forallb fst snd]. rewrite Hs.
      rewrite (short_ascii_of_valid x MAX_FIELD_NAME_LENGTH Hv Hl)
        by (unfold MAX_FIELD_NAME_LENGTH; lia).
      rewrite (kind_short_ascii y Hk). reflexivity.
    + cbn [length]. lia.
Qed.

Lemma dict_get_None_names {V} (d : list (pystr * V)) k :
  dict_get d k = None -> k ∉ map fst d.
Proof.
  induction d as [|[k' v] d IH]; cbn [dict_get map fst].
  - intros _. apply not_elem_of_nil.
  - unfold pystr_eqb. destruct (bool_decide (k' = k)) eqn:E; [discriminate|].
    apply bool_decide_eq_false in E. intros H. apply not_elem_of_cons.
    split; [congruence | apply IH, H].
Qed.

Lemma dict_get_app_new {V} (d : list (pystr * V)) k v :
  dict_get d k = None -> dict_get (d ++ [(k, v)]) k = Some v.
Proof.
  induction d as [|[k' v'] d IH]; cbn [dict_get app].
  - intros _. unfold pystr_eqb. rewrite bool_decide_eq_true_2; reflexivity.
  - destruct (pystr_eqb k' k); [discriminate | exact IH].
Qed.

(** [create_type] on input that meets every precondition. *)
Lemma create_type_ok a type_name num_fields pk field_specs :
  catalog_storable (catalog a) = true ->
  create_type_preconditions a type_name num_fields pk field_specs = true ->
  let ti := {| fields := spec_pairs field_specs;
               primary_key_order := pk;
               record_size := _calculate_record_size (spec_pairs field_specs) |} in
  dict_get (catalog a) type_name = None
  /\ catalog_storable (catalog a ++ [(type_name, ti)]) = true
  /\ create_type a type_name num_fields pk field_specs
     = (Ok true,
        {| catalog := catalog a ++ [(type_name, ti)];
           files := <[catalog_file := flat_map type_bytes
                                        (catalog a ++ [(type_name, ti)])]>
                      (files a) |}).
Proof.
  intros Hst Hpre ti.
  unfold create_type_preconditions in Hpre.
  apply andb_true_iff in Hpre as [Hpre [Hcount%Z.eqb_eq Hpairs]%andb_true_iff].
  apply andb_true_iff in Hpre as [Hpre [Hpk1%Z.leb_le Hpk2%Z.leb_le]%andb_true_iff].
  apply andb_true_iff in Hpre as [Hpre Hnf%Z.leb_le].
  apply andb_true_iff in Hpre as [Hpre Hlen%Nat.leb_le].
  apply andb_true_iff in Hpre as [Hnew Hname].
  apply negb_true_iff in Hnew.
  assert (Hget : dict_get (catalog a) type_name = None).
  { destruct (dict_get (catalog a) type_name) eqn:E; [|reflexivity].
    rewrite bool_decide_eq_true_2 in Hnew by eauto. discriminate. }
  destruct (parse_field_specs_ok field_specs [] Hpairs) as (Hparse & Hascii & Hn).
  cbn [app] in Hparse.
  pose proof (dict_get_None_names _ _ Hget) as Hfresh.
  set (cat' := catalog a ++ [(type_name, ti)]).
  assert (Hnew_ok : type_storable (type_name, ti) = true).
  { unfold type_storable, ti. cbn [fst snd fields primary_key_order record_size].
    rewrite (short_ascii_of_valid type_name MAX_TYPE_NAME_LENGTH Hname Hlen)
      by (unfold MAX_TYPE_NAME_LENGTH; lia).
    rewrite Hascii, Nat.eqb_refl. cbn [andb]. rewrite !andb_true_r.
    unfold MAX_FIELDS_PER_TYPE in Hnf.
    apply andb_true_iff; split; [apply Z.ltb_lt; lia|].
    apply andb_true_iff; split; [apply Z.leb_le | apply Z.ltb_lt]; lia. }
  assert (Hst' : catalog_storable cat' = true).
  { unfold catalog_storable in *. apply andb_true_iff in Hst as [Hnd%bool_decide_eq_true Hall].
    apply andb_true_iff; split.
    - apply bool_decide_eq_true. unfold cat'. rewrite map_app. cbn [map fst].
      apply NoDup_app. split; [exact Hnd|]. split; [|apply NoDup_singleton].
      intros x Hx ->%list_elem_of_singleton. contradiction.
    - unfold cat'. rewrite forallb_app, Hall. cbn [forallb]. rewrite Hnew_ok.
      reflexivity. }
  pose proof Hst' as Hall'. apply andb_true_iff in Hall' as [_ Hall'].
  split; [exact Hget|]. split; [exact Hst'|].
  unfold create_type. rewrite Hnew, Hname. cbn [negb].
  destruct (Nat.ltb_spec MAX_TYPE_NAME_LENGTH (length type_name)); [lia|].
  destruct (Z.ltb_spec MAX_FIELDS_PER_TYPE num_fields); [lia|].
  destruct (Z.ltb_spec pk 1); [lia|].
  destruct (Z.ltb_spec num_fields pk); [lia|].
  cbn [orb]. rewrite Hparse.
  replace (Z.of_nat (length (spec_pairs field_specs)) =? num_fields)%Z with true
    by (symmetry; apply Z.eqb_eq; lia).
  cbn [negb]. rewrite (dict_get_app_None _ _ _ Hfresh). fold ti. fold cat'.
  rewrite save_catalog_storable by exact Hall'. reflexivity.
Qed.

(** X9: when all five preconditions hold, and the catalog in memory has
    distinct, ASCII-named entries, [create_type] returns [True]; the new
    type is appended to the catalog with the fields of [field_specs] in
    order, the given primary-key order and the record size computed from
    the fields; [catalog.dat] is rewritten and no other file changes; the
    catalog stays of the same kind, and a new [DuneArchive] started on the
    files loads the same catalog. *)
Theorem create_type_accepts a type_name num_fields primary_key_order field_specs :
  catalog_storable (catalog a) = true ->
  create_type_preconditions a type_name num_fields primary_key_order field_specs
  = true ->
  let ti := {| fields := spec_pairs field_specs;
               primary_key_order := primary_key_order;
               record_size := _calculate_record_size (spec_pairs field_specs) |} in
  exists a',
    create_type a type_name num_fields primary_key_order field_specs = (Ok true, a')
    /\ catalog a' = catalog a ++ [(type_name, ti)]
    /\ dict_get (catalog a') type_name = Some ti
    /\ files a' = <[catalog_file := catalog_bytes (catalog a')]> (files a)
    /\ catalog_storable (catalog a') = true
    /\ catalog (init (files a')) = catalog a'.
Proof.
  intros Hst Hpre ti.
  destruct (create_type_ok a type_name num_fields primary_key_order field_specs
              Hst Hpre) as (Hget & Hst' & Hc).
  fold ti in Hst', Hc.
  eexists. split; [exact Hc|]. cbn [catalog files].
  split; [reflexivity|].
  split; [apply dict_get_app_new, Hget|].
  split; [rewrite (catalog_bytes_storable _ Hst'); reflexivity|].
  split; [exact Hst'|].
  apply init_saved_catalog; [exact Hst' | apply lookup_insert_eq].
Qed.

Lemma create_type_accepts_witness :
  exists a',
    create_type one_int_archive (lit "Person") 2 1
      [lit "name"; lit "str"; lit "age"; lit "int"] = (Ok true, a')
    /\ catalog a'
       = catalog one_int_archive
         ++ [(lit "Person",
              {| fields := [(lit "name", t_str); (lit "age", t_int)];
                 primary_key_order := 1; record_size := 105 |})]
    /\ catalog (init (files a')) = catalog a'.
Proof.
  destruct (create_type_accepts one_int_archive (lit "Person") 2 1
              [lit "name"; lit "str"; lit "age"; lit "int"])
    as (a' & H1 & H2 & _ & _ & _ & H3);
    [vm_compute; reflexivity | vm_compute; reflexivity |].
  exists a'. split; [exact H1|]. split; [exact H2 | exact H3].
Defined.

(** * Creating, then searching *)

(** The states reached from a blank data file keep the catalog entry and
    the page invariant. *)
Lemma reached_ok a0 ops type_name ti :
  dict_get (catalog a0) type_name = Some ti ->
  fits_page ti ->
  blank_file a0 type_name ->
  dict_get (catalog (run a0 ops)) type_name = Some ti
  /\ file_ok (run a0 ops) type_name ti.
Proof.
  intros Hti Hfit Hblank.
  destruct (run_file_ok ops a0 type_name ti Hti Hfit
              (blank_file_ok _ _ _ Hfit Hblank)) as [Hcat Hok].
  rewrite Hcat. auto.
Qed.

(** The search looks at the catalog entry and the data file of the type
    and at nothing else. *)
Lemma load_page_same_file a a' type_name p :
  data_file a' type_name = data_file a type_name ->
  _load_page a' type_name p = _load_page a type_name p.
Proof. intros H. unfold _load_page. rewrite H. reflexivity. Qed.

Lemma live_records_same a a' type_name ti :
  catalog a' = catalog a ->
  data_file a' type_name = data_file a type_name ->
  live_records a' type_name ti = live_records a type_name ti.
Proof.
  intros Hcat Hf. unfold live_records. apply flat_map_same. intros p _.
  apply page_records_same; [exact Hcat | apply load_page_same_file, Hf].
Qed.

Lemma search_record_same a a' type_name key :
  catalog a' = catalog a ->
  data_file a' type_name = data_file a type_name ->
  search_record a' type_name key = search_record a type_name key.
Proof.
  intros Hcat Hf.
  destruct (dict_get (catalog a) type_name) as [ti|] eqn:Hti.
  - rewrite (search_record_first_match a' _ ti), (search_record_first_match a _ ti)
      by (rewrite ?Hcat; exact Hti).
    rewrite (live_records_same a a') by assumption. reflexivity.
  - unfold search_record, _search_record_internal. rewrite Hcat, Hti. reflexivity.
Qed.

(** X10: a [create_record] or [delete_record] on one type, whatever its
    outcome, does not change the result of any search on another type. *)
Theorem search_ignores_other_types a o type_name primary_key :
  op_type o <> type_name ->
  search_record (step a o).2 type_name primary_key
  = search_record a type_name primary_key.
Proof.
  intros Hne. apply search_record_same.
  - destruct o; cbn [step]; [apply create_record_frame | apply delete_record_frame].
  - destruct o; cbn [step op_type] in *;
      [apply create_record_frame | apply delete_record_frame]; congruence.
Qed.

Lemma search_ignores_other_types_witness :
  search_record (step after_7 (CreateRecord (lit "Person") [lit "Ann"; lit "3"])).2
    (lit "T") (lit "7")
  = search_record after_7 (lit "T") (lit "7").
Proof.
  apply (search_ignores_other_types after_7
           (CreateRecord (lit "Person") [lit "Ann"; lit "3"])).
  vm_compute. discriminate.
Defined.

(** A record put between the others does not change what a search for a
    different key finds. *)
Lemma first_match_insert_other l1 l2 new idx key :
  key_matches new idx key = Ok false ->
  first_match (l1 ++ [Ok new] ++ l2) idx key = first_match (l1 ++ l2) idx key.
Proof.
  intros Hk. rewrite !first_match_app.
  destruct (first_match l1 idx key) as [[r|]|e]; try reflexivity.
  cbn [first_match]. rewrite bind_Ok, Hk, bind_Ok. reflexivity.
Qed.

Lemma created_key a type_name ti values a' :
  dict_get (catalog a) type_name = Some ti ->
  (1 <= primary_key_order ti)%Z ->
  create_record a type_name values = (Ok true, a') ->
  length values = length (fields ti)
  /\ values_valid (fields ti) values = true
  /\ exists key,
       values !! Z.to_nat (primary_key_order ti - 1) = Some key
       /\ search_record a type_name key = Ok None.
Proof.
  intros Hti Hpk Hc.
  destruct (create_record_inv _ _ _ _ _ Hc)
    as [[_ Hr]|(ti' & key & rec & Hti' & Hlen & Hval & Hkey & Hsearch & _)];
    [congruence|].
  assert (ti' = ti) as -> by congruence.
  split; [exact Hlen|]. split; [exact Hval|]. exists key. split; [|exact Hsearch].
  unfold _find_primary_key_value, type_of in Hkey. rewrite Hti in Hkey.
  cbn [of_option] in Hkey. rewrite bind_Ok in Hkey.
  apply py_index_nonneg in Hkey; [exact Hkey | lia].
Qed.

(** X11: in a state reached from a blank data file, for a type whose ten
    slots fit the page, a record whose values are in stored form (integers
    in their decimal form within 32 bits, texts of at most 99 characters
    that the validator accepts) is found again as it was given: after a successful
    [create_record], [search_record] with its primary key returns exactly
    those values. *)
Theorem create_then_search a0 ops type_name ti values a' :
  dict_get (catalog a0) type_name = Some ti ->
  fits_page ti ->
  blank_file a0 type_name ->
  (1 <= primary_key_order ti)%Z ->
  canonical_values (fields ti) values = true ->
  create_record (run a0 ops) type_name values = (Ok true, a') ->
  exists primary_key,
    values !! Z.to_nat (primary_key_order ti - 1) = Some primary_key
    /\ search_record a' type_name primary_key = Ok (Some values).
Proof.
  intros Hti0 Hfit Hblank Hpk Hcan Hc.
  destruct (reached_ok a0 ops type_name ti Hti0 Hfit Hblank) as [Hti Hok].
  set (a := run a0 ops) in *.
  destruct (created_key _ _ _ _ _ Hti Hpk Hc) as (Hlen & Hval & key & Hkey & Hsearch).
  destruct (canonical_values_facts _ _ Hcan) as (_ & _ & _ & Hstored).
  exists key. split; [exact Hkey|].
  destruct (live_records_after_create _ _ _ _ _ Hti Hfit Hok Hc)
    as (l1 & l2 & Hbefore & Hafter).
  assert (Hti' : dict_get (catalog a') type_name = Some ti).
  { pose proof (create_record_frame a type_name values) as [Hcat _].
    rewrite Hc in Hcat. cbn [snd] in Hcat. rewrite Hcat. exact Hti. }
  assert (Hidx : (0 <= primary_key_order ti - 1)%Z) by lia.
  rewrite (search_record_first_match _ _ _ _ Hti), Hbefore in Hsearch.
  rewrite (search_record_first_match _ _ _ _ Hti'), Hafter, Hstored.
  destruct (first_match_insert_hit l1 l2 values _ key key Hsearch)
    as (r & Hr & _ & Hnew).
  - rewrite (key_matches_at _ _ _ _ Hidx Hkey). f_equal.
    apply bool_decide_eq_true_2. reflexivity.
  - rewrite Hr, (Hnew Hsearch). reflexivity.
Qed.

Lemma create_then_search_witness :
  exists primary_key,
    [lit "Alice"; lit "30"] !! Z.to_nat (1 - 1) = Some primary_key
    /\ search_record
         (create_record
            (run two_field_archive [CreateRecord (lit "Person") [lit "Bob"; lit "-4"]])
            (lit "Person") [lit "Alice"; lit "30"]).2
         (lit "Person") primary_key
       = Ok (Some [lit "Alice"; lit "30"]).
Proof.
  apply (create_then_search two_field_archive
           [CreateRecord (lit "Person") [lit "Bob"; lit "-4"]] (lit "Person")
           {| fields := [(lit "name", t_str); (lit "age", t_int)];
              primary_key_order := 1; record_size := 105 |}
           [lit "Alice"; lit "30"]).
  - vm_compute. reflexivity.
  - split; vm_compute; [lia | reflexivity].
  - exact I.
  - cbn. lia.
  - vm_compute. reflexivity.
  - vm_compute. reflexivity.
Defined.

(** X12: in a state reached from a blank data file, for a type whose ten
    slots fit the page, a successful [create_record] changes the result of
    [search_record] for no key but the one the new record is stored under
    (the primary-key value as it reads back: an integer in decimal form, a
    text cut to 99 characters). *)
Theorem create_keeps_other_keys a0 ops type_name ti values a' stored_key other_key :
  dict_get (catalog a0) type_name = Some ti ->
  fits_page ti ->
  blank_file a0 type_name ->
  (1 <= primary_key_order ti)%Z ->
  create_record (run a0 ops) type_name values = (Ok true, a') ->
  stored_values (fields ti) values !! Z.to_nat (primary_key_order ti - 1)
  = Some stored_key ->
  other_key <> stored_key ->
  search_record a' type_name other_key
  = search_record (run a0 ops) type_name other_key.
Proof.
  intros Hti0 Hfit Hblank Hpk Hc Hstored Hne.
  destruct (reached_ok a0 ops type_name ti Hti0 Hfit Hblank) as [Hti Hok].
  set (a := run a0 ops) in *.
  destruct (live_records_after_create _ _ _ _ _ Hti Hfit Hok Hc)
    as (l1 & l2 & Hbefore & Hafter).
  assert (Hti' : dict_get (catalog a') type_name = Some ti).
  { pose proof (create_record_frame a type_name values) as [Hcat _].
    rewrite Hc in Hcat. cbn [snd] in Hcat. rewrite Hcat. exact Hti. }
  assert (Hidx : (0 <= primary_key_order ti - 1)%Z) by lia.
  rewrite (search_record_first_match _ _ _ _ Hti), Hbefore.
  rewrite (search_record_first_match _ _ _ _ Hti'), Hafter.
  apply first_match_insert_other.
  rewrite (key_matches_at _ _ _ _ Hidx Hstored). f_equal.
  apply bool_decide_eq_false_2. congruence.
Qed.

Lemma create_keeps_other_keys_witness :
  search_record
    (create_record
       (run two_field_archive [CreateRecord (lit "Person") [lit "Bob"; lit "-4"]])
       (lit "Person") [lit "Alice"; lit "30"]).2
    (lit "Person") (lit "Bob")
  = search_record
      (run two_field_archive [CreateRecord (lit "Person") [lit "Bob"; lit "-4"]])
      (lit "Person") (lit "Bob").
Proof.
  apply (create_keeps_other_keys two_field_archive
           [CreateRecord (lit "Person") [lit "Bob"; lit "-4"]] (lit "Person")
           {| fields := [(lit "name", t_str); (lit "age", t_int)];
              primary_key_order := 1; record_size := 105 |}
           [lit "Alice"; lit "30"] _ (lit "Alice") (lit "Bob")).
  - vm_compute. reflexivity.
  - split; vm_compute; [lia | reflexivity].
  - exact I.
  - cbn. lia.
  - vm_compute. reflexivity.
  - vm_compute. reflexivity.
  - vm_compute. discriminate.
Defined.

(** ** When create_record returns True *)

(** X13: in a state reached from a blank data file, for a type whose ten
    slots fit the page, and for values of the right number (ASCII strings
    of at most 4300 characters, on which [py_int] reads what [int] reads)
    that pass the validators and whose integers fit 32 bits: if the search
    for the primary-key value does not raise, [create_record] does not
    raise either, and it returns [True] exactly when the search found
    nothing and some page among the hundred has a free slot. *)
Theorem create_record_outcome a0 ops type_name ti values primary_key found :
  dict_get (catalog a0) type_name = Some ti ->
  fits_page ti ->
  blank_file a0 type_name ->
  (1 <= primary_key_order ti)%Z ->
  length values = length (fields ti) ->
  ascii_values values = true ->
  int_convertible values = true ->
  values_valid (fields ti) values = true ->
  values_packable (fields ti) values = true ->
  values !! Z.to_nat (primary_key_order ti - 1) = Some primary_key ->
  search_record (run a0 ops) type_name primary_key = Ok found ->
  (create_record (run a0 ops) type_name values).1
  = Ok (match found with
        | Some _ => false
        | None => negb (file_is_full (run a0 ops) type_name)
        end).
Proof.
  intros Hti0 Hfit Hblank Hpk Hlen _ _ Hval Hpack Hkey Hsearch.
  destruct (reached_ok a0 ops type_name ti Hti0 Hfit Hblank) as [Hti Hok].
  set (a := run a0 ops) in *.
  assert (Hidx : (0 <= primary_key_order ti - 1)%Z) by lia.
  destruct found as [r|].
  - unfold create_record. rewrite Hti, Hlen, Nat.eqb_refl, Hval. cbn [negb].
    unfold _find_primary_key_value, type_of. rewrite Hti. cbn [of_option].
    rewrite bind_Ok, (py_index_lookup _ _ _ Hidx Hkey).
    unfold search_record in Hsearch. rewrite Hsearch. reflexivity.
  - destruct (file_is_full a type_name) eqn:Hfull; cbn [negb].
    + unfold create_record. rewrite Hti, Hlen, Nat.eqb_refl, Hval. cbn [negb].
      unfold _find_primary_key_value, type_of. rewrite Hti. cbn [of_option].
      rewrite bind_Ok, (py_index_lookup _ _ _ Hidx Hkey).
      unfold search_record in Hsearch. rewrite Hsearch.
      destruct (serialize_fields_total _ _ Hlen Hval Hpack) as [bs Hbs].
      rewrite (serialize_record_ok _ _ _ _ _ Hti Hbs).
      rewrite place_record_full by exact Hfull. reflexivity.
    + destruct (create_record_succeeds _ _ _ _ _ Hti Hfit Hok Hlen Hval Hpack Hpk
                  Hkey Hsearch Hfull) as [a' ->].
      reflexivity.
Qed.

Lemma create_record_outcome_witness :
  (create_record (run one_int_archive sample_run) (lit "T") [lit "8"]).1 = Ok false
  /\ (create_record (run one_int_archive sample_run) (lit "T") [lit "7"]).1 = Ok true.
Proof.
  split.
  - apply (create_record_outcome one_int_archive sample_run (lit "T")
             {| fields := [(lit "id", t_int)]; primary_key_order := 1;
                record_size := 5 |} [lit "8"] (lit "8") (Some [lit "8"]));
      first [ exact I | vm_compute; reflexivity | cbn; lia
            | split; vm_compute; [lia | reflexivity] ].
  - apply (create_record_outcome one_int_archive sample_run (lit "T")
             {| fields := [(lit "id", t_int)]; primary_key_order := 1;
                record_size := 5 |} [lit "7"] (lit "7") None);
      first [ exact I | vm_compute; reflexivity | cbn; lia
            | split; vm_compute; [lia | reflexivity] ].
Defined.

(** * Deleting *)

(** ** The deletion loop follows the search loop *)

Lemma key_matches_true_some values idx key :
  key_matches values idx key = Ok true -> exists r, values = Some r.
Proof. destruct values as [r|]; [eauto | discriminate]. Qed.

(** A record that decodes has at least its validity byte. *)
Lemma deserialize_record_nonempty a type_name record_data values :
  _deserialize_record a type_name record_data = Ok values -> record_data <> [].
Proof.
  unfold _deserialize_record. intros H ->. bind_inv H. bind_inv H. discriminate.
Qed.

Lemma search_slots_skip a type_name ti page_data bitmap key slot rest :
  bit_set bitmap slot = false ->
  search_slots a type_name ti page_data bitmap key (slot :: rest)
  = search_slots a type_name ti page_data bitmap key rest.
Proof. intros H. cbn [search_slots]. rewrite H. reflexivity. Qed.

Lemma search_slots_miss a type_name ti page_data bitmap key slot rest values :
  bit_set bitmap slot = true ->
  _deserialize_record a type_name
    (slice page_data (slot_offset ti slot) (record_size ti)) = Ok values ->
  key_matches values (primary_key_order ti - 1)%Z key = Ok false ->
  search_slots a type_name ti page_data bitmap key (slot :: rest)
  = search_slots a type_name ti page_data bitmap key rest.
Proof.
  intros Hb Hd Hk. cbn [search_slots]. rewrite Hb. unfold slot_offset in Hd.
  rewrite Hd, bind_Ok, Hk, bind_Ok. reflexivity.
Qed.

(** What [delete_slots] does, read off the result of [search_slots] on the
    same page: it raises where the search raises, finds nothing where the
    search finds nothing, and deletes the slot of the record that the
    search returns. *)
Lemma delete_slots_scan a type_name ti p page_data num_records bitmap key slots :
  (Z.of_nat p < 2 ^ 32)%Z ->
  (0 < num_records < 2 ^ 32)%Z ->
  (0 <= bitmap < 2 ^ 32)%Z ->
  match search_slots a type_name ti page_data bitmap key slots with
  | Raise e =>
      delete_slots a type_name ti p page_data num_records bitmap key slots = Raise e
  | Ok None =>
      delete_slots a type_name ti p page_data num_records bitmap key slots = Ok None
  | Ok (Some r) =>
      exists s1 slot s2 page_data1 hdr,
        slots = s1 ++ slot :: s2
        /\ search_slots a type_name ti page_data bitmap key s1 = Ok None
        /\ bit_set bitmap slot = true
        /\ _deserialize_record a type_name
             (slice page_data (slot_offset ti slot) (record_size ti)) = Ok (Some r)
        /\ key_matches (Some r) (primary_key_order ti - 1)%Z key = Ok true
        /\ index_assign page_data (slot_offset ti slot) x00 = Ok page_data1
        /\ _create_page_header (Z.of_nat p) (num_records - 1)
             (Z.land bitmap (Z.lnot (Z.shiftl 1 (Z.of_nat slot)))) = Ok hdr
        /\ delete_slots a type_name ti p page_data num_records bitmap key slots
           = Ok (Some (_save_page a type_name p (slice_assign page_data1 0 12 hdr)))
  end.
Proof.
  intros Hp Hn Hbm.
  induction slots as [|s rest IH]; [reflexivity|].
  cbn [search_slots delete_slots].
  destruct (bit_set bitmap s) eqn:Eb.
  - fold (slot_offset ti s).
    destruct (_deserialize_record a type_name
                (slice page_data (slot_offset ti s) (record_size ti)))
      as [values|e] eqn:Ed; [|reflexivity].
    rewrite !bind_Ok.
    destruct (key_matches values (primary_key_order ti - 1)%Z key) as [[|]|e] eqn:Ek;
      [| |reflexivity]; rewrite !bind_Ok.
    + destruct (key_matches_true_some _ _ _ Ek) as [r ->].
      pose proof (deserialize_record_nonempty _ _ _ _ Ed) as Hne.
      assert (Hin : slot_offset ti s < length page_data).
      { destruct (Nat.lt_ge_cases (slot_offset ti s) (length page_data)) as [|Hge];
          [assumption|].
        exfalso. apply Hne. unfold slice. rewrite drop_ge by lia. apply take_nil. }
      assert (Hi : index_assign page_data (slot_offset ti s) x00
                   = Ok (<[slot_offset ti s := x00]> page_data)).
      { unfold index_assign.
        destruct (Nat.ltb_spec (slot_offset ti s) (length page_data));
          [reflexivity | lia]. }
      pose proof (create_page_header_ok (Z.of_nat p) (num_records - 1)
                    (Z.land bitmap (Z.lnot (Z.shiftl 1 (Z.of_nat s))))
                    ltac:(lia) ltac:(lia) (land_clear_bound _ s Hbm)) as Hh.
      exists [], s, rest. do 2 eexists.
      split; [reflexivity|]. split; [reflexivity|]. split; [exact Eb|].
      split; [exact Ed|]. split; [exact Ek|].
      split; [exact Hi|]. split; [exact Hh|].
      rewrite Hi, bind_Ok, Hh, bind_Ok. reflexivity.
    + destruct (search_slots a type_name ti page_data bitmap key rest)
        as [[r|]|e]; try exact IH.
      destruct IH as (s1 & slot & s2 & pd1 & hdr & -> & Hs1 & Hx).
      exists (s :: s1), slot, s2, pd1, hdr.
      split; [reflexivity|]. split; [|exact Hx].
      rewrite (search_slots_miss _ _ _ _ _ _ _ _ _ Eb Ed Ek). exact Hs1.
  - destruct (search_slots a type_name ti page_data bitmap key rest)
      as [[r|]|e]; try exact IH.
    destruct IH as (s1 & slot & s2 & pd1 & hdr & -> & Hs1 & Hx).
    exists (s :: s1), slot, s2, pd1, hdr.
    split; [reflexivity|]. split; [|exact Hx].
    rewrite search_slots_skip by exact Eb. exact Hs1.
Qed.

Lemma load_page_some_inv a type_name p page_data num_records bitmap :
  _load_page a type_name p = Ok (Some page_data, num_records, bitmap) ->
  12 <= length page_data
  /\ num_records = count_of page_data /\ bitmap = bitmap_of page_data
  /\ (0 <= num_records < 2 ^ 32)%Z /\ (0 <= bitmap < 2 ^ 32)%Z.
Proof.
  intros H.
  destruct (Nat.lt_ge_cases (length (file_bytes a type_name)) (p * PAGE_SIZE + 12))
    as [Hs|Hl].
  - rewrite load_page_short in H by exact Hs. discriminate.
  - rewrite load_page_long in H by exact Hl. injection H as <- <- <-.
    assert (L : 12 <= length (page_at (file_bytes a type_name) p))
      by (unfold page_at; rewrite length_slice; unfold PAGE_SIZE in *; lia).
    split; [exact L|]. split; [reflexivity|]. split; [reflexivity|].
    split; apply header_field_range; lia.
Qed.

Lemma seq_prefix a n s : a <= s < a + n -> seq a n = seq a (s - a) ++ s :: seq (S s) (a + n - S s).
Proof.
  intros H. replace n with ((s - a) + S (a + n - S s)) at 1 by lia.
  rewrite seq_app. replace (a + (s - a)) with s by lia. reflexivity.
Qed.

Lemma search_pages_split a type_name ti key n m : forall p0,
  search_pages (n + m) a type_name ti key p0
  = match search_pages n a type_name ti key p0 with
    | Ok None => search_pages m a type_name ti key (p0 + n)
    | r => r
    end.
Proof.
  intros p0. rewrite !search_pages_first_match, seq_app, flat_map_app.
  apply first_match_app.
Qed.

(** The same for the page loop. *)
Lemma delete_pages_scan a type_name ti key n : forall p0,
  p0 + n <= MAX_PAGES_PER_FILE ->
  match search_pages n a type_name ti key p0 with
  | Raise e => delete_pages n a type_name ti key p0 = (Raise e, a)
  | Ok None => delete_pages n a type_name ti key p0 = (Ok false, a)
  | Ok (Some r) =>
      exists p slot page_data num_records bitmap page_data1 hdr,
        p0 <= p < p0 + n
        /\ search_pages (p - p0) a type_name ti key p0 = Ok None
        /\ _load_page a type_name p = Ok (Some page_data, num_records, bitmap)
        /\ num_records <> 0%Z
        /\ slot < MAX_RECORDS_PER_PAGE
        /\ search_slots a type_name ti page_data bitmap key (seq 0 slot) = Ok None
        /\ bit_set bitmap slot = true
        /\ _deserialize_record a type_name
             (slice page_data (slot_offset ti slot) (record_size ti)) = Ok (Some r)
        /\ key_matches (Some r) (primary_key_order ti - 1)%Z key = Ok true
        /\ index_assign page_data (slot_offset ti slot) x00 = Ok page_data1
        /\ _create_page_header (Z.of_nat p) (num_records - 1)
             (Z.land bitmap (Z.lnot (Z.shiftl 1 (Z.of_nat slot)))) = Ok hdr
        /\ delete_pages n a type_name ti key p0
           = (Ok true, _save_page a type_name p (slice_assign page_data1 0 12 hdr))
  end.
Proof.
  induction n as [|n IH]; intros p0 Hb; [reflexivity|].
  cbn [search_pages delete_pages].
  assert (Hnext :
    match search_pages n a type_name ti key (S p0) with
    | Raise e => delete_pages n a type_name ti key (S p0) = (Raise e, a)
    | Ok None => delete_pages n a type_name ti key (S p0) = (Ok false, a)
    | Ok (Some r) =>
        search_pages 1 a type_name ti key p0 = Ok None ->
        exists p slot page_data num_records bitmap page_data1 hdr,
          p0 <= p < p0 + S n
          /\ search_pages (p - p0) a type_name ti key p0 = Ok None
          /\ _load_page a type_name p = Ok (Some page_data, num_records, bitmap)
          /\ num_records <> 0%Z
          /\ slot < MAX_RECORDS_PER_PAGE
          /\ search_slots a type_name ti page_data bitmap key (seq 0 slot) = Ok None
          /\ bit_set bitmap slot = true
          /\ _deserialize_record a type_name
               (slice page_data (slot_offset ti slot) (record_size ti)) = Ok (Some r)
          /\ key_matches (Some r) (primary_key_order ti - 1)%Z key = Ok true
          /\ index_assign page_data (slot_offset ti slot) x00 = Ok page_data1
          /\ _create_page_header (Z.of_nat p) (num_records - 1)
               (Z.land bitmap (Z.lnot (Z.shiftl 1 (Z.of_nat slot)))) = Ok hdr
          /\ delete_pages n a type_name ti key (S p0)
             = (Ok true, _save_page a type_name p (slice_assign page_data1 0 12 hdr))
    end).
  { specialize (IH (S p0) ltac:(lia)).
    destruct (search_pages n a type_name ti key (S p0)) as [[r|]|e]; try exact IH.
    intros Hfirst.
    destruct IH as (p & slot & pd & cnt & bm & pd1 & hdr & Hp & Hbefore & Hx).
    exists p, slot, pd, cnt, bm, pd1, hdr. split; [lia|]. split; [|exact Hx].
    replace (p - p0) with (1 + (p - S p0)) by lia.
    rewrite search_pages_split, Hfirst. replace (p0 + 1) with (S p0) by lia.
    exact Hbefore. }
  destruct (_load_page a type_name p0) as [[[[pd|] cnt] bm]|e] eqn:El;
    rewrite ?bind_Ok.
  - destruct (Z.eqb_spec cnt 0) as [Hz|Hnz].
    + destruct (search_pages n a type_name ti key (S p0)) as [[r|]|e];
        try exact Hnext.
      apply Hnext. cbn [search_pages]. rewrite El, bind_Ok.
      destruct (Z.eqb_spec cnt 0); [reflexivity | contradiction].
    + destruct (load_page_some_inv _ _ _ _ _ _ El) as (_ & _ & _ & Hcnt & Hbm).
      pose proof (delete_slots_scan a type_name ti p0 pd cnt bm key
                    (seq 0 MAX_RECORDS_PER_PAGE)
                    ltac:(unfold MAX_PAGES_PER_FILE in Hb; lia) ltac:(lia) Hbm)
        as Hscan.
      destruct (search_slots a type_name ti pd bm key (seq 0 MAX_RECORDS_PER_PAGE))
        as [[r|]|e] eqn:Es; rewrite ?bind_Ok.
      * destruct Hscan as (s1 & slot & s2 & pd1 & hdr & Hsplit & Hs1 & Hbit & Hd
                           & Hk & Hi & Hh & ->).
        assert (Hslot : slot < MAX_RECORDS_PER_PAGE /\ s1 = seq 0 slot).
        { assert (Hlen : length s1 = slot).
          { assert (Hl : seq 0 MAX_RECORDS_PER_PAGE !! length s1 = Some slot)
              by (rewrite Hsplit; apply list_lookup_middle; reflexivity).
            apply lookup_seq in Hl. lia. }
          assert (Hlt : slot < MAX_RECORDS_PER_PAGE).
          { apply (f_equal (@length nat)) in Hsplit.
            rewrite length_seq, length_app in Hsplit. cbn [length] in Hsplit. lia. }
          split; [exact Hlt|].
          rewrite (seq_split _ _ Hlt) in Hsplit.
          apply app_inj_1 in Hsplit; [symmetry; apply Hsplit|].
          rewrite length_seq. lia. }
        destruct Hslot as [Hslot ->].
        exists p0, slot, pd, cnt, bm, pd1, hdr.
        split; [lia|]. rewrite Nat.sub_diag.
        split; [reflexivity|]. split; [exact El|]. split; [exact Hnz|].
        split; [exact Hslot|]. split; [exact Hs1|]. split; [exact Hbit|].
        split; [exact Hd|]. split; [exact Hk|]. split; [exact Hi|].
        split; [exact Hh | reflexivity].
      * rewrite Hscan.
        destruct (search_pages n a type_name ti key (S p0)) as [[r|]|e];
          try exact Hnext.
        apply Hnext. cbn [search_pages]. rewrite El, bind_Ok.
        destruct (Z.eqb_spec cnt 0); [contradiction|]. rewrite Es, bind_Ok.
        reflexivity.
      * rewrite Hscan. reflexivity.
  - destruct (search_pages n a type_name ti key (S p0)) as [[r|]|e];
      try exact Hnext.
    apply Hnext. cbn [search_pages]. rewrite El, bind_Ok. reflexivity.
  - reflexivity.
Qed.

(** X14: [delete_record] succeeds exactly where [search_record] finds a
    record, in every archive: it returns [True] when the search for the key
    returns a record, [False] when the search returns nothing, and raises
    what the search raises. *)
Theorem delete_record_mirrors_search a type_name primary_key :
  (delete_record a type_name primary_key).1
  = match search_record a type_name primary_key with
    | Ok (Some _) => Ok true
    | Ok None => Ok false
    | Raise e => Raise e
    end.
Proof.
  unfold delete_record, search_record, _search_record_internal.
  destruct (dict_get (catalog a) type_name) as [ti|]; [|reflexivity].
  pose proof (delete_pages_scan a type_name ti primary_key MAX_PAGES_PER_FILE 0
                ltac:(lia)) as H.
  destruct (search_pages MAX_PAGES_PER_FILE a type_name ti primary_key 0)
    as [[r|]|e].
  - destruct H as (p & slot & pd & cnt & bm & pd1 & hdr & H). 
    destruct H as (_ & _ & _ & _ & _ & _ & _ & _ & _ & _ & _ & ->). reflexivity.
  - rewrite H. reflexivity.
  - rewrite H. reflexivity.
Qed.

(** ** The page and the records after a delete *)

Lemma delete_record_effect a type_name ti key a' :
  dict_get (catalog a) type_name = Some ti ->
  fits_page ti ->
  file_ok a type_name ti ->
  delete_record a type_name key = (Ok true, a') ->
  exists p slot r page_data num_records bitmap page_data',
    (p < MAX_PAGES_PER_FILE /\ slot < MAX_RECORDS_PER_PAGE
     /\ search_pages p a type_name ti key 0 = Ok None
     /\ search_slots a type_name ti page_data bitmap key (seq 0 slot) = Ok None)
    /\ (_load_page a type_name p = Ok (Some page_data, num_records, bitmap)
        /\ num_records <> 0%Z
        /\ page_ok ti page_data
        /\ num_records = count_of page_data /\ bitmap = bitmap_of page_data)
    /\ (bit_set bitmap slot = true
        /\ _deserialize_record a type_name
             (slice page_data (slot_offset ti slot) (record_size ti)) = Ok (Some r)
        /\ key_matches (Some r) (primary_key_order ti - 1)%Z key = Ok true)
    /\ (_load_page a' type_name p
        = Ok (Some page_data', (num_records - 1)%Z,
              Z.land bitmap (Z.lnot (Z.shiftl 1 (Z.of_nat slot))))
        /\ page_data' !! slot_offset ti slot = Some x00
        /\ (forall i, 12 <= i -> i <> slot_offset ti slot ->
              page_data' !! i = page_data !! i)
        /\ (forall s', s' < MAX_RECORDS_PER_PAGE -> s' <> slot ->
              slice page_data' (slot_offset ti s') (record_size ti)
              = slice page_data (slot_offset ti s') (record_size ti)))
    /\ (forall q, q <> p -> _load_page a' type_name q = _load_page a type_name q)
    /\ catalog a' = catalog a.
Proof.
  intros Hti Hfit Hok Hd.
  unfold delete_record in Hd. rewrite Hti in Hd.
  pose proof (delete_pages_scan a type_name ti key MAX_PAGES_PER_FILE 0
                ltac:(lia)) as Hscan.
  destruct (search_pages MAX_PAGES_PER_FILE a type_name ti key 0) as [[r|]|e];
    [|congruence|congruence].
  destruct Hscan as (p & s & pd & cnt & bm & pd1 & hdr & Hp & Hbefore & Hl & Hcnt
                     & Hs10 & Hlow & Hbit & Hdec & Hk & Hi & Hh & Hdel).
  rewrite Hdel in Hd. injection Hd as <-.
  rewrite Nat.sub_0_r in Hbefore.
  destruct (load_page_file_ok _ _ _ _ _ _ _ Hok Hl)
    as (f & k & Hf & Hk' & Hpk & Epd & Ecnt & Ebm & Hpage).
  destruct (slot_in_page ti s Hfit Hs10) as [Ho1 Ho2].
  pose proof (record_size_pos ti Hfit) as Hrs.
  pose proof (proj1 Hpage) as Hpl.
  assert (Hin : slot_offset ti s < length pd) by (rewrite Hpl; lia).
  unfold index_assign in Hi.
  destruct (Nat.ltb_spec (slot_offset ti s) (length pd)); [|lia].
  injection Hi as Hi.
  assert (L1 : length pd1 = PAGE_SIZE)
    by (rewrite <- Hi; etrans; [apply length_insert | exact Hpl]).
  assert (Hz : pd1 !! slot_offset ti s = Some x00)
    by (rewrite <- Hi; apply list_lookup_insert_eq; exact Hin).
  assert (Hnz : forall i, i <> slot_offset ti s -> pd1 !! i = pd !! i)
    by (intros i Hne; rewrite <- Hi; apply list_lookup_insert_ne; congruence).
  assert (Hsa : pd1 = slice_assign pd (slot_offset ti s) (S (slot_offset ti s)) [x00])
    by (rewrite <- Hi; apply insert_as_slice_assign; exact Hin).
  clear Hi.
  destruct (header_written pd1 _ _ _ hdr Hh
              ltac:(rewrite L1; unfold PAGE_SIZE; lia))
    as (L2 & Hc2 & Hb2 & Hl2 & Hsl2).
  set (pd2 := slice_assign pd1 0 12 hdr) in *.
  rewrite L1 in L2.
  destruct (save_page_file a type_name p pd2 f k
              ltac:(rewrite Hf; reflexivity) Hk' ltac:(lia) L2)
    as (f' & Hf' & Hl' & Hat & Hother).
  assert (Hload' : _load_page (_save_page a type_name p pd2) type_name p
                   = Ok (Some pd2, (cnt - 1)%Z,
                         Z.land bm (Z.lnot (Z.shiftl 1 (Z.of_nat s))))).
  { rewrite (load_page_present _ type_name f' p Hf')
      by (rewrite Hl'; unfold PAGE_SIZE; lia).
    rewrite Hat, Hc2, Hb2. reflexivity. }
  exists p, s, r, pd, cnt, bm, pd2.
  split; [split; [lia|]; split; [exact Hs10|]; split; [exact Hbefore | exact Hlow]|].
  split; [split; [exact Hl|]; split; [exact Hcnt|]; split; [exact Hpage|];
          split; [exact Ecnt | exact Ebm]|].
  split; [split; [exact Hbit|]; split; [exact Hdec | exact Hk]|].
  split; [|split; [|reflexivity]].
  - split; [exact Hload'|].
    split.
    { unfold pd2. rewrite Hl2 by exact Ho1. exact Hz. }
    split.
    { intros i Hi Hne. unfold pd2. rewrite Hl2 by exact Hi. apply Hnz, Hne. }
    intros s' Hs' Hne.
    destruct (slot_in_page ti s' Hfit Hs') as [Ho1' Ho2'].
    unfold pd2. rewrite Hsl2 by exact Ho1'. rewrite Hsa.
    destruct (slots_apart ti s' s Hne) as [Hlt|Hgt].
    + apply slice_assign_before; cbn [length]; lia.
    + apply slice_assign_after; cbn [length]; lia.
  - intros q Hq.
    destruct (Nat.lt_ge_cases q k) as [Hlt|Hge].
    + rewrite (load_page_present _ type_name f q Hf)
        by (rewrite Hk'; unfold PAGE_SIZE; lia).
      rewrite (load_page_present _ type_name f' q Hf')
        by (rewrite Hl'; unfold PAGE_SIZE; lia).
      rewrite (Hother q Hq Hlt). reflexivity.
    + rewrite (load_page_beyond _ type_name f q Hf)
        by (rewrite Hk'; unfold PAGE_SIZE; lia).
      apply (load_page_beyond _ type_name f' q Hf').
      rewrite Hl'. unfold PAGE_SIZE. lia.
Qed.

(** A delete takes the first record that matches the key out of the
    page-then-slot sequence of the file's records and leaves the others as
    they were. *)
Lemma live_records_after_delete a type_name ti key a' :
  dict_get (catalog a) type_name = Some ti ->
  fits_page ti ->
  file_ok a type_name ti ->
  delete_record a type_name key = (Ok true, a') ->
  exists l1 r l2,
    live_records a type_name ti = l1 ++ [Ok (Some r)] ++ l2
    /\ first_match l1 (primary_key_order ti - 1)%Z key = Ok None
    /\ key_matches (Some r) (primary_key_order ti - 1)%Z key = Ok true
    /\ live_records a' type_name ti = l1 ++ l2.
Proof.
  intros Hti Hfit Hok Hd.
  destruct (delete_record_effect _ _ _ _ _ Hti Hfit Hok Hd)
    as (p & s & r & pd & cnt & bm & pd'
        & (Hp & Hs10 & Hbefore & Hlowscan) & (Hl & Hcnt & Hpage & Ecnt & Ebm)
        & (Hbit & Hdec & Hk) & (Hl' & _ & _ & Hslots) & Hpages & Hcat).
  set (bm' := Z.land bm (Z.lnot (Z.shiftl 1 (Z.of_nat s)))) in *.
  assert (Hpb : page_records a type_name ti p
                = slot_records a type_name ti pd bm (seq 0 MAX_RECORDS_PER_PAGE)).
  { unfold page_records. rewrite Hl.
    destruct (Z.eqb_spec cnt 0); [contradiction | reflexivity]. }
  assert (Hpa : page_records a' type_name ti p
                = slot_records a' type_name ti pd' bm' (seq 0 MAX_RECORDS_PER_PAGE)).
  { unfold page_records. rewrite Hl'.
    destruct (Z.eqb_spec (cnt - 1) 0) as [Hz|]; [|reflexivity].
    symmetry. apply slot_records_clear. intros x Hx%elem_of_seq.
    apply set_bits_zero; [|lia].
    pose proof (set_bits_clear bm s Hs10 Hbit) as Hsb. fold bm' in Hsb.
    destruct Hpage as (_ & Hc & _). rewrite <- Ecnt, <- Ebm in Hc. lia. }
  rewrite (seq_split MAX_RECORDS_PER_PAGE s Hs10) in Hpb, Hpa.
  rewrite slot_records_app in Hpb, Hpa.
  change (s :: ?l) with ([s] ++ l) in Hpb, Hpa.
  rewrite slot_records_app in Hpb, Hpa.
  assert (Hsame : forall slots, s ∉ slots ->
            (forall x, x ∈ slots -> x < MAX_RECORDS_PER_PAGE) ->
            slot_records a' type_name ti pd' bm' slots
            = slot_records a type_name ti pd bm slots).
  { intros slots Hnin Hlt. apply slot_records_same; [exact Hcat|].
    intros x Hx. assert (x <> s) by (intros ->; contradiction).
    split; [|apply Hslots; auto].
    unfold bm'. rewrite bit_set_clear.
    destruct (Nat.eqb_spec s x); [congruence | apply andb_true_r]. }
  rewrite (Hsame (seq 0 s)) in Hpa
    by (try (intros Hx%elem_of_seq; lia); intros x Hx%elem_of_seq; lia).
  rewrite (Hsame (seq (S s) _)) in Hpa
    by (try (intros Hx%elem_of_seq; lia); intros x Hx%elem_of_seq; lia).
  assert (Hold : slot_records a type_name ti pd bm [s] = [Ok (Some r)]).
  { unfold slot_records. cbn [flat_map]. rewrite Hbit.
    unfold slot_offset in Hdec. rewrite Hdec. reflexivity. }
  assert (Hnew : slot_records a' type_name ti pd' bm' [s] = []).
  { apply slot_records_clear. intros x ->%list_elem_of_singleton.
    unfold bm'. rewrite bit_set_clear, Nat.eqb_refl. apply andb_false_r. }
  rewrite Hold in Hpb. rewrite Hnew in Hpa. cbn [app] in Hpa.
  unfold live_records.
  rewrite (seq_split MAX_PAGES_PER_FILE p Hp), !flat_map_app. cbn [flat_map].
  rewrite Hpb, Hpa.
  rewrite (flat_map_same (page_records a' type_name ti) (page_records a type_name ti)
             (seq 0 p))
    by (intros q Hq%elem_of_seq; apply page_records_same; [exact Hcat|];
        apply Hpages; lia).
  rewrite (flat_map_same (page_records a' type_name ti) (page_records a type_name ti)
             (seq (S p) _))
    by (intros q Hq%elem_of_seq; apply page_records_same; [exact Hcat|];
        apply Hpages; lia).
  exists (flat_map (page_records a type_name ti) (seq 0 p)
          ++ slot_records a type_name ti pd bm (seq 0 s)),
         r,
         (slot_records a type_name ti pd bm (seq (S s) (MAX_RECORDS_PER_PAGE - S s))
          ++ flat_map (page_records a type_name ti)
               (seq (S p) (MAX_PAGES_PER_FILE - S p))).
  split; [rewrite <- ?app_assoc; reflexivity|].
  split; [|split; [exact Hk | rewrite <- ?app_assoc; reflexivity]].
  rewrite first_match_app.
  rewrite <- (search_pages_first_match a type_name ti key p 0), Hbefore.
  unfold slot_records.
  rewrite <- (search_slots_first_match a type_name ti pd bm key (seq 0 s)).
  exact Hlowscan.
Qed.

(** ** Searching after a delete *)

Lemma key_matches_other r idx key key' :
  (0 <= idx)%Z ->
  key_matches (Some r) idx key = Ok true ->
  key' <> key ->
  key_matches (Some r) idx key' = Ok false.
Proof.
  intros Hidx Hk Hne. pose proof (key_matches_hit _ _ _ Hidx Hk) as Hr.
  rewrite (key_matches_at _ _ _ _ Hidx Hr). f_equal.
  apply bool_decide_eq_false_2. congruence.
Qed.

(** X15: in a state reached from a blank data file, for a type whose ten
    slots fit the page, a successful [delete_record] removes exactly one
    record from the page-then-slot sequence of the records of the file: the
    first one whose primary-key field is the key. The records before and
    after it stay, in the same order, and a search for the key afterwards
    is the search among the records that came after it. *)
Theorem delete_removes_first_match a0 ops type_name ti primary_key a' :
  dict_get (catalog a0) type_name = Some ti ->
  fits_page ti ->
  blank_file a0 type_name ->
  delete_record (run a0 ops) type_name primary_key = (Ok true, a') ->
  exists l1 r l2,
    live_records (run a0 ops) type_name ti = l1 ++ [Ok (Some r)] ++ l2
    /\ first_match l1 (primary_key_order ti - 1)%Z primary_key = Ok None
    /\ key_matches (Some r) (primary_key_order ti - 1)%Z primary_key = Ok true
    /\ live_records a' type_name ti = l1 ++ l2
    /\ search_record a' type_name primary_key
       = first_match l2 (primary_key_order ti - 1)%Z primary_key.
Proof.
  intros Hti0 Hfit Hblank Hd.
  destruct (reached_ok a0 ops type_name ti Hti0 Hfit Hblank) as [Hti Hok].
  destruct (live_records_after_delete _ _ _ _ _ Hti Hfit Hok Hd)
    as (l1 & r & l2 & Hb & Hl1 & Hk & Ha).
  exists l1, r, l2. repeat (split; [assumption|]).
  assert (Hti' : dict_get (catalog a') type_name = Some ti).
  { pose proof (delete_record_frame (run a0 ops) type_name primary_key) as [Hcat _].
    rewrite Hd in Hcat. cbn [snd] in Hcat. rewrite Hcat. exact Hti. }
  rewrite (search_record_first_match _ _ _ _ Hti'), Ha, first_match_app, Hl1.
  reflexivity.
Qed.

Lemma delete_removes_first_match_witness :
  exists l1 r l2,
    live_records (run one_int_archive
                    [CreateRecord (lit "T") [lit "7"]; CreateRecord (lit "T") [lit "8"]])
      (lit "T")
      {| fields := [(lit "id", t_int)]; primary_key_order := 1; record_size := 5 |}
    = l1 ++ [Ok (Some r)] ++ l2
    /\ first_match l1 (1 - 1)%Z (lit "7") = Ok None
    /\ key_matches (Some r) (1 - 1)%Z (lit "7") = Ok true
    /\ live_records (run one_int_archive sample_run) (lit "T")
         {| fields := [(lit "id", t_int)]; primary_key_order := 1; record_size := 5 |}
       = l1 ++ l2
    /\ search_record (run one_int_archive sample_run) (lit "T") (lit "7")
       = first_match l2 (1 - 1)%Z (lit "7").
Proof.
  apply (delete_removes_first_match one_int_archive
           [CreateRecord (lit "T") [lit "7"]; CreateRecord (lit "T") [lit "8"]]
           (lit "T")
           {| fields := [(lit "id", t_int)]; primary_key_order := 1; record_size := 5 |}
           (lit "7") (run one_int_archive sample_run)).
  - vm_compute. reflexivity.
  - split; vm_compute; [lia | reflexivity].
  - exact I.
  - vm_compute. reflexivity.
Defined.

(** X16: in a state reached from a blank data file, for a type whose ten
    slots fit the page, a successful [delete_record] changes the result of
    [search_record] for no key but the deleted one. *)
Theorem delete_keeps_other_keys a0 ops type_name ti primary_key a' other_key :
  dict_get (catalog a0) type_name = Some ti ->
  fits_page ti ->
  blank_file a0 type_name ->
  (1 <= primary_key_order ti)%Z ->
  delete_record (run a0 ops) type_name primary_key = (Ok true, a') ->
  other_key <> primary_key ->
  search_record a' type_name other_key
  = search_record (run a0 ops) type_name other_key.
Proof.
  intros Hti0 Hfit Hblank Hpk Hd Hne.
  destruct (reached_ok a0 ops type_name ti Hti0 Hfit Hblank) as [Hti Hok].
  destruct (live_records_after_delete _ _ _ _ _ Hti Hfit Hok Hd)
    as (l1 & r & l2 & Hb & Hl1 & Hk & Ha).
  assert (Hti' : dict_get (catalog a') type_name = Some ti).
  { pose proof (delete_record_frame (run a0 ops) type_name primary_key) as [Hcat _].
    rewrite Hd in Hcat. cbn [snd] in Hcat. rewrite Hcat. exact Hti. }
  rewrite (search_record_first_match _ _ _ _ Hti'), Ha.
  rewrite (search_record_first_match _ _ _ _ Hti), Hb.
  symmetry. apply first_match_insert_other.
  apply (key_matches_other r _ primary_key); [lia | exact Hk | exact Hne].
Qed.

Lemma delete_keeps_other_keys_witness :
  search_record (run one_int_archive sample_run) (lit "T") (lit "8")
  = search_record
      (run one_int_archive
         [CreateRecord (lit "T") [lit "7"]; CreateRecord (lit "T") [lit "8"]])
      (lit "T") (lit "8").
Proof.
  apply (delete_keeps_other_keys one_int_archive
           [CreateRecord (lit "T") [lit "7"]; CreateRecord (lit "T") [lit "8"]]
           (lit "T")
           {| fields := [(lit "id", t_int)]; primary_key_order := 1; record_size := 5 |}
           (lit "7") (run one_int_archive sample_run) (lit "8")).
  - vm_compute. reflexivity.
  - split; vm_compute; [lia | reflexivity].
  - exact I.
  - cbn. lia.
  - vm_compute. reflexivity.
  - vm_compute. discriminate.
Defined.

(** ** Deleting what was just created *)

(** The first match of a sequence is at one place only. *)
Lemma first_match_place l1 : forall l1' x x' l2 l2' idx key,
  l1 ++ [Ok (Some x)] ++ l2 = l1' ++ [Ok (Some x')] ++ l2' ->
  first_match l1 idx key = Ok None ->
  first_match l1' idx key = Ok None ->
  key_matches (Some x) idx key = Ok true ->
  key_matches (Some x') idx key = Ok true ->
  l1 = l1' /\ l2 = l2'.
Proof.
  induction l1 as [|y l1 IH]; intros [|y' l1'] x x' l2 l2' idx key E H1 H1' Hx Hx'.
  - cbn in E. injection E as _ E. auto.
  - cbn in E. injection E as <- E.
    destruct (first_match_cons_inv _ _ _ _ H1') as (v & Ev & Hv & _).
    injection Ev as <-. congruence.
  - cbn in E. injection E as -> E.
    destruct (first_match_cons_inv _ _ _ _ H1) as (v & Ev & Hv & _).
    injection Ev as <-. congruence.
  - cbn in E. injection E as <- E.
    destruct (first_match_cons_inv _ _ _ _ H1) as (v & _ & _ & H1r).
    destruct (first_match_cons_inv _ _ _ _ H1') as (v' & _ & _ & H1r').
    destruct (IH l1' x x' l2 l2' idx key E H1r H1r' Hx Hx') as [-> ->]. auto.
Qed.

(** X17: in a state reached from a blank data file, for a type whose ten
    slots fit the page: after a successful [create_record] of values in
    stored form, [delete_record] with the primary key of the record returns
    [True], and every search then gives what it gave before the record was
    created. *)
Theorem delete_undoes_create a0 ops type_name ti values primary_key a1 :
  dict_get (catalog a0) type_name = Some ti ->
  fits_page ti ->
  blank_file a0 type_name ->
  (1 <= primary_key_order ti)%Z ->
  canonical_values (fields ti) values = true ->
  values !! Z.to_nat (primary_key_order ti - 1) = Some primary_key ->
  create_record (run a0 ops) type_name values = (Ok true, a1) ->
  (delete_record a1 type_name primary_key).1 = Ok true
  /\ forall key,
       search_record (delete_record a1 type_name primary_key).2 type_name key
       = search_record (run a0 ops) type_name key.
Proof.
  intros Hti0 Hfit Hblank Hpk Hcan Hkey Hc.
  destruct (reached_ok a0 ops type_name ti Hti0 Hfit Hblank) as [Hti Hok].
  set (a := run a0 ops) in *.
  destruct (created_key _ _ _ _ _ Hti Hpk Hc) as (Hlen & Hval & key' & Hkey' & Hsearch).
  assert (key' = primary_key) as -> by congruence.
  destruct (canonical_values_facts _ _ Hcan) as (_ & _ & _ & Hstored).
  destruct (live_records_after_create _ _ _ _ _ Hti Hfit Hok Hc)
    as (l1 & l2 & Hbefore & Hafter).
  rewrite Hstored in Hafter.
  pose proof (create_record_frame a type_name values) as [Hcat _].
  rewrite Hc in Hcat. cbn [snd] in Hcat.
  assert (Hti1 : dict_get (catalog a1) type_name = Some ti)
    by (rewrite Hcat; exact Hti).
  assert (Hok1 : file_ok a1 type_name ti).
  { pose proof (create_record_file_ok a type_name ti values Hti Hfit Hok) as H.
    rewrite Hc in H. exact H. }
  assert (Hidx : (0 <= primary_key_order ti - 1)%Z) by lia.
  assert (Hhit : key_matches (Some values) (primary_key_order ti - 1)%Z primary_key
                 = Ok true).
  { rewrite (key_matches_at _ _ _ _ Hidx Hkey). f_equal.
    apply bool_decide_eq_true_2. reflexivity. }
  rewrite (search_record_first_match _ _ _ _ Hti), Hbefore in Hsearch.
  assert (Hl1 : first_match l1 (primary_key_order ti - 1)%Z primary_key = Ok None).
  { rewrite first_match_app in Hsearch.
    destruct (first_match l1 (primary_key_order ti - 1)%Z primary_key) as [[?|]|?];
      try discriminate. reflexivity. }
  assert (Hfound : exists r, search_record a1 type_name primary_key = Ok (Some r)).
  { rewrite (search_record_first_match _ _ _ _ Hti1), Hafter.
    destruct (first_match_insert_hit l1 l2 values _ primary_key primary_key Hsearch Hhit)
      as (r & Hr & _). eauto. }
  destruct Hfound as [r Hfound].
  assert (Hdel : (delete_record a1 type_name primary_key).1 = Ok true).
  { unfold delete_record. rewrite Hti1.
    unfold search_record, _search_record_internal in Hfound. rewrite Hti1 in Hfound.
    pose proof (delete_pages_scan a1 type_name ti primary_key MAX_PAGES_PER_FILE 0
                  ltac:(lia)) as Hscan.
    rewrite Hfound in Hscan.
    destruct Hscan as (? & ? & ? & ? & ? & ? & ? & _ & _ & _ & _ & _ & _ & _ & _ & _
                       & _ & _ & ->). reflexivity. }
  split; [exact Hdel|].
  destruct (delete_record a1 type_name primary_key) as [res a2] eqn:Hd.
  cbn [fst snd] in *. subst res.
  destruct (live_records_after_delete _ _ _ _ _ Hti1 Hfit Hok1 Hd)
    as (l1' & r' & l2' & Hb' & Hl1' & Hk' & Ha').
  rewrite Hafter in Hb'.
  destruct (first_match_place l1 l1' values r' l2 l2' _ primary_key Hb' Hl1 Hl1' Hhit Hk')
    as [<- <-].
  assert (Hti2 : dict_get (catalog a2) type_name = Some ti).
  { pose proof (delete_record_frame a1 type_name primary_key) as [Hcat2 _].
    rewrite Hd in Hcat2. cbn [snd] in Hcat2. rewrite Hcat2. exact Hti1. }
  intros key.
  rewrite (search_record_first_match _ _ _ _ Hti2), Ha'.
  rewrite (search_record_first_match _ _ _ _ Hti), Hbefore. reflexivity.
Qed.

Lemma delete_undoes_create_witness :
  (delete_record
     (create_record (run one_int_archive sample_run) (lit "T") [lit "-12"]).2
     (lit "T") (lit "-12")).1 = Ok true
  /\ forall key,
       search_record
         (delete_record
            (create_record (run one_int_archive sample_run) (lit "T") [lit "-12"]).2
            (lit "T") (lit "-12")).2 (lit "T") key
       = search_record (run one_int_archive sample_run) (lit "T") key.
Proof.
  apply (delete_undoes_create one_int_archive sample_run (lit "T")
           {| fields := [(lit "id", t_int)]; primary_key_order := 1; record_size := 5 |}
           [lit "-12"] (lit "-12")).
  - vm_compute. reflexivity.
  - split; vm_compute; [lia | reflexivity].
  - exact I.
  - cbn. lia.
  - vm_compute. reflexivity.
  - vm_compute. reflexivity.
  - vm_compute. reflexivity.
Defined.

(** * Searches and deletes that cannot raise *)

Lemma blank_live_records a type_name ti :
  blank_file a type_name -> live_records a type_name ti = [].
Proof.
  intros Hblank. unfold live_records.
  assert (H : forall p, page_records a type_name ti p = []).
  { intros p. unfold page_records.
    destruct (Nat.lt_ge_cases (length (file_bytes a type_name)) (p * PAGE_SIZE + 12))
      as [Hs|Hl].
    - rewrite load_page_short by exact Hs. reflexivity.
    - rewrite load_page_long by exact Hl.
      replace (count_of (page_at (file_bytes a type_name) p)) with 0%Z; [reflexivity|].
      unfold blank_file, file_bytes in *.
      destruct (data_file a type_name) as [f|]; [|cbn in Hl; lia].
      destruct Hblank as [k ->]. change (default [] (Some ?x)) with x.
      unfold count_of, page_at. rewrite !slice_zeros, le_value_zeros. reflexivity. }
  induction (seq 0 MAX_PAGES_PER_FILE) as [|p l IH]; [reflexivity|].
  cbn [flat_map]. rewrite H, IH. reflexivity.
Qed.

Lemma length_stored_values fields : forall values,
  kinds_known fields = true ->
  length values = length fields ->
  length (stored_values fields values) = length fields.
Proof.
  induction fields as [|[fname ft] rest IH]; intros [|v vs] Hk Hl;
    try discriminate; [reflexivity|].
  cbn [kinds_known forallb snd] in Hk. apply andb_true_iff in Hk as [Hft Hk].
  cbn [stored_values]. rewrite Hft. cbn [length]. f_equal.
  apply IH; [exact Hk | injection Hl as Hl; exact Hl].
Qed.

Lemma step_records_decode a o type_name ti :
  dict_get (catalog a) type_name = Some ti ->
  fits_page ti ->
  kinds_known (fields ti) = true ->
  file_ok a type_name ti ->
  records_decode a type_name ti ->
  records_decode (step a o).2 type_name ti.
Proof.
  intros Hti Hfit Hkinds Hok Hrec. unfold records_decode in *.
  destruct (decide (op_type o = type_name)) as [<-|Hne].
  - destruct o as [tn values|tn key]; cbn [step op_type] in *.
    + destruct (create_record a tn values) as [r a'] eqn:Hc. cbn [snd].
      destruct (create_record_inv _ _ _ _ _ Hc)
        as [[-> _]|(ti' & pk & rec & Hti' & Hlen & _ & _ & _ & _ & -> & _)];
        [exact Hrec|].
      assert (ti' = ti) as -> by congruence.
      destruct (live_records_after_create _ _ _ _ _ Hti Hfit Hok Hc)
        as (l1 & l2 & Hb & ->).
      rewrite Hb in Hrec. apply Forall_app in Hrec as [H1 H2].
      apply Forall_app; split; [exact H1|]. apply Forall_cons; split; [|exact H2].
      eexists; split; [reflexivity|]. apply length_stored_values; assumption.
    + destruct (delete_record a tn key) as [r a'] eqn:Hd. cbn [snd].
      destruct (delete_record_inv _ _ _ _ _ Hd) as [[-> _]|(ti' & Hti' & Hpages)];
        [exact Hrec|].
      assert (r = Ok true) as ->
        by (unfold delete_record in Hd; rewrite Hti', Hpages in Hd; congruence).
      destruct (live_records_after_delete _ _ _ _ _ Hti Hfit Hok Hd)
        as (l1 & x & l2 & Hb & _ & _ & ->).
      rewrite Hb in Hrec. apply Forall_app in Hrec as [H1 H2].
      apply Forall_cons in H2 as [_ H2]. apply Forall_app; auto.
  - rewrite (live_records_same a (step a o).2); [exact Hrec| |].
    + destruct o; cbn [step]; [apply create_record_frame | apply delete_record_frame].
    + destruct o; cbn [step op_type] in *;
        [apply create_record_frame | apply delete_record_frame]; congruence.
Qed.

Lemma run_records_decode ops : forall a type_name ti,
  dict_get (catalog a) type_name = Some ti ->
  fits_page ti ->
  kinds_known (fields ti) = true ->
  file_ok a type_name ti ->
  records_decode a type_name ti ->
  records_decode (run a ops) type_name ti.
Proof.
  induction ops as [|o ops IH]; intros a type_name ti Hti Hfit Hk Hok Hrec;
    [exact Hrec|].
  unfold run. cbn [fold_left]. fold (run (step a o).2 ops).
  destruct (step_file_ok a o type_name ti Hti Hfit Hok) as [Hcat Hok'].
  apply IH; auto.
  - rewrite Hcat. exact Hti.
  - apply step_records_decode; assumption.
Qed.

Lemma first_match_total l n idx key :
  Forall (fun r => exists vs : list pystr, r = Ok (Some vs) /\ length vs = n) l ->
  (0 <= idx < Z.of_nat n)%Z ->
  exists found, first_match l idx key = Ok found.
Proof.
  intros Hl Hidx. induction Hl as [|r l (vs & -> & Hlen) _ IH];
    [eexists; reflexivity|].
  cbn [first_match]. rewrite bind_Ok.
  destruct (lookup_lt_is_Some_2 vs (Z.to_nat idx) ltac:(lia)) as [x Hx].
  rewrite (key_matches_at _ _ _ _ (proj1 Hidx) Hx), bind_Ok.
  destruct (pystr_eqb x key); [eexists; reflexivity | exact IH].
Qed.

(** X18: in a state reached from a blank data file, for a type as
    [create_type] makes them (Integer and Text fields only, the primary-key
    order between 1 and the number of fields) whose ten slots fit the page,
    [search_record] and [delete_record] never raise: every record that the
    bitmaps mark as live decodes. *)
Theorem search_and_delete_never_raise a0 ops type_name ti primary_key :
  dict_get (catalog a0) type_name = Some ti ->
  fits_page ti ->
  blank_file a0 type_name ->
  kinds_known (fields ti) = true ->
  (1 <= primary_key_order ti <= Z.of_nat (length (fields ti)))%Z ->
  exists found,
    search_record (run a0 ops) type_name primary_key = Ok found
    /\ (delete_record (run a0 ops) type_name primary_key).1
       = Ok (bool_decide (is_Some found)).
Proof.
  intros Hti0 Hfit Hblank Hkinds Hpk.
  destruct (reached_ok a0 ops type_name ti Hti0 Hfit Hblank) as [Hti Hok].
  assert (Hrec : records_decode (run a0 ops) type_name ti).
  { apply run_records_decode; auto.
    - apply blank_file_ok; assumption.
    - unfold records_decode. rewrite blank_live_records by exact Hblank. constructor. }
  destruct (first_match_total _ _ (primary_key_order ti - 1)%Z primary_key Hrec
              ltac:(lia)) as [found Hfound].
  exists found.
  rewrite <- (search_record_first_match _ _ _ _ Hti) in Hfound.
  split; [exact Hfound|].
  unfold delete_record. rewrite Hti.
  unfold search_record, _search_record_internal in Hfound. rewrite Hti in Hfound.
  pose proof (delete_pages_scan (run a0 ops) type_name ti primary_key
                MAX_PAGES_PER_FILE 0 ltac:(lia)) as Hscan.
  rewrite Hfound in Hscan. destruct found as [r|].
  - destruct Hscan as (? & ? & ? & ? & ? & ? & ? & _ & _ & _ & _ & _ & _ & _ & _ & _
                       & _ & _ & ->).
    cbn [fst]. rewrite bool_decide_eq_true_2 by eauto. reflexivity.
  - rewrite Hscan. cbn [fst].
    rewrite bool_decide_eq_false_2 by (intros [? ?]; discriminate). reflexivity.
Qed.

Lemma search_and_delete_never_raise_witness :
  exists found,
    search_record (run two_field_archive
                     [CreateRecord (lit "Person") [lit "Bob"; lit "-4"]])
      (lit "Person") (lit "Bob") = Ok found
    /\ (delete_record (run two_field_archive
                         [CreateRecord (lit "Person") [lit "Bob"; lit "-4"]])
          (lit "Person") (lit "Bob")).1
       = Ok (bool_decide (is_Some found)).
Proof.
  apply (search_and_delete_never_raise two_field_archive
           [CreateRecord (lit "Person") [lit "Bob"; lit "-4"]] (lit "Person")
           {| fields := [(lit "name", t_str); (lit "age", t_int)];
              primary_key_order := 1; record_size := 105 |} (lit "Bob")).
  - vm_compute. reflexivity.
  - split; vm_compute; [lia | reflexivity].
  - exact I.
  - vm_compute. reflexivity.
  - cbn. lia.
Defined.

(** * The size of the data file *)

Lemma load_none_iff a type_name q k :
  length (file_bytes a type_name) = k * PAGE_SIZE ->
  (exists n b, _load_page a type_name q = Ok (None, n, b)) <-> k <= q.
Proof.
  intros Hk. split.
  - intros (n & b & H).
    destruct (Nat.lt_ge_cases q k) as [Hlt|]; [|assumption].
    rewrite load_page_long in H by (rewrite Hk; unfold PAGE_SIZE; lia).
    discriminate.
  - intros Hq. exists 0%Z, 0%Z. apply load_page_short.
    rewrite Hk. unfold PAGE_SIZE. lia.
Qed.

(** Page counts before and after a step that rewrites one page. *)
Lemma pages_after_write a a' type_name p k k' pd n b :
  length (file_bytes a type_name) = k * PAGE_SIZE ->
  length (file_bytes a' type_name) = k' * PAGE_SIZE ->
  p < MAX_PAGES_PER_FILE ->
  _load_page a' type_name p = Ok (Some pd, n, b) ->
  (forall q, q <> p -> _load_page a' type_name q = _load_page a type_name q) ->
  k <= k' <= k `max` MAX_PAGES_PER_FILE.
Proof.
  intros Hk Hk' Hp Hl Hpages. split.
  - destruct k as [|k]; [lia|].
    destruct (Nat.lt_ge_cases k k') as [|Hge]; [lia|]. exfalso.
    apply (load_none_iff a' type_name k k' Hk') in Hge as (n' & b' & Hn).
    destruct (decide (k = p)) as [->|Hne]; [congruence|].
    rewrite (Hpages k Hne) in Hn.
    assert (Hex : exists n b, _load_page a type_name k = Ok (None, n, b)) by eauto.
    apply (load_none_iff a type_name k (S k) Hk) in Hex. lia.
  - assert (Hex : exists n b, _load_page a type_name (k `max` MAX_PAGES_PER_FILE)
                              = Ok (None, n, b))
      by (apply (load_none_iff a type_name _ k Hk); lia).
    destruct Hex as (n' & b' & Hn).
    rewrite <- (Hpages (k `max` MAX_PAGES_PER_FILE)) in Hn by lia.
    apply (load_none_iff a' type_name _ k' Hk'). eauto.
Qed.

Lemma file_ok_length a type_name ti :
  file_ok a type_name ti -> exists k, length (file_bytes a type_name) = k * PAGE_SIZE.
Proof.
  intros H. destruct (file_ok_pages _ _ _ H) as (k & Hk & _). eauto.
Qed.

Lemma step_file_length a o type_name ti k :
  dict_get (catalog a) type_name = Some ti ->
  fits_page ti ->
  file_ok a type_name ti ->
  length (file_bytes a type_name) = k * PAGE_SIZE ->
  exists k', length (file_bytes (step a o).2 type_name) = k' * PAGE_SIZE
             /\ k <= k' <= k `max` MAX_PAGES_PER_FILE.
Proof.
  intros Hti Hfit Hok Hk.
  destruct (step_file_ok a o type_name ti Hti Hfit Hok) as [_ Hok'].
  destruct (file_ok_length _ _ _ Hok') as [k' Hk'].
  exists k'. split; [exact Hk'|].
  assert (Hsame : (step a o).2 = a -> k <= k' <= k `max` MAX_PAGES_PER_FILE).
  { intros E. rewrite E in Hk'. unfold PAGE_SIZE in *. lia. }
  destruct (decide (op_type o = type_name)) as [<-|Hne].
  - destruct o as [tn values|tn key]; cbn [step op_type] in *.
    + destruct (create_record a tn values) as [r a'] eqn:Hc. cbn [snd] in *.
      destruct (create_record_inv _ _ _ _ _ Hc)
        as [[-> _]|(ti' & pk & rec & _ & _ & _ & _ & _ & _ & -> & _)]; [auto|].
      destruct (create_record_effect _ _ _ _ _ Hti Hfit (file_ok_aligned _ _ _ Hok) Hc)
        as (p & s & rec' & pd & cnt & bm & pd' & _ & (Hp & _) & _ & (Hl & _)
            & Hpages & _).
      exact (pages_after_write a a' tn p k k' _ _ _ Hk Hk' Hp Hl Hpages).
    + destruct (delete_record a tn key) as [r a'] eqn:Hd. cbn [snd] in *.
      destruct (delete_record_inv _ _ _ _ _ Hd) as [[-> _]|(ti' & Hti' & Hpg)]; [auto|].
      assert (r = Ok true) as ->
        by (unfold delete_record in Hd; rewrite Hti', Hpg in Hd; congruence).
      destruct (delete_record_effect _ _ _ _ _ Hti Hfit Hok Hd)
        as (p & s & x & pd & cnt & bm & pd' & (Hp & _) & _ & _ & (Hl & _) & Hpages & _).
      exact (pages_after_write a a' tn p k k' _ _ _ Hk Hk' Hp Hl Hpages).
  - assert (Hf : data_file (step a o).2 type_name = data_file a type_name).
    { destruct o; cbn [step op_type] in *;
        [apply create_record_frame | apply delete_record_frame]; congruence. }
    unfold file_bytes in Hk'. rewrite Hf in Hk'. fold (file_bytes a type_name) in Hk'.
    unfold PAGE_SIZE in *. lia.
Qed.

Lemma run_file_length ops : forall a type_name ti k,
  dict_get (catalog a) type_name = Some ti ->
  fits_page ti ->
  file_ok a type_name ti ->
  length (file_bytes a type_name) = k * PAGE_SIZE ->
  exists k', length (file_bytes (run a ops) type_name) = k' * PAGE_SIZE
             /\ k <= k' <= k `max` MAX_PAGES_PER_FILE.
Proof.
  induction ops as [|o ops IH]; intros a type_name ti k Hti Hfit Hok Hk.
  - exists k. split; [exact Hk | lia].
  - unfold run. cbn [fold_left]. fold (run (step a o).2 ops).
    destruct (step_file_length a o type_name ti k Hti Hfit Hok Hk) as (k1 & Hk1 & Hb1).
    destruct (step_file_ok a o type_name ti Hti Hfit Hok) as [Hcat Hok'].
    destruct (IH (step a o).2 type_name ti k1
                ltac:(rewrite Hcat; exact Hti) Hfit Hok' Hk1) as (k2 & Hk2 & Hb2).
    exists k2. split; [exact Hk2 | lia].
Qed.

(** X19: for a type whose ten slots fit the page, [create_record] and
    [delete_record] keep the data file a whole number of 4096-byte pages:
    starting from a blank file of [k0] pages, the file after any sequence
    of calls has [k] pages with [k0 <= k <= max k0 100]. The file never
    shrinks, and a file that starts absent never exceeds 100 pages. *)
Theorem data_file_stays_paged a0 ops type_name ti :
  dict_get (catalog a0) type_name = Some ti ->
  fits_page ti ->
  blank_file a0 type_name ->
  exists k0 k,
    length (file_bytes a0 type_name) = k0 * PAGE_SIZE
    /\ length (file_bytes (run a0 ops) type_name) = k * PAGE_SIZE
    /\ k0 <= k <= k0 `max` MAX_PAGES_PER_FILE.
Proof.
  intros Hti Hfit Hblank.
  pose proof (blank_file_ok _ _ _ Hfit Hblank) as Hok.
  destruct (file_ok_length _ _ _ Hok) as [k0 Hk0].
  destruct (run_file_length ops a0 type_name ti k0 Hti Hfit Hok Hk0) as (k & Hk & Hb).
  exists k0, k. auto.
Qed.

Lemma data_file_stays_paged_witness :
  exists k0 k,
    length (file_bytes one_int_archive (lit "T")) = k0 * PAGE_SIZE
    /\ length (file_bytes (run one_int_archive sample_run) (lit "T")) = k * PAGE_SIZE
    /\ k0 <= k <= k0 `max` MAX_PAGES_PER_FILE.
Proof.
  apply (data_file_stays_paged one_int_archive sample_run (lit "T")
           {| fields := [(lit "id", t_int)]; primary_key_order := 1; record_size := 5 |}).
  - vm_compute. reflexivity.
  - split; vm_compute; [lia | reflexivity].
  - exact I.
Defined.

(** * Which schemas fit the page *)

Lemma fields_size_counts fields :
  fields_size fields = 4 * count_kind t_int fields + 100 * count_kind t_str fields
  /\ count_kind t_int fields + count_kind t_str fields <= length fields.
Proof.
  unfold count_kind.
  induction fields as [|[fname ft] rest [IH1 IH2]]; [cbn; lia|].
  cbn [fields_size List.filter snd length].
  destruct (pystr_eqb ft t_int) eqn:Ei.
  - assert (Es : pystr_eqb ft t_str = false).
    { apply bool_decide_eq_true in Ei. subst ft. reflexivity. }
    rewrite Es. cbn [length]. unfold MAX_STRING_LENGTH in *. lia.
  - destruct (pystr_eqb ft t_str); cbn [length]; unfold MAX_STRING_LENGTH in *; lia.
Qed.

(** X20: the record size that [_calculate_record_size] gives is 1 byte
    plus 4 for every Integer field and 100 for every Text field (fields of
    any other kind take no room). With the ten-field limit of
    [create_type], the ten slots of a page therefore lie inside its 4096
    bytes exactly for the schemas with at most three Text fields, or with
    four Text fields and at most one Integer field. *)
Theorem schemas_that_fit ti :
  record_size ti = _calculate_record_size (fields ti) ->
  (Z.of_nat (length (fields ti)) <= MAX_FIELDS_PER_TYPE)%Z ->
  record_size ti
  = 1 + 4 * count_kind t_int (fields ti) + 100 * count_kind t_str (fields ti)
  /\ (fits_page ti
      <-> count_kind t_str (fields ti) <= 3
          \/ (count_kind t_str (fields ti) = 4 /\ count_kind t_int (fields ti) <= 1)).
Proof.
  intros Hrs Hlen. unfold MAX_FIELDS_PER_TYPE in Hlen.
  destruct (fields_size_counts (fields ti)) as [Hsz Hcnt].
  assert (Hsize : record_size ti
                  = 1 + 4 * count_kind t_int (fields ti)
                    + 100 * count_kind t_str (fields ti))
    by (rewrite Hrs, _calculate_record_size_eq, Hsz; lia).
  split; [exact Hsize|].
  unfold fits_page, MAX_RECORDS_PER_PAGE, PAGE_SIZE. split.
  - intros [Hfit _]. lia.
  - intros H. split; [lia | exact Hrs].
Qed.

Lemma schemas_that_fit_witness :
  105 = 1 + 4 * 1 + 100 * 1
  /\ (fits_page {| fields := [(lit "name", t_str); (lit "age", t_int)];
                   primary_key_order := 1; record_size := 105 |}
      <-> 1 <= 3 \/ (1 = 4 /\ 1 <= 1)).
Proof.
  apply (schemas_that_fit {| fields := [(lit "name", t_str); (lit "age", t_int)];
                             primary_key_order := 1; record_size := 105 |}).
  - vm_compute. reflexivity.
  - vm_compute. discriminate.
Defined.

(** * The command loop *)

(** ** One log row for every command *)

Lemma log_operation_row clock s operation success :
  log (_log_operation clock s operation success)
  = log s ++ [log_row clock (length (log s)) operation success].
Proof. reflexivity. Qed.

(** What one pass of the loop body does to the log. *)
Lemma process_line_log clock s line :
  if is_command line then
    (exists ok,
       (process_line clock s line).1 = None
       /\ log (process_line clock s line).2
          = log s ++ [log_row clock (length (log s)) (strip line) ok])
    \/ (exists e,
          (process_line clock s line).1 = Some e
          /\ log (process_line clock s line).2 = log s)
  else process_line clock s line = (None, s).
Proof.
  unfold is_command, process_line.
  destruct (bool_decide (strip line = [])); cbn [negb]; [reflexivity|].
  repeat case_match; cbn [fst snd];
    rewrite ?log_operation_row;
    first [ left; eexists; split; reflexivity
          | right; eexists; split; reflexivity ].
Qed.

(** The loop stops at the first line that raises. *)
Lemma main_loop_stops clock lines : forall s e,
  (main_loop clock s lines).1 = Some e ->
  exists processed line rest,
    lines = processed ++ line :: rest
    /\ (main_loop clock s processed).1 = None
    /\ (process_line clock (main_loop clock s processed).2 line).1 = Some e
    /\ (main_loop clock s lines).2
       = (process_line clock (main_loop clock s processed).2 line).2.
Proof.
  induction lines as [|l lines IH]; intros s e H; [discriminate|].
  cbn [main_loop] in H |- *.
  destruct (process_line clock s l) as [[e'|] s1] eqn:Hp.
  - exists [], l, lines. cbn [main_loop app fst snd]. rewrite Hp. auto.
  - destruct (IH s1 e H) as (processed & line & rest & -> & Hn & He & Hs).
    exists (l :: processed), line, rest. cbn [main_loop app]. rewrite Hp. auto.
Qed.

(** The rows of a loop that no exception ends. *)
Lemma main_loop_rows clock lines : forall s,
  (main_loop clock s lines).1 = None ->
  exists outcomes,
    length outcomes = length (List.filter is_command lines)
    /\ log (main_loop clock s lines).2
       = log s ++ log_rows clock (length (log s)) (List.filter is_command lines)
                    outcomes.
Proof.
  induction lines as [|line rest IH]; intros s Hn.
  - exists []. cbn. rewrite app_nil_r. auto.
  - cbn [main_loop List.filter] in Hn |- *.
    pose proof (process_line_log clock s line) as H.
    destruct (is_command line).
    + destruct H as [(ok & He & Hl)|(e & He & Hl)];
        destruct (process_line clock s line) as [[e'|] s1]; cbn [fst snd] in *;
        try discriminate.
      destruct (IH s1 Hn) as (outcomes & Hlen & Hlog).
      exists (ok :: outcomes). cbn [length log_rows].
      split; [lia|].
      rewrite Hlog, Hl, length_app, <- app_assoc. cbn [length app].
      replace (length (log s) + 1) with (S (length (log s))) by lia. reflexivity.
    + rewrite H in Hn |- *. apply IH, Hn.
Qed.

(** X22: [main] logs the commands it processes, one row each and in the
    order of the input: blank lines leave no row; every other line gives
    one row made of the clock reading, the stripped line and [success] or
    [failure]. The lines processed are all the lines of the input when no
    exception ends the loop, and otherwise those before the first line that
    raises: the log then has the rows of the commands before that line, all
    of them, and no row for that line or for a later one. *)
Theorem main_logs_each_command clock s lines :
  exists processed outcomes,
    match (main_loop clock s lines).1 with
    | None => processed = lines
    | Some e =>
        exists line rest,
          lines = processed ++ line :: rest
          /\ (main_loop clock s processed).1 = None
          /\ (process_line clock (main_loop clock s processed).2 line).1 = Some e
    end
    /\ length outcomes = length (List.filter is_command processed)
    /\ log (main_loop clock s lines).2
       = log s ++ log_rows clock (length (log s)) (List.filter is_command processed)
                    outcomes.
Proof.
  destruct (main_loop clock s lines).1 as [e|] eqn:He.
  - destruct (main_loop_stops clock lines s e He)
      as (processed & line & rest & Hl & Hn & Hr & Hs).
    destruct (main_loop_rows clock processed s Hn) as (outcomes & Hlen & Hlog).
    exists processed, outcomes. split; [exists line, rest; auto|].
    split; [exact Hlen|]. rewrite Hs, <- Hlog.
    pose proof (process_line_log clock (main_loop clock s processed).2 line) as H.
    destruct (is_command line).
    + destruct H as [(ok & H1 & _)|(e' & _ & H2)]; [congruence | exact H2].
    + rewrite H in Hr. discriminate.
  - destruct (main_loop_rows clock lines s He) as (outcomes & Hlen & Hlog).
    exists lines, outcomes. auto.
Qed.


(** ** Lines that create a type *)

Lemma py_split_nil_inv s : py_split s <> [] -> s <> [].
Proof. intros H ->. apply H. reflexivity. Qed.

(** With an even number of field specifications [create_type] does not
    raise: a violated precondition makes it return [False]. *)
Lemma create_type_quiet a type_name num_fields pk field_specs :
  Nat.even (length field_specs) = true ->
  create_type_preconditions a type_name num_fields pk field_specs = false ->
  create_type a type_name num_fields pk field_specs = (Ok false, a).
Proof.
  intros Hev Hpre.
  unfold create_type_preconditions in Hpre. unfold create_type.
  destruct (bool_decide (is_Some (dict_get (catalog a) type_name))); [reflexivity|].
  destruct (_is_valid_name type_name); [|reflexivity].
  cbn [negb andb] in Hpre |- *.
  destruct (Nat.ltb_spec MAX_TYPE_NAME_LENGTH (length type_name)) as [Hl|Hl];
    [reflexivity|].
  replace (length type_name <=? MAX_TYPE_NAME_LENGTH) with true in Hpre
    by (symmetry; apply Nat.leb_le; exact Hl).
  destruct (Z.ltb_spec MAX_FIELDS_PER_TYPE num_fields) as [Hn|Hn]; [reflexivity|].
  replace (num_fields <=? MAX_FIELDS_PER_TYPE)%Z with true in Hpre
    by (symmetry; apply Z.leb_le; exact Hn).
  destruct (Z.ltb_spec pk 1) as [Hp1|Hp1]; [reflexivity|].
  destruct (Z.ltb_spec num_fields pk) as [Hp2|Hp2]; [reflexivity|].
  replace (1 <=? pk)%Z with true in Hpre by (symmetry; apply Z.leb_le; exact Hp1).
  replace (pk <=? num_fields)%Z with true in Hpre
    by (symmetry; apply Z.leb_le; exact Hp2).
  cbn [andb orb] in Hpre |- *.
  pose proof (parse_field_specs_spec field_specs []) as Hspec.
  destruct (parse_field_specs field_specs []) as [[fs|]|e].
  - destruct Hspec as [Hok Hlen]. rewrite Hok, andb_true_r in Hpre.
    apply Z.eqb_neq in Hpre. cbn [length] in Hlen.
    destruct (Z.eqb_spec (Z.of_nat (length fs)) num_fields) as [Heq|Hne];
      [lia | reflexivity].
  - reflexivity.
  - destruct Hspec as [_ Hodd]. rewrite <- Nat.negb_even, Hev in Hodd. discriminate.
Qed.

Lemma with_archive_same s : with_archive s (archive s) = s.
Proof. destruct s. reflexivity. Qed.

(** X23: a line [create type <name> <n> <k> <specs...>] of the input never
    ends the run, when the catalog in memory has distinct ASCII-named
    entries: [main] hands [create_type] only lists of exactly [2 * n]
    specifications, so the [IndexError] of a lone field name cannot occur.
    The line is logged as a success exactly when [n] and [k] are integers
    and the preconditions of [create_type] hold, and then the type is in
    the catalog; otherwise it is logged as a failure and the archive is
    unchanged. (The line is ASCII and at most 4300 characters long, so that
    [int] reads its numbers as [py_int] does.) *)
Theorem create_type_line clock s line type_name parts3 parts4 field_specs :
  forallb is_ascii (strip line) = true ->
  length (strip line) <= 4300 ->
  py_split (strip line)
  = lit "create" :: lit "type" :: type_name :: parts3 :: parts4 :: field_specs ->
  catalog_storable (catalog (archive s)) = true ->
  let accepted :=
    match py_int parts3, py_int parts4 with
    | Some num_fields, Some primary_key_order =>
        create_type_preconditions (archive s) type_name num_fields primary_key_order
          field_specs
    | _, _ => false
    end in
  exists a,
    process_line clock s line
    = (None, _log_operation clock (with_archive s a) (strip line) accepted)
    /\ (accepted = false -> a = archive s)
    /\ (accepted = true ->
        is_Some (dict_get (catalog a) type_name)
        /\ exists num_fields primary_key_order,
             py_int parts3 = Some num_fields
             /\ py_int parts4 = Some primary_key_order
             /\ create_type (archive s) type_name num_fields primary_key_order
                  field_specs = (Ok true, a)).
Proof.
  intros _ _ Hsplit Hst accepted.
  assert (Hne : strip line <> [])
    by (apply py_split_nil_inv; rewrite Hsplit; discriminate).
  unfold process_line. rewrite bool_decide_eq_false_2 by exact Hne.
  rewrite Hsplit.
  change (pystr_eqb (lit "create") (lit "create")) with true.
  change (pystr_eqb (lit "type") (lit "type")) with true.
  cbn [length Nat.ltb Nat.leb]. cbv iota.
  unfold accepted. clear accepted.
  destruct (py_int parts3) as [n|];
    [|exists (archive s); rewrite with_archive_same; split; [reflexivity|];
      split; [reflexivity | discriminate]].
  destruct (py_int parts4) as [k|];
    [|exists (archive s); rewrite with_archive_same; split; [reflexivity|];
      split; [reflexivity | discriminate]].
  destruct (Z.eqb_spec (Z.of_nat (length field_specs)) (2 * n)) as [Hlen|Hlen];
    cbn [negb].
  - assert (Hev : Nat.even (length field_specs) = true).
    { apply Nat.even_spec. exists (Z.to_nat n). lia. }
    destruct (create_type_preconditions (archive s) type_name n k field_specs) eqn:Hpre.
    + destruct (create_type_ok (archive s) type_name n k field_specs Hst Hpre)
        as (Hget & _ & Hc).
      rewrite Hc. eexists. split; [reflexivity|]. split; [discriminate|].
      intros _. split; [|exists n, k; auto].
      cbn [catalog]. rewrite (dict_get_app_new _ _ _ Hget). eauto.
    + rewrite (create_type_quiet _ _ _ _ _ Hev Hpre).
      exists (archive s). split; [reflexivity|]. split; [reflexivity | discriminate].
  - assert (Hpre : create_type_preconditions (archive s) type_name n k field_specs
                   = false).
    { unfold create_type_preconditions.
      replace (Z.of_nat (length field_specs) =? 2 * n)%Z with false
        by (symmetry; apply Z.eqb_neq; exact Hlen).
      rewrite andb_false_l. apply andb_false_r. }
    rewrite Hpre. exists (archive s). rewrite with_archive_same.
    split; [reflexivity|]. split; [reflexivity | discriminate].
Qed.

Lemma create_type_line_witness :
  exists a,
    process_line (fun n => Z.of_nat n)
      {| archive := one_int_archive; output := []; log := [] |}
      (lit "  create type Person 2 1 name str age int ")
    = (None,
       _log_operation (fun n => Z.of_nat n)
         (with_archive {| archive := one_int_archive; output := []; log := [] |} a)
         (lit "create type Person 2 1 name str age int") true)
    /\ is_Some (dict_get (catalog a) (lit "Person")).
Proof.
  destruct (create_type_line (fun n => Z.of_nat n)
              {| archive := one_int_archive; output := []; log := [] |}
              (lit "  create type Person 2 1 name str age int ")
              (lit "Person") (lit "2") (lit "1")
              [lit "name"; lit "str"; lit "age"; lit "int"])
    as (a & H1 & _ & H3).
  - vm_compute. reflexivity.
  - vm_compute. lia.
  - vm_compute. reflexivity.
  - vm_compute. reflexivity.
  - exists a. split; [exact H1|]. apply H3. vm_compute. reflexivity.
Defined.

(** ** A line that ends the run *)

Lemma main_loop_app clock l1 : forall s l2,
  main_loop clock s (l1 ++ l2)
  = match main_loop clock s l1 with
    | (None, s1) => main_loop clock s1 l2
    | r => r
    end.
Proof.
  induction l1 as [|line l1 IH]; intros s l2; [reflexivity|].
  cbn [app main_loop].
  destruct (process_line clock s line) as [[e|] s1]; [reflexivity | apply IH].
Qed.

(** X24: a line [create record <type> <values...>] whose values pass the
    validators, whose key is not stored yet, and one of whose Integer
    values lies outside the signed 32-bit range ends the run: [struct.error]
    leaves the loop, the line is not logged, nothing is stored, and no
    later line of the input is processed. (The values are at most 4300
    characters long, so that [int] converts them.) *)
Theorem overflow_line_ends_run clock s before line after s1 type_name values ti
    primary_key :
  main_loop clock s before = (None, s1) ->
  py_split (strip line) = lit "create" :: lit "record" :: type_name :: values ->
  dict_get (catalog (archive s1)) type_name = Some ti ->
  length values = length (fields ti) ->
  int_convertible values = true ->
  values_valid (fields ti) values = true ->
  values_packable (fields ti) values = false ->
  _find_primary_key_value (archive s1) type_name values = Ok primary_key ->
  search_record (archive s1) type_name primary_key = Ok None ->
  main_loop clock s (before ++ line :: after) = (Some StructError, s1).
Proof.
  intros Hbefore Hsplit Hti Hlen _ Hval Hpack Hkey Hsearch.
  rewrite main_loop_app, Hbefore. cbn [main_loop].
  assert (Hne : strip line <> [])
    by (apply py_split_nil_inv; rewrite Hsplit; discriminate).
  unfold process_line. rewrite bool_decide_eq_false_2 by exact Hne.
  rewrite Hsplit.
  change (pystr_eqb (lit "create") (lit "create")) with true.
  change (pystr_eqb (lit "record") (lit "type")) with false.
  change (pystr_eqb (lit "record") (lit "record")) with true.
  cbn [length Nat.ltb Nat.leb]. cbv iota.
  rewrite Hti, Hlen, Nat.eqb_refl. cbn [negb].
  rewrite (create_record_struct_error _ _ _ _ _ Hti Hlen Hval Hpack Hkey Hsearch).
  rewrite with_archive_same. reflexivity.
Qed.

Lemma overflow_line_ends_run_witness :
  main_loop (fun n => Z.of_nat n)
    {| archive := one_int_archive; output := []; log := [] |}
    ([lit "create record T 7"]
     ++ lit "create record T 2147483648" :: [lit "search record T 7"])
  = (Some StructError,
     (main_loop (fun n => Z.of_nat n)
        {| archive := one_int_archive; output := []; log := [] |}
        [lit "create record T 7"]).2).
Proof.
  apply (overflow_line_ends_run (fun n => Z.of_nat n) _ [lit "create record T 7"]
           (lit "create record T 2147483648") [lit "search record T 7"] _
           (lit "T") [lit "2147483648"]
           {| fields := [(lit "id", t_int)]; primary_key_order := 1; record_size := 5 |}
           (lit "2147483648"));
    vm_compute; reflexivity.
Defined.

(** * Slots that end beyond the page *)

(** The page that [_load_page] reads back after [_save_page] has written a
    buffer of 4096 bytes or more. *)
Lemma load_saved_long_page a type_name p page_data :
  PAGE_SIZE <= length page_data ->
  _load_page (_save_page a type_name p page_data) type_name p
  = Ok (Some (take PAGE_SIZE page_data), count_of page_data, bitmap_of page_data).
Proof.
  intros Hl.
  pose proof (save_page_bytes a type_name p page_data) as HF. cbv zeta in HF.
  set (f := file_bytes a type_name) in *.
  set (F := f ++ zeros ((p + 1) * PAGE_SIZE - length f)) in *.
  set (f' := file_bytes (_save_page a type_name p page_data) type_name) in *.
  assert (LF : (p + 1) * PAGE_SIZE <= length F)
    by (unfold F; rewrite length_app, length_zeros; lia).
  assert (Lt : length (take (p * PAGE_SIZE) F) = p * PAGE_SIZE)
    by (rewrite length_take; unfold PAGE_SIZE in *; lia).
  assert (Hp : page_at f' p = take PAGE_SIZE page_data).
  { rewrite HF. unfold page_at. rewrite slice_app_r by lia.
    rewrite Lt, Nat.sub_diag, slice_app_l by lia. reflexivity. }
  rewrite load_page_long
    by (fold f'; rewrite HF, !length_app, Lt; unfold PAGE_SIZE in *; lia).
  fold f'. rewrite Hp. unfold count_of, bitmap_of.
  rewrite !slice_take by (unfold PAGE_SIZE; lia). reflexivity.
Qed.

(** What lies in the file after the page, when the buffer is longer than a
    page. *)
Lemma saved_page_tail a type_name p page_data m :
  PAGE_SIZE + m <= length page_data ->
  slice (file_bytes (_save_page a type_name p page_data) type_name)
    ((p + 1) * PAGE_SIZE) m
  = slice page_data PAGE_SIZE m.
Proof.
  intros Hl. rewrite save_page_bytes. cbv zeta.
  set (F := file_bytes a type_name ++ _).
  assert (LF : (p + 1) * PAGE_SIZE <= length F)
    by (unfold F; rewrite length_app, length_zeros; lia).
  assert (Lt : length (take (p * PAGE_SIZE) F) = p * PAGE_SIZE)
    by (rewrite length_take; unfold PAGE_SIZE in *; lia).
  rewrite slice_app_r by (rewrite Lt; unfold PAGE_SIZE; lia).
  rewrite Lt. replace ((p + 1) * PAGE_SIZE - p * PAGE_SIZE) with PAGE_SIZE
    by (unfold PAGE_SIZE; lia).
  apply slice_app_l. exact Hl.
Qed.

(** X25: [create_record] does not check that the slot it takes lies
    inside the page. On a file of whole pages, a successful call takes the
    lowest clear slot of the first page that is not full and marks it in the
    header that is read back, wherever the slot ends; when the record ends
    beyond byte 4096 of the page, the bytes of the record that do not fit
    are written into the file right after the page, where the next page
    begins. *)
Theorem record_written_past_page_end a type_name ti values a' :
  dict_get (catalog a) type_name = Some ti ->
  file_aligned a type_name ->
  create_record a type_name values = (Ok true, a') ->
  exists p slot record_data page_data num_records bitmap page_data',
    _serialize_record a type_name values = Ok record_data
    /\ p < MAX_PAGES_PER_FILE
    /\ (forall q, q < p -> page_is_full a type_name q = true)
    /\ fetch_page a type_name p = Ok (page_data, num_records, bitmap)
    /\ find_free_slot bitmap = Some slot
    /\ _load_page a' type_name p
       = Ok (Some page_data', (num_records + 1)%Z,
             Z.lor bitmap (Z.shiftl 1 (Z.of_nat slot)))
    /\ bit_set (Z.lor bitmap (Z.shiftl 1 (Z.of_nat slot))) slot = true
    /\ length page_data' = PAGE_SIZE
    /\ (PAGE_SIZE < slot_offset ti slot + length record_data ->
        slice (file_bytes a' type_name) ((p + 1) * PAGE_SIZE)
          (length record_data - (PAGE_SIZE - slot_offset ti slot))
        = drop (PAGE_SIZE - slot_offset ti slot) record_data).
Proof.
  intros Hti Hal Hc.
  destruct (create_record_inv _ _ _ _ _ Hc)
    as [[_ Hr]|(ti' & pk & rec & Hti' & _ & _ & _ & _ & Hser & _ & Hplace)];
    [congruence|].
  assert (ti' = ti) as -> by congruence.
  destruct (place_record_inv _ _ _ _ _ _ _ _ Hplace)
    as [[_ Hr]|(p & pd & cnt & bm & s & hdr & Hp & Hfull & Hf & Hs & Hh & _ & ->)];
    [congruence|].
  assert (Hfull' : forall q, q < p -> page_is_full a type_name q = true)
    by (intros q Hq; apply Hfull; lia).
  destruct (fetch_page_aligned _ _ _ _ _ _ Hal Hf Hfull') as (Hpl & _).
  set (off := slot_offset ti s) in *.
  set (pd1 := slice_assign pd off (off + length rec) rec) in *.
  assert (Hoff : 12 <= off) by (unfold off, slot_offset; lia).
  assert (L1 : PAGE_SIZE <= length pd1
               /\ (PAGE_SIZE < off + length rec ->
                   length pd1 = off `min` PAGE_SIZE + length rec)).
  { unfold pd1, slice_assign.
    rewrite !length_app, length_take, length_drop, Hpl. lia. }
  destruct L1 as [L1 L1'].
  destruct (header_written pd1 _ _ _ hdr Hh ltac:(unfold PAGE_SIZE in L1; lia))
    as (L2 & Hc2 & Hb2 & _ & Hsl2).
  set (pd2 := slice_assign pd1 0 12 hdr) in *.
  exists p, s, rec, pd, cnt, bm, (take PAGE_SIZE pd2).
  split; [exact Hser|]. split; [lia|]. split; [exact Hfull'|].
  split; [exact Hf|]. split; [exact Hs|].
  split; [rewrite load_saved_long_page by lia; rewrite Hc2, Hb2; reflexivity|].
  split; [rewrite bit_set_lor, Nat.eqb_refl; apply orb_true_r|].
  split; [rewrite length_take; lia|].
  intros Hover. specialize (L1' Hover).
  rewrite saved_page_tail by lia.
  unfold pd2. rewrite Hsl2 by (unfold PAGE_SIZE; lia).
  unfold pd1, slice_assign.
  rewrite (drop_ge pd (off + length rec)) by lia. rewrite app_nil_r.
  rewrite slice_app_r by (rewrite length_take; lia).
  rewrite length_take, Hpl.
  replace (PAGE_SIZE - off `min` PAGE_SIZE) with (PAGE_SIZE - off) by lia.
  unfold slice. apply take_ge. rewrite length_drop. lia.
Qed.

Lemma record_written_past_page_end_witness :
  exists p slot record_data page_data num_records bitmap page_data',
    _serialize_record (run wide_archive four_rows) (lit "W") (wide_row (lit "e"))
    = Ok record_data
    /\ p < MAX_PAGES_PER_FILE
    /\ (forall q, q < p -> page_is_full (run wide_archive four_rows) (lit "W") q = true)
    /\ fetch_page (run wide_archive four_rows) (lit "W") p
       = Ok (page_data, num_records, bitmap)
    /\ find_free_slot bitmap = Some slot
    /\ _load_page
         (create_record (run wide_archive four_rows) (lit "W") (wide_row (lit "e"))).2
         (lit "W") p
       = Ok (Some page_data', (num_records + 1)%Z,
             Z.lor bitmap (Z.shiftl 1 (Z.of_nat slot)))
    /\ bit_set (Z.lor bitmap (Z.shiftl 1 (Z.of_nat slot))) slot = true
    /\ length page_data' = PAGE_SIZE
    /\ (PAGE_SIZE
        < slot_offset
            {| fields := wide_fields; primary_key_order := 1; record_size := 1001 |}
            slot + length record_data ->
        slice
          (file_bytes
             (create_record (run wide_archive four_rows) (lit "W")
                (wide_row (lit "e"))).2 (lit "W"))
          ((p + 1) * PAGE_SIZE)
          (length record_data
           - (PAGE_SIZE
              - slot_offset
                  {| fields := wide_fields; primary_key_order := 1;
                     record_size := 1001 |} slot))
        = drop
            (PAGE_SIZE
             - slot_offset
                 {| fields := wide_fields; primary_key_order := 1;
                    record_size := 1001 |} slot) record_data).
Proof.
  apply (record_written_past_page_end (run wide_archive four_rows) (lit "W")
           {| fields := wide_fields; primary_key_order := 1; record_size := 1001 |}
           (wide_row (lit "e"))).
  - vm_compute. reflexivity.
  - vm_compute. exists 1. reflexivity.
  - vm_compute. reflexivity.
Defined.

(** ** What is written to output.txt *)

(** One pass of the loop body writes the record that the line asks for and
    gets, and nothing else. *)
Lemma process_line_output clock s line :
  output (process_line clock s line).2
  = output s ++ match found_record (archive s) line with
                | Some result => [output_line result]
                | None => []
                end.
Proof.
  unfold found_record, process_line.
  destruct (bool_decide (strip line = [])) eqn:Hb.
  - apply bool_decide_eq_true in Hb. rewrite Hb. cbn. rewrite app_nil_r. reflexivity.
  - destruct (py_split (strip line)) as [|w1 [|w2 rest]] eqn:Hs;
      [cbn; rewrite app_nil_r; reflexivity
      |cbn; rewrite app_nil_r; reflexivity|].
    destruct (pystr_eqb w1 (lit "create")) eqn:Ec.
    + apply bool_decide_eq_true in Ec. subst w1.
      change (pystr_eqb (lit "create") (lit "search")) with false. cbn [andb].
      repeat case_match; try discriminate;
        cbn [snd output _log_operation with_archive];
        rewrite ?app_nil_r; reflexivity.
    + destruct (pystr_eqb w1 (lit "search") && pystr_eqb w2 (lit "record")) eqn:Es.
      * destruct rest as [|type_name [|primary_key [|x rest]]];
          cbn [length Nat.eqb negb andb];
          try (cbn; rewrite app_nil_r; reflexivity).
        destruct (dict_get (catalog (archive s)) type_name) as [ti|] eqn:Hti.
        -- rewrite bool_decide_eq_true_2 by eauto.
           destruct (search_record (archive s) type_name primary_key)
             as [[result|]|e]; cbn; rewrite ?app_nil_r; reflexivity.
        -- rewrite bool_decide_eq_false_2 by (intros [? ?]; discriminate).
           cbn. rewrite app_nil_r. reflexivity.
      * cbn [andb].
        repeat case_match; try discriminate;
          cbn [snd output _log_operation with_archive];
          rewrite ?app_nil_r; reflexivity.
Qed.

(** X26: [output.txt] receives the records that the searches of the input
    find, and nothing else: after the loop the output is the output before
    it followed, for each line processed and in the order of the input, by
    the values of the record that [search_record] returns on the archive of
    that moment, joined by single spaces and ended by a line feed, when the
    line is a [search record] command of four words for a type of the
    catalog and the search finds a record; any other line, and the line
    that ends the loop by an exception, write nothing. *)
Theorem main_outputs_found_records clock s lines :
  output (main_loop clock s lines).2 = output s ++ found_lines clock s lines.
Proof.
  revert s. induction lines as [|line rest IH]; intros s.
  - cbn. rewrite app_nil_r. reflexivity.
  - cbn [main_loop found_lines].
    pose proof (process_line_output clock s line) as H.
    destruct (process_line clock s line) as [[e|] s1]; cbn [snd] in *.
    + rewrite H, app_nil_r. reflexivity.
    + rewrite IH, H, <- app_assoc. reflexivity.
Qed.

(** * Search as a scan of the decoded records *)





(** * Text keys longer than 99 characters *)



(** * A type whose records do not fit the page

    [create_type] accepts ten Text fields: a record of the type takes 1001
    bytes, so that the slots 0 to 3 lie inside the 4096 bytes of a page,
    slot 4 crosses its end and the slots 5 to 9 lie beyond it. *)








